(** * hipBLAS client test drivers: a trace model and its properties

    The five test drivers under [clients/include] ([testing_axpy_batched],
    [testing_copy_strided_batched], [testing_geam_batched], [testing_rotmg]
    and [testing_tpsv_batched]) are glue around an external GPU BLAS
    library, a CPU reference BLAS and a test-support library.  Each driver
    is embedded as a function in a small monad that records, in program
    order, every call the driver makes to the outside world and that stops
    at the first failing checked call.  What the outside world answers
    (status codes, measured doubles) is supplied by an [externals] record,
    so every statement below holds for any behaviour of the libraries. *)

From Stdlib Require Import ZArith List String Ascii Bool Lia.
From Stdlib Require Import Floats.SpecFloat.
From stdpp Require Import base list.
Import ListNotations.

Local Open Scope string_scope.
Local Open Scope list_scope.
Local Open Scope Z_scope.

(** ** Machine integers

    [int] is the 32-bit two's complement type, [size_t] the 64-bit unsigned
    type and [hipblasStride] the 64-bit signed type of the library's public
    header.  Values are kept in [Z]; an operation that can leave the range
    wraps around explicitly. *)

Definition wrap_unsigned (w : Z) (z : Z) : Z := z mod 2 ^ w.
Definition wrap_signed (w : Z) (z : Z) : Z :=
  (z + 2 ^ (w - 1)) mod 2 ^ w - 2 ^ (w - 1).

Definition INT_MAX : Z := 2 ^ 31 - 1.
Definition INT_MIN : Z := - 2 ^ 31.
Definition int_range (z : Z) : Prop := INT_MIN <= z <= INT_MAX.

Definition to_int (z : Z) : Z := wrap_signed 32 z.
Definition to_size_t (z : Z) : Z := wrap_unsigned 64 z.
Definition to_int64 (z : Z) : Z := wrap_signed 64 z.

Definition int_neg (a : Z) : Z := to_int (- a).
Definition int_add (a b : Z) : Z := to_int (a + b).
Definition size_t_mul (a b : Z) : Z := to_size_t (a * b).
Definition int64_mul (a b : Z) : Z := to_int64 (a * b).

(** ** Doubles

    A [double] is an IEEE-754 binary64 value.  A local [double] declared
    without an initialiser holds no determined value until it is assigned:
    such variables have type [option double] and start as [None]. *)

Definition double : Type := spec_float.
Definition dsub (a b : double) : double := SFsub 53 1024 a b.
Definition dadd (a b : double) : double := SFadd 53 1024 a b.
Definition dmul (a b : double) : double := SFmul 53 1024 a b.
Definition dabs (a : double) : double := SFabs a.
Definition dzero : double := S754_zero false.

(** [size_t] to [double]: round to nearest even. *)
Definition size_t_to_double (z : Z) : double := binary_normalize 53 1024 z 0 false.

Definition ddiv (a b : double) : double := SFdiv 53 1024 a b.
Definition d_one : double := size_t_to_double 1.

(** [double] to the 64-bit signed [hipblasStride]: truncation toward zero.
    C++ gives no meaning to a conversion whose truncated value does not
    fit; the x86-64 conversion instruction then delivers the most negative
    integer, which is what is written here. *)
Definition double_to_int64 (d : double) : Z :=
  match d with
  | S754_zero _ => 0
  | S754_finite s m e =>
      let mag := if 0 <=? e then Z.pos m * 2 ^ e else Z.pos m / 2 ^ (- e) in
      let v := if s then - mag else mag in
      if (- 2 ^ 63 <=? v) && (v <? 2 ^ 63) then v else - 2 ^ 63
  | _ => - 2 ^ 63
  end.

(** ** Library enumerations *)

Inductive hipblasStatus_t :=
| HIPBLAS_STATUS_SUCCESS
| HIPBLAS_STATUS_INVALID_VALUE
| HIPBLAS_STATUS_OTHER (code : nat).

Inductive hipError_t :=
| hipSuccess
| hipErrorOther (code : nat).

Inductive hipblasPointerMode_t :=
| HIPBLAS_POINTER_MODE_HOST
| HIPBLAS_POINTER_MODE_DEVICE.

Inductive hipblasOperation_t := HIPBLAS_OP_N | HIPBLAS_OP_T | HIPBLAS_OP_C.
Inductive hipblasFillMode_t :=
  HIPBLAS_FILL_MODE_UPPER | HIPBLAS_FILL_MODE_LOWER | HIPBLAS_FILL_MODE_FULL.
Inductive hipblasDiagType_t := HIPBLAS_DIAG_NON_UNIT | HIPBLAS_DIAG_UNIT.
Inductive hipMemcpyKind := hipMemcpyHostToDevice | hipMemcpyDeviceToHost.

Definition status_eqb (a b : hipblasStatus_t) : bool :=
  match a, b with
  | HIPBLAS_STATUS_SUCCESS, HIPBLAS_STATUS_SUCCESS => true
  | HIPBLAS_STATUS_INVALID_VALUE, HIPBLAS_STATUS_INVALID_VALUE => true
  | HIPBLAS_STATUS_OTHER m, HIPBLAS_STATUS_OTHER n => Nat.eqb m n
  | _, _ => false
  end.

Definition operation_eqb (a b : hipblasOperation_t) : bool :=
  match a, b with
  | HIPBLAS_OP_N, HIPBLAS_OP_N | HIPBLAS_OP_T, HIPBLAS_OP_T
  | HIPBLAS_OP_C, HIPBLAS_OP_C => true
  | _, _ => false
  end.

Definition fill_eqb (a b : hipblasFillMode_t) : bool :=
  match a, b with
  | HIPBLAS_FILL_MODE_UPPER, HIPBLAS_FILL_MODE_UPPER
  | HIPBLAS_FILL_MODE_LOWER, HIPBLAS_FILL_MODE_LOWER
  | HIPBLAS_FILL_MODE_FULL, HIPBLAS_FILL_MODE_FULL => true
  | _, _ => false
  end.

(** ** The argument record

    The fields of [Arguments] the five drivers read.  Integer fields hold
    [int] values; the three switches are used only for their truth value. *)

Record Arguments := {
  arg_fortran : bool;
  arg_M : Z;
  arg_N : Z;
  arg_lda : Z;
  arg_ldb : Z;
  arg_ldc : Z;
  arg_incx : Z;
  arg_incy : Z;
  arg_stride_scale : double;
  arg_batch_count : Z;
  arg_transA : ascii;
  arg_transB : ascii;
  arg_uplo : ascii;
  arg_diag : ascii;
  arg_unit_check : bool;
  arg_norm_check : bool;
  arg_timing : bool;
  arg_iters : Z;
  arg_cold_iters : Z
}.

(** ** Events

    One event per call that leaves the driver.  Buffers are named as the
    local variables of the source are. *)

Inductive space := Host | Device.

Inductive ptr :=
| nullptr
| host_ptr (name : string) (off : Z)      (* &alpha, &hparams[i] *)
| device_ptr (name : string) (off : Z).   (* d_alpha, dparams + i, dx.ptr_on_device() *)

Inductive arg_value :=
| a_int (z : Z)
| a_ptr (p : ptr)
| a_op (o : hipblasOperation_t)
| a_fill (f : hipblasFillMode_t)
| a_diag (d : hipblasDiagType_t).

Inductive event :=
| HandleCreate                                           (* hipblasLocalHandle handle(arg) *)
| Alloc (sp : space) (name : string) (dims : list Z)     (* buffer constructor and its arguments *)
| Memcheck (name : string)                               (* d.memcheck() *)
| InitVector (name : string)                             (* hipblas_init_vector *)
| HostCopy (dst src : string)                            (* copy_from, operator=, copy construction *)
| Transfer (dst src : string)                            (* transfer_from *)
| Memcpy (dst src : string) (bytes : Z) (k : hipMemcpyKind)   (* hipMemcpy *)
| SetPointerMode (m : hipblasPointerMode_t)              (* hipblasSetPointerMode *)
| BlasCall (routine : string) (fortran : bool) (args : list arg_value)
| GetStream                                              (* hipblasGetStream *)
| Reference (routine : string) (b : Z) (bufs : list string)   (* cblas_* on batch b *)
| PackMatrix (b : Z) (A AP : string)                     (* regular_to_packed *)
| UnitCheck (ref res : string)                           (* unit_check_general *)
| NearCheck (ref res : string) (rel_error : Z)           (* near_check_general, tolerance epsilon * rel_error *)
| NormCheck (ref res : string)                           (* norm_check_general *)
| VectorNorm (b : Z) (ref res : string)                  (* vector_norm_1 *)
| UnitCheckError (err : double) (n : Z)                  (* unit_check_error, tolerance epsilon * 40 * n *)
| Timestamp                                              (* get_time_us_sync(stream) *)
| LogArgs (gpu_time_used : option double) (errors : list (option double))
| ExpectStatus (actual expected : hipblasStatus_t).      (* EXPECT_HIPBLAS_STATUS *)

(** ** The outside world

    What the libraries answer may depend on everything that happened so
    far: each answer is a function of the history of events up to and
    including the call being answered. *)

Record externals := {
  blas_status : list event -> hipblasStatus_t;
  hip_status : list event -> hipError_t;
  measured : list event -> double;
  sizeof_T : Z;
  char2hipblas_operation : ascii -> hipblasOperation_t;
  char2hipblas_fill : ascii -> hipblasFillMode_t;
  char2hipblas_diagonal : ascii -> hipblasDiagType_t
}.

(** ** The driver monad *)

Inductive failure :=
| blas_failure (s : hipblasStatus_t)
| hip_failure (e : hipError_t).

Inductive result (A : Type) :=
| Ok (a : A)
| Fail (f : failure).
Arguments Ok {A} a.
Arguments Fail {A} f.

(** A computation maps the history so far to the events it appends and to
    its outcome. *)
Definition io (A : Type) : Type := list event -> list event * result A.

Definition ret {A} (a : A) : io A := fun _ => ([], Ok a).

Definition bind {A B} (m : io A) (f : A -> io B) : io B :=
  fun h =>
    match m h with
    | (es, Ok a) => let (es', r) := f a (h ++ es) in (es ++ es', r)
    | (es, Fail x) => (es, Fail x)
    end.

Definition emit (e : event) : io unit := fun _ => ([e], Ok tt).
Definition abort {A} (f : failure) : io A := fun _ => ([], Fail f).

Notation "x <- m ;; k" := (bind m (fun x => k))
  (at level 100, m at next level, right associativity).
Notation "m ;; k" := (bind m (fun _ => k))
  (at level 100, right associativity).

(** [for(int i = lo; i < lo + count; i++) s = body(i, s);] *)
Fixpoint for_range {S} (lo : Z) (count : nat) (body : Z -> S -> io S) (s : S) : io S :=
  match count with
  | O => ret s
  | Datatypes.S c => s' <- body lo s ;; for_range (lo + 1) c body s'
  end.

(** [for(int i = 0; i < bound; i++)] with the variables the body assigns
    threaded through it. *)
Definition for_int_fold {S} (bound : Z) (body : Z -> S -> io S) (s : S) : io S :=
  for_range 0 (Z.to_nat bound) body s.

Definition for_int (bound : Z) (body : Z -> io unit) : io unit :=
  for_int_fold bound (fun i _ => body i) tt.

Definition run {A} (m : io A) : list event * result A := m [].

(** ** Calls into the libraries *)

Section Drivers.

Variable E : externals.

(** A call that returns a [hipblasStatus_t]. *)
Definition blas_call (e : event) : io hipblasStatus_t :=
  fun h => ([e], Ok (blas_status E (h ++ [e]))).

(** A call that returns a [hipError_t]. *)
Definition hip_call (e : event) : io hipError_t :=
  fun h => ([e], Ok (hip_status E (h ++ [e]))).

(** A call that returns a [double]. *)
Definition double_call (e : event) : io double :=
  fun h => ([e], Ok (measured E (h ++ [e]))).

(** Modelled from the spec: the checking macro [CHECK_HIPBLAS_ERROR] is
    defined outside the given sources; a status other than success leaves
    the test function at once, carrying that status. *)
Definition CHECK_HIPBLAS_ERROR (m : io hipblasStatus_t) : io unit :=
  s <- m ;;
  match s with
  | HIPBLAS_STATUS_SUCCESS => ret tt
  | _ => abort (blas_failure s)
  end.

(** Modelled from the spec: the checking macro [CHECK_HIP_ERROR] is defined
    outside the given sources; an error other than [hipSuccess] leaves the
    test function at once, carrying that error. *)
Definition CHECK_HIP_ERROR (m : io hipError_t) : io unit :=
  e <- m ;;
  match e with
  | hipSuccess => ret tt
  | _ => abort (hip_failure e)
  end.

(** [EXPECT_HIPBLAS_STATUS] records an assertion on a status and goes on. *)
Definition EXPECT_HIPBLAS_STATUS (actual expected : hipblasStatus_t) : io unit :=
  emit (ExpectStatus actual expected).

Definition hipblasLocalHandle : io unit := emit HandleCreate.
Definition hipblasSetPointerMode (m : hipblasPointerMode_t) : io hipblasStatus_t :=
  blas_call (SetPointerMode m).
Definition hipblasGetStream : io hipblasStatus_t := blas_call GetStream.
Definition get_time_us_sync : io double := double_call Timestamp.

Definition host_vector (name : string) (n : Z) : io unit :=
  emit (Alloc Host name [n]).
Definition device_vector (name : string) (n : Z) : io unit :=
  emit (Alloc Device name [n]).
Definition host_batch_vector (name : string) (n inc batch_count : Z) : io unit :=
  emit (Alloc Host name [n; inc; batch_count]).
Definition device_batch_vector (name : string) (n inc batch_count : Z) : io unit :=
  emit (Alloc Device name [n; inc; batch_count]).

Definition memcheck (d : string) : io hipError_t := hip_call (Memcheck d).
Definition transfer_from (dst src : string) : io hipError_t := hip_call (Transfer dst src).
Definition hipMemcpy (dst src : string) (bytes : Z) (k : hipMemcpyKind) : io hipError_t :=
  hip_call (Memcpy dst src bytes k).
Definition hipblas_init_vector (name : string) : io unit := emit (InitVector name).
Definition copy_from (dst src : string) : io unit := emit (HostCopy dst src).

Definition unit_check_general (ref res : string) : io unit := emit (UnitCheck ref res).
Definition near_check_general (ref res : string) (rel_error : Z) : io unit :=
  emit (NearCheck ref res rel_error).
Definition norm_check_general (ref res : string) : io double :=
  double_call (NormCheck ref res).
Definition vector_norm_1 (b : Z) (ref res : string) : io double :=
  double_call (VectorNorm b ref res).
Definition unit_check_error (err : double) (n : Z) : io unit :=
  emit (UnitCheckError err n).

Definition log_args (gpu_time_used : option double) (errors : list (option double)) : io unit :=
  emit (LogArgs gpu_time_used errors).

(** The timing loop shared by the five drivers:
    [for(iter = 0; iter < runs; iter++) { if(iter == cold_iters)
     gpu_time_used = get_time_us_sync(stream); CHECK_HIPBLAS_ERROR(call); }]
    followed by [gpu_time_used = get_time_us_sync(stream) - gpu_time_used]. *)
Definition timing_iteration (arg : Arguments) (call : io hipblasStatus_t) (iter : Z)
    (gpu_time_used : option double) : io (option double) :=
  t' <- (if iter =? arg_cold_iters arg
         then (now <- get_time_us_sync ;; ret (Some now))
         else ret gpu_time_used) ;;
  CHECK_HIPBLAS_ERROR call ;;
  ret t'.

Definition timing_loop (arg : Arguments) (call : io hipblasStatus_t)
    (gpu_time_used : option double) : io (option double) :=
  let runs := int_add (arg_cold_iters arg) (arg_iters arg) in
  t0 <- for_int_fold runs (timing_iteration arg call) gpu_time_used ;;
  now <- get_time_us_sync ;;
  ret (option_map (dsub now) t0).

(** *** [testing_axpy_batched] *)

Definition hipblasAxpyBatched (fortran : bool) (n : Z) (alpha x : ptr) (incx : Z)
    (y : ptr) (incy batch_count : Z) : io hipblasStatus_t :=
  blas_call (BlasCall "hipblasAxpyBatched" fortran
               [a_int n; a_ptr alpha; a_ptr x; a_int incx; a_ptr y; a_int incy;
                a_int batch_count]).

Definition cblas_axpy (b : Z) (x y : string) : io unit :=
  emit (Reference "cblas_axpy" b [x; y]).

Definition testing_axpy_batched (arg : Arguments) : io hipblasStatus_t :=
  let FORTRAN := arg_fortran arg in
  let hipblasAxpyBatchedFn := hipblasAxpyBatched FORTRAN in
  let N := arg_N arg in
  let incx := arg_incx arg in
  let incy := arg_incy arg in
  let batch_count := arg_batch_count arg in
  let abs_incy := if incy <? 0 then int_neg incy else incy in
  hipblasLocalHandle ;;
  if (N <=? 0) || (batch_count <=? 0) then
    CHECK_HIPBLAS_ERROR
      (hipblasAxpyBatchedFn N nullptr nullptr incx nullptr incy batch_count) ;;
    ret HIPBLAS_STATUS_SUCCESS
  else
    let gpu_time_used : option double := None in
    let hipblas_error_host : option double := None in
    let hipblas_error_device : option double := None in
    host_batch_vector "hx" N incx batch_count ;;
    host_batch_vector "hy_host" N incy batch_count ;;
    host_batch_vector "hy_device" N incy batch_count ;;
    host_batch_vector "hx_cpu" N incx batch_count ;;
    host_batch_vector "hy_cpu" N incy batch_count ;;
    device_batch_vector "dx" N incx batch_count ;;
    device_batch_vector "dy_host" N incy batch_count ;;
    device_batch_vector "dy_device" N incy batch_count ;;
    device_vector "d_alpha" 1 ;;
    CHECK_HIP_ERROR (memcheck "dx") ;;
    CHECK_HIP_ERROR (memcheck "dy_host") ;;
    CHECK_HIP_ERROR (memcheck "dy_device") ;;
    hipblas_init_vector "hx" ;;
    hipblas_init_vector "hy_host" ;;
    copy_from "hy_device" "hy_host" ;;
    copy_from "hx_cpu" "hx" ;;
    copy_from "hy_cpu" "hy_host" ;;
    CHECK_HIP_ERROR (transfer_from "dx" "hx") ;;
    CHECK_HIP_ERROR (transfer_from "dy_host" "hy_host") ;;
    CHECK_HIP_ERROR (transfer_from "dy_device" "hy_device") ;;
    CHECK_HIP_ERROR (hipMemcpy "d_alpha" "alpha" (sizeof_T E) hipMemcpyHostToDevice) ;;
    errs <-
      (if arg_unit_check arg || arg_norm_check arg then
         CHECK_HIPBLAS_ERROR (hipblasSetPointerMode HIPBLAS_POINTER_MODE_DEVICE) ;;
         CHECK_HIPBLAS_ERROR
           (hipblasAxpyBatchedFn N (device_ptr "d_alpha" 0) (device_ptr "dx" 0) incx
              (device_ptr "dy_device" 0) incy batch_count) ;;
         CHECK_HIPBLAS_ERROR (hipblasSetPointerMode HIPBLAS_POINTER_MODE_HOST) ;;
         CHECK_HIPBLAS_ERROR
           (hipblasAxpyBatchedFn N (host_ptr "alpha" 0) (device_ptr "dx" 0) incx
              (device_ptr "dy_host" 0) incy batch_count) ;;
         CHECK_HIP_ERROR (transfer_from "hy_host" "dy_host") ;;
         CHECK_HIP_ERROR (transfer_from "hy_device" "dy_device") ;;
         for_int batch_count (fun b => cblas_axpy b "hx_cpu" "hy_cpu") ;;
         (if arg_unit_check arg then
            unit_check_general "hy_cpu" "hy_host" ;;
            unit_check_general "hy_cpu" "hy_device"
          else ret tt) ;;
         (if arg_norm_check arg then
            eh <- norm_check_general "hy_cpu" "hy_host" ;;
            ed <- norm_check_general "hy_cpu" "hy_device" ;;
            ret (Some eh, Some ed)
          else ret (hipblas_error_host, hipblas_error_device))
       else ret (hipblas_error_host, hipblas_error_device)) ;;
    (if arg_timing arg then
       CHECK_HIPBLAS_ERROR hipblasGetStream ;;
       CHECK_HIPBLAS_ERROR (hipblasSetPointerMode HIPBLAS_POINTER_MODE_DEVICE) ;;
       t <- timing_loop arg
              (hipblasAxpyBatchedFn N (device_ptr "d_alpha" 0) (device_ptr "dx" 0) incx
                 (device_ptr "dy_device" 0) incy batch_count)
              gpu_time_used ;;
       log_args t [fst errs; snd errs]
     else ret tt) ;;
    ret HIPBLAS_STATUS_SUCCESS.

(** *** [testing_copy_strided_batched] *)

Definition hipblasCopyStridedBatched (fortran : bool) (n : Z) (x : ptr) (incx stridex : Z)
    (y : ptr) (incy stridey batch_count : Z) : io hipblasStatus_t :=
  blas_call (BlasCall "hipblasCopyStridedBatched" fortran
               [a_int n; a_ptr x; a_int incx; a_int stridex; a_ptr y; a_int incy;
                a_int stridey; a_int batch_count]).

Definition cblas_copy (b : Z) (x y : string) : io unit :=
  emit (Reference "cblas_copy" b [x; y]).

(** [size_t(N) * abs_inc * stride_scale], stored in a [hipblasStride]. *)
Definition scaled_stride (N abs_inc : Z) (stride_scale : double) : Z :=
  double_to_int64
    (dmul (size_t_to_double (size_t_mul (to_size_t N) (to_size_t abs_inc))) stride_scale).

(** [size_t size = stride * batch_count; if(!size) size = 1;] *)
Definition buffer_size (stride batch_count : Z) : Z :=
  let size := to_size_t (int64_mul stride batch_count) in
  if size =? 0 then 1 else size.

Definition testing_copy_strided_batched (arg : Arguments) : io hipblasStatus_t :=
  let FORTRAN := arg_fortran arg in
  let hipblasCopyStridedBatchedFn := hipblasCopyStridedBatched FORTRAN in
  let N := arg_N arg in
  let incx := arg_incx arg in
  let incy := arg_incy arg in
  let stride_scale := arg_stride_scale arg in
  let batch_count := arg_batch_count arg in
  let abs_incx := if 0 <=? incx then incx else int_neg incx in
  let abs_incy := if 0 <=? incy then incy else int_neg incy in
  let stridex := scaled_stride N abs_incx stride_scale in
  let stridey := scaled_stride N abs_incy stride_scale in
  let sizeX := buffer_size stridex batch_count in
  let sizeY := buffer_size stridey batch_count in
  hipblasLocalHandle ;;
  if (N <=? 0) || (batch_count <=? 0) then
    CHECK_HIPBLAS_ERROR
      (hipblasCopyStridedBatchedFn N nullptr incx stridex nullptr incy stridey batch_count) ;;
    ret HIPBLAS_STATUS_SUCCESS
  else
    host_vector "hx" sizeX ;;
    host_vector "hy" sizeY ;;
    host_vector "hx_cpu" sizeX ;;
    host_vector "hy_cpu" sizeY ;;
    device_vector "dx" sizeX ;;
    device_vector "dy" sizeY ;;
    let gpu_time_used : option double := Some dzero in
    let hipblas_error : option double := Some dzero in
    hipblas_init_vector "hx" ;;
    hipblas_init_vector "hy" ;;
    copy_from "hx_cpu" "hx" ;;
    copy_from "hy_cpu" "hy" ;;
    CHECK_HIP_ERROR
      (hipMemcpy "dx" "hx" (size_t_mul (sizeof_T E) sizeX) hipMemcpyHostToDevice) ;;
    CHECK_HIP_ERROR
      (hipMemcpy "dy" "hy" (size_t_mul (sizeof_T E) sizeY) hipMemcpyHostToDevice) ;;
    err <-
      (if arg_unit_check arg || arg_norm_check arg then
         CHECK_HIPBLAS_ERROR
           (hipblasCopyStridedBatchedFn N (device_ptr "dx" 0) incx stridex
              (device_ptr "dy" 0) incy stridey batch_count) ;;
         CHECK_HIP_ERROR
           (hipMemcpy "hx" "dx" (size_t_mul (sizeof_T E) sizeX) hipMemcpyDeviceToHost) ;;
         CHECK_HIP_ERROR
           (hipMemcpy "hy" "dy" (size_t_mul (sizeof_T E) sizeY) hipMemcpyDeviceToHost) ;;
         for_int batch_count (fun b => cblas_copy b "hx_cpu" "hy_cpu") ;;
         (if arg_unit_check arg then unit_check_general "hy_cpu" "hy" else ret tt) ;;
         (if arg_norm_check arg then
            e <- norm_check_general "hy_cpu" "hy" ;; ret (Some e)
          else ret hipblas_error)
       else ret hipblas_error) ;;
    (if arg_timing arg then
       CHECK_HIPBLAS_ERROR hipblasGetStream ;;
       t <- timing_loop arg
              (hipblasCopyStridedBatchedFn N (device_ptr "dx" 0) incx stridex
                 (device_ptr "dy" 0) incy stridey batch_count)
              gpu_time_used ;;
       log_args t [err]
     else ret tt) ;;
    ret HIPBLAS_STATUS_SUCCESS.

(** *** [testing_rotmg] *)

Definition hipblasRotmg (fortran : bool) (d1 d2 x1 y1 param : ptr) : io hipblasStatus_t :=
  blas_call (BlasCall "hipblasRotmg" fortran
               [a_ptr d1; a_ptr d2; a_ptr x1; a_ptr y1; a_ptr param]).

Definition cblas_rotmg (params : string) : io unit :=
  emit (Reference "cblas_rotmg" 0 [params]).

(** [host_vector<T> v = src;] allocates as many elements as [src] has and
    copies them. *)
Definition host_vector_copy (name src : string) (n : Z) : io unit :=
  host_vector name n ;; copy_from name src.

Definition testing_rotmg (arg : Arguments) : io hipblasStatus_t :=
  let FORTRAN := arg_fortran arg in
  let hipblasRotmgFn := hipblasRotmg FORTRAN in
  let gpu_time_used : option double := None in
  let hipblas_error_host : option double := None in
  let hipblas_error_device : option double := None in
  hipblasLocalHandle ;;
  host_vector "hparams" 9 ;;
  let rel_error := 1000 in   (* std::numeric_limits<T>::epsilon() * 1000 *)
  hipblas_init_vector "hparams" ;;
  host_vector_copy "cparams" "hparams" 9 ;;
  host_vector_copy "hparams_d" "hparams" 9 ;;
  device_vector "dparams" 9 ;;
  CHECK_HIP_ERROR
    (hipMemcpy "dparams" "hparams" (size_t_mul 9 (sizeof_T E)) hipMemcpyHostToDevice) ;;
  errs <-
    (if arg_unit_check arg || arg_norm_check arg then
       CHECK_HIPBLAS_ERROR (hipblasSetPointerMode HIPBLAS_POINTER_MODE_HOST) ;;
       CHECK_HIPBLAS_ERROR
         (hipblasRotmgFn (host_ptr "hparams" 0) (host_ptr "hparams" 1) (host_ptr "hparams" 2)
            (host_ptr "hparams" 3) (host_ptr "hparams" 4)) ;;
       CHECK_HIPBLAS_ERROR (hipblasSetPointerMode HIPBLAS_POINTER_MODE_DEVICE) ;;
       CHECK_HIPBLAS_ERROR
         (hipblasRotmgFn (device_ptr "dparams" 0) (device_ptr "dparams" 1)
            (device_ptr "dparams" 2) (device_ptr "dparams" 3) (device_ptr "dparams" 4)) ;;
       CHECK_HIP_ERROR
         (hipMemcpy "hparams_d" "dparams" (size_t_mul 9 (sizeof_T E)) hipMemcpyDeviceToHost) ;;
       cblas_rotmg "cparams" ;;
       (if arg_unit_check arg then
          near_check_general "cparams" "hparams" rel_error ;;
          near_check_general "cparams" "hparams_d" rel_error
        else ret tt) ;;
       (if arg_norm_check arg then
          eh <- norm_check_general "cparams" "hparams" ;;
          ed <- norm_check_general "cparams" "hparams_d" ;;
          ret (Some eh, Some ed)
        else ret (hipblas_error_host, hipblas_error_device))
     else ret (hipblas_error_host, hipblas_error_device)) ;;
  (if arg_timing arg then
     CHECK_HIPBLAS_ERROR hipblasGetStream ;;
     CHECK_HIPBLAS_ERROR (hipblasSetPointerMode HIPBLAS_POINTER_MODE_DEVICE) ;;
     t <- timing_loop arg
            (hipblasRotmgFn (device_ptr "dparams" 0) (device_ptr "dparams" 1)
               (device_ptr "dparams" 2) (device_ptr "dparams" 3) (device_ptr "dparams" 4))
            gpu_time_used ;;
     log_args t [fst errs; snd errs]
   else ret tt) ;;
  ret HIPBLAS_STATUS_SUCCESS.

(** *** [testing_geam_batched] *)

Definition hipblasGeamBatched (fortran : bool) (transA transB : hipblasOperation_t)
    (m n : Z) (alpha A : ptr) (lda : Z) (beta B : ptr) (ldb : Z) (C : ptr)
    (ldc batch_count : Z) : io hipblasStatus_t :=
  blas_call (BlasCall "hipblasGeamBatched" fortran
               [a_op transA; a_op transB; a_int m; a_int n; a_ptr alpha; a_ptr A;
                a_int lda; a_ptr beta; a_ptr B; a_int ldb; a_ptr C; a_int ldc;
                a_int batch_count]).

Definition cblas_geam (b : Z) (A B C : string) : io unit :=
  emit (Reference "cblas_geam" b [A; B; C]).

Definition testing_geam_batched (arg : Arguments) : io hipblasStatus_t :=
  let FORTRAN := arg_fortran arg in
  let hipblasGeamBatchedFn := hipblasGeamBatched FORTRAN in
  let transA := char2hipblas_operation E (arg_transA arg) in
  let transB := char2hipblas_operation E (arg_transB arg) in
  let M := arg_M arg in
  let N := arg_N arg in
  let lda := arg_lda arg in
  let ldb := arg_ldb arg in
  let ldc := arg_ldc arg in
  let batch_count := arg_batch_count arg in
  let A_row := if operation_eqb transA HIPBLAS_OP_N then M else N in
  let A_col := if operation_eqb transA HIPBLAS_OP_N then N else M in
  let B_row := if operation_eqb transB HIPBLAS_OP_N then M else N in
  let B_col := if operation_eqb transB HIPBLAS_OP_N then N else M in
  let A_size := size_t_mul (to_size_t lda) (to_size_t A_col) in
  let B_size := size_t_mul (to_size_t ldb) (to_size_t B_col) in
  let C_size := size_t_mul (to_size_t ldc) (to_size_t N) in
  if (M <=? 0) || (N <=? 0) || (lda <? A_row) || (ldb <? B_row) || (ldc <? M)
     || (batch_count <? 0) then
    ret HIPBLAS_STATUS_INVALID_VALUE
  else if batch_count =? 0 then
    ret HIPBLAS_STATUS_SUCCESS
  else
    let gpu_time_used : option double := None in
    let hipblas_error_host : option double := None in
    let hipblas_error_device : option double := None in
    hipblasLocalHandle ;;
    device_batch_vector "dA" A_size 1 batch_count ;;
    device_batch_vector "dB" B_size 1 batch_count ;;
    device_batch_vector "dC" C_size 1 batch_count ;;
    device_vector "d_alpha" 1 ;;
    device_vector "d_beta" 1 ;;
    CHECK_HIP_ERROR (memcheck "dA") ;;
    CHECK_HIP_ERROR (memcheck "dB") ;;
    CHECK_HIP_ERROR (memcheck "dC") ;;
    host_batch_vector "hA" A_size 1 batch_count ;;
    host_batch_vector "hB" B_size 1 batch_count ;;
    host_batch_vector "hC1" C_size 1 batch_count ;;
    host_batch_vector "hC2" C_size 1 batch_count ;;
    host_batch_vector "hC_copy" C_size 1 batch_count ;;
    hipblas_init_vector "hA" ;;
    hipblas_init_vector "hB" ;;
    hipblas_init_vector "hC1" ;;
    copy_from "hC2" "hC1" ;;
    copy_from "hC_copy" "hC1" ;;
    CHECK_HIP_ERROR (transfer_from "dA" "hA") ;;
    CHECK_HIP_ERROR (transfer_from "dB" "hB") ;;
    CHECK_HIP_ERROR (transfer_from "dC" "hC1") ;;
    CHECK_HIP_ERROR (hipMemcpy "d_alpha" "h_alpha" (sizeof_T E) hipMemcpyHostToDevice) ;;
    CHECK_HIP_ERROR (hipMemcpy "d_beta" "h_beta" (sizeof_T E) hipMemcpyHostToDevice) ;;
    errs <-
      (if arg_norm_check arg || arg_unit_check arg then
         CHECK_HIPBLAS_ERROR (hipblasSetPointerMode HIPBLAS_POINTER_MODE_HOST) ;;
         CHECK_HIPBLAS_ERROR
           (hipblasGeamBatchedFn transA transB M N (host_ptr "h_alpha" 0)
              (device_ptr "dA" 0) lda (host_ptr "h_beta" 0) (device_ptr "dB" 0) ldb
              (device_ptr "dC" 0) ldc batch_count) ;;
         CHECK_HIP_ERROR (transfer_from "hC1" "dC") ;;
         CHECK_HIP_ERROR (transfer_from "dC" "hC2") ;;
         CHECK_HIPBLAS_ERROR (hipblasSetPointerMode HIPBLAS_POINTER_MODE_DEVICE) ;;
         CHECK_HIPBLAS_ERROR
           (hipblasGeamBatchedFn transA transB M N (device_ptr "d_alpha" 0)
              (device_ptr "dA" 0) lda (device_ptr "d_beta" 0) (device_ptr "dB" 0) ldb
              (device_ptr "dC" 0) ldc batch_count) ;;
         CHECK_HIP_ERROR (transfer_from "hC2" "dC") ;;
         for_int batch_count (fun b => cblas_geam b "hA" "hB" "hC_copy") ;;
         (if arg_unit_check arg then
            unit_check_general "hC_copy" "hC1" ;;
            unit_check_general "hC_copy" "hC2"
          else ret tt) ;;
         (if arg_norm_check arg then
            eh <- norm_check_general "hC_copy" "hC1" ;;
            ed <- norm_check_general "hC_copy" "hC2" ;;
            ret (Some eh, Some ed)
          else ret (hipblas_error_host, hipblas_error_device))
       else ret (hipblas_error_host, hipblas_error_device)) ;;
    (if arg_timing arg then
       CHECK_HIPBLAS_ERROR hipblasGetStream ;;
       CHECK_HIPBLAS_ERROR (hipblasSetPointerMode HIPBLAS_POINTER_MODE_DEVICE) ;;
       t <- timing_loop arg
              (hipblasGeamBatchedFn transA transB M N (device_ptr "d_alpha" 0)
                 (device_ptr "dA" 0) lda (device_ptr "d_beta" 0) (device_ptr "dB" 0) ldb
                 (device_ptr "dC" 0) ldc batch_count)
              gpu_time_used ;;
       log_args t [fst errs; snd errs]
     else ret tt) ;;
    ret HIPBLAS_STATUS_SUCCESS.

(** *** [testing_tpsv_batched]

    The calls the driver makes; what the loops of lines 96-151 compute on
    the host buffers is the subject of the section on the triangular
    factor further down. *)

Definition hipblasTpsvBatched (fortran : bool) (uplo : hipblasFillMode_t)
    (transA : hipblasOperation_t) (diag : hipblasDiagType_t) (n : Z) (AP x : ptr)
    (incx batch_count : Z) : io hipblasStatus_t :=
  blas_call (BlasCall "hipblasTpsvBatched" fortran
               [a_fill uplo; a_op transA; a_diag diag; a_int n; a_ptr AP; a_ptr x;
                a_int incx; a_int batch_count]).

Definition cblas_gemm (b : Z) (A B C : string) : io unit :=
  emit (Reference "cblas_gemm" b [A; B; C]).
Definition cblas_potrf (b : Z) (A : string) : io unit :=
  emit (Reference "cblas_potrf" b [A]).
Definition cblas_trmv (b : Z) (A x : string) : io unit :=
  emit (Reference "cblas_trmv" b [A; x]).
Definition regular_to_packed (b : Z) (A AP : string) : io unit :=
  emit (PackMatrix b A AP).

(** The body of the loop of lines 180-190: the error of batch entry [b],
    checked against the tolerance when unit checking is on and added to
    the cumulative error. *)
Definition tpsv_check_batch (arg : Arguments) (b : Z) (cumulative_hipblas_error : double)
    : io double :=
  nrm <- vector_norm_1 b "hx" "hx_or_b_1" ;;
  let hipblas_error := dabs nrm in
  (if arg_unit_check arg then unit_check_error hipblas_error (arg_N arg) else ret tt) ;;
  ret (dadd cumulative_hipblas_error hipblas_error).

Definition testing_tpsv_batched (arg : Arguments) : io hipblasStatus_t :=
  let FORTRAN := arg_fortran arg in
  let hipblasTpsvBatchedFn := hipblasTpsvBatched FORTRAN in
  let uplo := char2hipblas_fill E (arg_uplo arg) in
  let diag := char2hipblas_diagonal E (arg_diag arg) in
  let transA := char2hipblas_operation E (arg_transA arg) in
  let N := arg_N arg in
  let incx := arg_incx arg in
  let batch_count := arg_batch_count arg in
  let abs_incx := if incx <? 0 then int_neg incx else incx in
  let size_A := size_t_mul (to_size_t N) (to_size_t N) in
  let size_AP := size_t_mul (to_size_t N) (to_size_t (int_add N 1)) / 2 in
  let size_x := size_t_mul (to_size_t abs_incx) (to_size_t N) in
  hipblasLocalHandle ;;
  let invalid_size := (N <? 0) || (incx =? 0) || (batch_count <? 0) in
  if invalid_size || (N =? 0) || (batch_count =? 0) then
    actual <- hipblasTpsvBatchedFn uplo transA diag N nullptr nullptr incx batch_count ;;
    EXPECT_HIPBLAS_STATUS actual
      (if invalid_size then HIPBLAS_STATUS_INVALID_VALUE else HIPBLAS_STATUS_SUCCESS) ;;
    ret actual
  else
    host_batch_vector "hA" size_A 1 batch_count ;;
    host_batch_vector "hAP" size_AP 1 batch_count ;;
    host_batch_vector "AAT" size_A 1 batch_count ;;
    host_batch_vector "hb" N incx batch_count ;;
    host_batch_vector "hx" N incx batch_count ;;
    host_batch_vector "hx_or_b_1" N incx batch_count ;;
    host_batch_vector "hx_or_b_2" N incx batch_count ;;
    host_batch_vector "cpu_x_or_b" N incx batch_count ;;
    device_batch_vector "dAP" size_AP 1 batch_count ;;
    device_batch_vector "dx_or_b" N incx batch_count ;;
    CHECK_HIP_ERROR (memcheck "dAP") ;;
    CHECK_HIP_ERROR (memcheck "dx_or_b") ;;
    let gpu_time_used : option double := None in
    let cumulative_hipblas_error : double := dzero in
    hipblas_init_vector "hA" ;;
    hipblas_init_vector "hx" ;;
    copy_from "hb" "hx" ;;
    for_int batch_count
      (fun b =>
         cblas_gemm b "hA" "hA" "AAT" ;;
         cblas_potrf b "hA" ;;
         cblas_trmv b "hA" "hb" ;;
         regular_to_packed b "hA" "hAP") ;;
    copy_from "cpu_x_or_b" "hb" ;;
    copy_from "hx_or_b_1" "hb" ;;
    copy_from "hx_or_b_2" "hb" ;;
    CHECK_HIP_ERROR (transfer_from "dAP" "hAP") ;;
    CHECK_HIP_ERROR (transfer_from "dx_or_b" "hx_or_b_1") ;;
    cumulative <-
      (if arg_unit_check arg || arg_norm_check arg then
         CHECK_HIPBLAS_ERROR
           (hipblasTpsvBatchedFn uplo transA diag N (device_ptr "dAP" 0)
              (device_ptr "dx_or_b" 0) incx batch_count) ;;
         CHECK_HIP_ERROR (transfer_from "hx_or_b_1" "dx_or_b") ;;
         for_int_fold batch_count (tpsv_check_batch arg) cumulative_hipblas_error
       else ret cumulative_hipblas_error) ;;
    (if arg_timing arg then
       CHECK_HIPBLAS_ERROR hipblasGetStream ;;
       CHECK_HIPBLAS_ERROR (hipblasSetPointerMode HIPBLAS_POINTER_MODE_HOST) ;;
       t <- timing_loop arg
              (hipblasTpsvBatchedFn uplo transA diag N (device_ptr "dAP" 0)
                 (device_ptr "dx_or_b" 0) incx batch_count)
              gpu_time_used ;;
       log_args t [Some cumulative]
     else ret tt) ;;
    ret HIPBLAS_STATUS_SUCCESS.

End Drivers.

(** ** Observations on traces *)

Definition is_alloc (e : event) : bool :=
  match e with Alloc _ _ _ => true | _ => false end.

Definition is_blas_call (e : event) : bool :=
  match e with BlasCall _ _ _ => true | _ => false end.

(** The events of the check loop of [testing_tpsv_batched]. *)
Definition is_compare (e : event) : bool :=
  match e with
  | VectorNorm _ c r => String.eqb c "hx" && String.eqb r "hx_or_b_1"
  | UnitCheckError _ _ => true
  | _ => false
  end.

(** The events of the timing loop. *)
Definition is_timing_event (e : event) : bool :=
  match e with BlasCall _ _ _ | Timestamp => true | _ => false end.

Definition is_timestamp (e : event) : bool :=
  match e with Timestamp => true | _ => false end.

Definition null_data (a : arg_value) : bool :=
  match a with a_ptr nullptr => true | a_ptr _ => false | _ => true end.

(** Every pointer handed to the routine under test is null. *)
Definition null_call (e : event) : bool :=
  match e with BlasCall _ _ args => forallb null_data args | _ => true end.

(** Which library an event calls into, if it returns a status at all. *)
Inductive call_kind := blas_kind | hip_kind | plain_kind.

Definition kind_of (e : event) : call_kind :=
  match e with
  | BlasCall _ _ _ | SetPointerMode _ | GetStream => blas_kind
  | Memcheck _ | Transfer _ _ | Memcpy _ _ _ _ => hip_kind
  | _ => plain_kind
  end.

Definition blas_answer (s : hipblasStatus_t) : option failure :=
  match s with HIPBLAS_STATUS_SUCCESS => None | _ => Some (blas_failure s) end.

Definition hip_answer (e : hipError_t) : option failure :=
  match e with hipSuccess => None | _ => Some (hip_failure e) end.

(** The answer of the libraries to the last event of a history, when that
    event is a call returning a status and the status is not success. *)
Definition failed_call (E : externals) (h : list event) : option failure :=
  match last h with
  | Some e =>
      match kind_of e with
      | blas_kind => blas_answer (blas_status E h)
      | hip_kind => hip_answer (hip_status E h)
      | plain_kind => None
      end
  | None => None
  end.

Definition is_expect (f : failure) (e : event) : bool :=
  match e, f with
  | ExpectStatus actual _, blas_failure s => status_eqb actual s
  | _, _ => false
  end.

(** What leaves the test function: the status it returns, or the failure
    a checking macro carried out of it. *)
Definition leaves_with (r : result hipblasStatus_t) : failure :=
  match r with Ok s => blas_failure s | Fail f => f end.

(** Every library call answers with success. *)
Definition calls_succeed (E : externals) : Prop :=
  (forall h, blas_status E h = HIPBLAS_STATUS_SUCCESS) /\
  (forall h, hip_status E h = hipSuccess).

(** The steps of the pattern a test follows.  A call of the routine under
    test carries the pointer mode the test has set on the handle, [None]
    while it has set none; everything from [hipblasGetStream] on belongs
    to the timing step. *)
Inductive phase :=
| BuildInputs
| DeviceCall (mode : option hipblasPointerMode_t)
| ReferenceCall
| Compare
| Timing.

Definition mode_eqb (a b : option hipblasPointerMode_t) : bool :=
  match a, b with
  | None, None => true
  | Some HIPBLAS_POINTER_MODE_HOST, Some HIPBLAS_POINTER_MODE_HOST => true
  | Some HIPBLAS_POINTER_MODE_DEVICE, Some HIPBLAS_POINTER_MODE_DEVICE => true
  | _, _ => false
  end.

Definition phase_eqb (a b : phase) : bool :=
  match a, b with
  | BuildInputs, BuildInputs | ReferenceCall, ReferenceCall
  | Compare, Compare | Timing, Timing => true
  | DeviceCall m, DeviceCall n => mode_eqb m n
  | _, _ => false
  end.

Record scan_state := {
  cur_mode : option hipblasPointerMode_t;
  in_timing : bool
}.

Definition scan_start : scan_state := {| cur_mode := None; in_timing := false |}.

Definition scan_next (st : scan_state) (e : event) : scan_state :=
  match e with
  | SetPointerMode m => {| cur_mode := Some m; in_timing := in_timing st |}
  | GetStream => {| cur_mode := cur_mode st; in_timing := true |}
  | _ => st
  end.

Definition label (st : scan_state) (e : event) : option phase :=
  if in_timing st then Some Timing
  else
    match e with
    | Alloc _ _ _ | InitVector _ | HostCopy _ _ | PackMatrix _ _ _ => Some BuildInputs
    | BlasCall _ _ _ => Some (DeviceCall (cur_mode st))
    | Reference _ _ _ => Some ReferenceCall
    | UnitCheck _ _ | NearCheck _ _ _ | NormCheck _ _ | VectorNorm _ _ _
    | UnitCheckError _ _ => Some Compare
    | GetStream | Timestamp | LogArgs _ _ => Some Timing
    | _ => None
    end.

Fixpoint annotate (st : scan_state) (tr : list event) : list phase :=
  match tr with
  | [] => []
  | e :: tr' =>
      match label st e with
      | Some p => p :: annotate (scan_next st e) tr'
      | None => annotate (scan_next st e) tr'
      end
  end.

(** A stretch of events that all carry the same label and leave the
    pointer mode and the timing flag alone. *)
Definition uniform (st : scan_state) (p : phase) (l : list event) : Prop :=
  Forall (fun e => label st e = Some p /\ scan_next st e = st) l.

(** Drop every repetition of the step just before it. *)
Fixpoint compress (l : list phase) : list phase :=
  match l with
  | [] => []
  | x :: l' =>
      match l' with
      | y :: _ => if phase_eqb x y then compress l' else x :: compress l'
      | [] => [x]
      end
  end.

(** The order of the steps of a run. *)
Definition step_order (tr : list event) : list phase :=
  compress (annotate scan_start tr).

Definition is_device_call (p : phase) : bool :=
  match p with DeviceCall _ => true | _ => false end.

(** The calls of the routine under test made before any timing, each with
    the pointer mode in force. *)
Definition device_calls (tr : list event) : list phase :=
  List.filter is_device_call (annotate scan_start tr).

(** The fixed pattern: inputs, host-mode call, device-mode call, CPU
    reference, comparison, and timing when asked for. *)
Definition fixed_pattern (arg : Arguments) : list phase :=
  [BuildInputs; DeviceCall (Some HIPBLAS_POINTER_MODE_HOST);
   DeviceCall (Some HIPBLAS_POINTER_MODE_DEVICE); ReferenceCall; Compare]
  ++ (if arg_timing arg then [Timing] else []).

(** A quick return: no buffer was allocated, the routine under test saw
    null pointers only, and the status that leaves the function is success
    or invalid value. *)
Definition quick_return (r : list event * result hipblasStatus_t) : Prop :=
  Forall (fun e => is_alloc e = false) (fst r) /\
  Forall (fun e => null_call e = true) (fst r) /\
  (leaves_with (snd r) = blas_failure HIPBLAS_STATUS_SUCCESS \/
   leaves_with (snd r) = blas_failure HIPBLAS_STATUS_INVALID_VALUE).

(** The timing section as the claim describes it: after
    [hipblasGetStream] the same call is made [cold_iters + iters] times;
    one time stamp is taken right before call number [cold_iters], one
    after the last call, and the time reported is their difference. *)
Definition timed_section (E : externals) (arg : Arguments) (tr : list event) : Prop :=
  exists pre setup call errors,
    let warm := repeat call (Z.to_nat (arg_cold_iters arg)) in
    let hot := repeat call (Z.to_nat (arg_iters arg)) in
    let h1 := pre ++ GetStream :: setup ++ warm ++ [Timestamp] in
    let h2 := h1 ++ hot ++ [Timestamp] in
    is_blas_call call = true /\
    Forall (fun e => is_blas_call e = false /\ is_timestamp e = false) setup /\
    Forall (fun e => e <> GetStream /\ is_timestamp e = false) pre /\
    Z.of_nat (length (warm ++ hot)) = arg_cold_iters arg + arg_iters arg /\
    tr = h2 ++ [LogArgs (Some (dsub (measured E h2) (measured E h1))) errors].

(** The status leaves the function whenever a library call fails: the
    failing call is the last thing the test does, apart from asserting on
    that very status, and what leaves the function is that status. *)
Definition propagates (E : externals) (r : list event * result hipblasStatus_t) : Prop :=
  forall p e q f,
    fst r = p ++ e :: q ->
    failed_call E (p ++ [e]) = Some f ->
    leaves_with (snd r) = f /\ Forall (fun e' => is_expect f e' = true) q.

(** *** The argument checks of the drivers *)

(** [N > 0] and [batch_count > 0]: the arguments [testing_axpy_batched]
    and [testing_copy_strided_batched] do not return early on. *)
Definition sizes_positive (arg : Arguments) : Prop :=
  0 < arg_N arg /\ 0 < arg_batch_count arg.

(** The arguments [testing_tpsv_batched] does not return early on. *)
Definition tpsv_valid (arg : Arguments) : Prop :=
  0 < arg_N arg /\ arg_incx arg <> 0 /\ 0 < arg_batch_count arg.

(** Rows of [A] and [B] as [testing_geam_batched] computes them. *)
Definition geam_A_row (E : externals) (arg : Arguments) : Z :=
  if operation_eqb (char2hipblas_operation E (arg_transA arg)) HIPBLAS_OP_N
  then arg_M arg else arg_N arg.

Definition geam_B_row (E : externals) (arg : Arguments) : Z :=
  if operation_eqb (char2hipblas_operation E (arg_transB arg)) HIPBLAS_OP_N
  then arg_M arg else arg_N arg.

(** The arguments [testing_geam_batched] rejects. *)
Definition geam_invalid (E : externals) (arg : Arguments) : Prop :=
  arg_M arg <= 0 \/ arg_N arg <= 0 \/ arg_lda arg < geam_A_row E arg \/
  arg_ldb arg < geam_B_row E arg \/ arg_ldc arg < arg_M arg \/ arg_batch_count arg < 0.

(** The arguments [testing_geam_batched] accepts. *)
Definition geam_valid (E : externals) (arg : Arguments) : Prop :=
  0 < arg_M arg /\ 0 < arg_N arg /\ geam_A_row E arg <= arg_lda arg /\
  geam_B_row E arg <= arg_ldb arg /\ arg_M arg <= arg_ldc arg /\ 0 <= arg_batch_count arg.

(** The call [testing_tpsv_batched] makes on its early return. *)
Definition tpsv_null_call (E : externals) (arg : Arguments) : event :=
  BlasCall "hipblasTpsvBatched" (arg_fortran arg)
    [a_fill (char2hipblas_fill E (arg_uplo arg));
     a_op (char2hipblas_operation E (arg_transA arg));
     a_diag (char2hipblas_diagonal E (arg_diag arg));
     a_int (arg_N arg); a_ptr nullptr; a_ptr nullptr; a_int (arg_incx arg);
     a_int (arg_batch_count arg)].

(** The strides and buffer sizes [testing_copy_strided_batched] computes
    from an increment. *)
Definition copy_stride (arg : Arguments) (inc : Z) : Z :=
  scaled_stride (arg_N arg) (if 0 <=? inc then inc else int_neg inc) (arg_stride_scale arg).

Definition copy_size (arg : Arguments) (inc : Z) : Z :=
  buffer_size (copy_stride arg inc) (arg_batch_count arg).

(** What [testing_copy_strided_batched] allocates for an increment: the
    stride is the double product of [N * |inc|] and [stride_scale], cut
    off to an integer ([N * |inc|] itself for a scale of 1.0, zero for a
    scale of zero); the size is the product of stride and batch count, or
    1 when that product is zero. *)
Definition sized_from_stride (arg : Arguments) (inc : Z) : Prop :=
  let product := arg_N arg * Z.abs inc in
  let stride := copy_stride arg inc in
  let size := copy_size arg inc in
  stride = double_to_int64 (dmul (size_t_to_double product) (arg_stride_scale arg)) /\
  (product < 2 ^ 53 -> arg_stride_scale arg = d_one -> stride = product) /\
  (product < 2 ^ 53 -> (exists s, arg_stride_scale arg = S754_zero s) -> stride = 0) /\
  (0 <= stride -> stride * arg_batch_count arg < 2 ^ 63 ->
   size = if stride * arg_batch_count arg =? 0 then 1 else stride * arg_batch_count arg) /\
  1 <= size.

(** A quick return that hands on what the library answered: no buffer
    was allocated; the routine under test was called exactly once, with
    null pointers only; and the status that leaves the function is the one
    the library gave to that call. *)
Definition quick_return_with_library_status (E : externals)
    (r : list event * result hipblasStatus_t) : Prop :=
  Forall (fun e => is_alloc e = false) (fst r) /\
  Forall (fun e => null_call e = true) (fst r) /\
  exists p call q,
    fst r = p ++ call :: q /\ is_blas_call call = true /\
    List.filter is_blas_call (p ++ q) = [] /\
    leaves_with (snd r) = blas_failure (blas_status E (p ++ [call])).

(** The function returns success when it reaches its end; when it does
    not, a library call has failed; and it reaches its end when no call
    fails. *)
Definition succeeds_at_end (E : externals) (r : list event * result hipblasStatus_t) : Prop :=
  (snd r = Ok HIPBLAS_STATUS_SUCCESS \/
   exists f, snd r = Fail f /\ failed_call E (fst r) = Some f) /\
  (calls_succeed E -> snd r = Ok HIPBLAS_STATUS_SUCCESS).

(** ** Reasoning about runs *)

Definition runs_to {A} (m : io A) (h es : list event) (a : A) : Prop :=
  m h = (es, Ok a).

Definition outcome {A} (r : result A) : option failure :=
  match r with Ok _ => None | Fail f => Some f end.

Definition value_or {A} (d : A) (r : result A) : A :=
  match r with Ok a => a | Fail _ => d end.

(** [P h es o]: from history [h] the events [es] were appended and the
    computation ended normally ([o = None]) or was cut short. *)
Definition run_property : Type := list event -> list event -> option failure -> Prop.

Definition respects {A} (P : run_property) (m : io A) : Prop :=
  forall h, P h (fst (m h)) (outcome (snd (m h))).

(** A property that holds of the empty run and of two runs in sequence. *)
Record composes (P : run_property) : Prop := {
  composes_nil : forall h, P h [] None;
  composes_app : forall h es1 es2 o, P h es1 None -> P (h ++ es1) es2 o -> P h (es1 ++ es2) o
}.

(** The run stops at the first failing call and carries its failure out;
    it is cut short for no other reason. *)
Definition fail_stop (E : externals) : run_property :=
  fun h es o =>
    (forall p e q f, es = p ++ e :: q -> failed_call E (h ++ p ++ [e]) = Some f ->
                     q = [] /\ o = Some f) /\
    (forall f, o = Some f -> es <> [] /\ failed_call E (h ++ es) = Some f).

Definition all_events (phi : event -> Prop) : run_property :=
  fun _ es _ => Forall phi es.

(** The events of a run begin with [pre], and all that follow satisfy
    [phi]. *)
Definition starts_with {A} (pre : list event) (phi : event -> Prop) (m : io A)
    (h : list event) : Prop :=
  exists rest, fst (m h) = pre ++ rest /\ Forall phi rest.

(** The function returns [s] when it is not cut short. *)
Definition returns_only {A} (s : A) (m : io A) : Prop :=
  forall h, snd (m h) = Ok s \/ exists f, snd (m h) = Fail f.

(** ** The triangular factor of [testing_tpsv_batched]

    What lines 96-151 compute on the host buffers of one batch entry.  The
    element type [T] is the template parameter of the test; its arithmetic
    and the reference routines of the CPU BLAS are parameters.  Matrices
    are column-major arrays: entry (i, j) of an [N] by [N] matrix is at
    index [i + j * N], computed in [int]. *)

Definition Zseq (n : Z) : list Z := map Z.of_nat (seq 0 (Z.to_nat n)).

(** [for(int i = 0; i < n; i++) s = body(i, s);] without calls. *)
Definition for_pure {S} (n : Z) (body : Z -> S -> S) (s : S) : S :=
  fold_left (fun s i => body i s) (Zseq n) s.

Definition idx (i j N : Z) : Z := to_int (i + to_int (j * N)).

Section TriangularFactor.

Context {T : Type}.
Variable zero one : T.                (* (T)0.0, (T)1.0 *)
Variable add : T -> T -> T.           (* t += x *)
Variable abs : T -> T.                (* std::abs, converted back to T *)
Variable div : T -> T -> T.           (* x / diag *)

Variable ref_gemm :
  hipblasOperation_t -> hipblasOperation_t -> Z -> Z -> Z -> T -> list T -> Z ->
  list T -> Z -> T -> list T -> Z -> list T.
Variable ref_potrf : ascii -> Z -> list T -> Z -> list T.
Variable ref_trmv :
  hipblasFillMode_t -> hipblasOperation_t -> hipblasDiagType_t -> Z -> list T -> Z ->
  list T -> Z -> list T.
Variable ref_regular_to_packed : bool -> list T -> list T -> Z -> list T.

(** [a[k]]; nothing is read outside an array in the cases studied, where
    the default is returned. *)
Definition get (a : list T) (k : Z) : T := nth (Z.to_nat k) a zero.

(** [a[k] = v] *)
Definition set (a : list T) (k : Z) (v : T) : list T := <[Z.to_nat k := v]> a.

(** The sum of the absolute values of row [i] of [AAT], added up from
    [(T)0.0] in the order of the loop of lines 117-121. *)
Definition row_abs_sum (N : Z) (AAT : list T) (i : Z) : T :=
  for_pure N (fun j t => add t (abs (get AAT (idx i j N)))) zero.

(** Lines 114-123: copy [AAT] into [hA], the diagonal entry of each row
    replaced by the sum of the absolute values of the row. *)
Definition make_dominant_row (N : Z) (AAT : list T) (i : Z) (hA : list T) : list T :=
  let '(hA, t) :=
    for_pure N
      (fun j '(hA, t) =>
         (set hA (idx i j N) (get AAT (idx i j N)),
          add t (abs (get AAT (idx i j N)))))
      (hA, zero) in
  set hA (idx i i N) t.

Definition make_dominant (N : Z) (AAT hA : list T) : list T :=
  for_pure N (make_dominant_row N AAT) hA.

(** Lines 132-137: each stored row of the lower factor divided by its
    diagonal entry. *)
Definition unit_diag_lower (N : Z) (hA : list T) : list T :=
  for_pure N
    (fun i hA =>
       let diag := get hA (idx i i N) in
       for_pure (int_add i 1)
         (fun j hA => set hA (idx i j N) (div (get hA (idx i j N)) diag)) hA)
    hA.

(** Lines 139-144: each stored column of the upper factor divided by its
    diagonal entry. *)
Definition unit_diag_upper (N : Z) (hA : list T) : list T :=
  for_pure N
    (fun j hA =>
       let diag := get hA (idx j j N) in
       for_pure (int_add j 1)
         (fun i hA => set hA (idx i j N) (div (get hA (idx i j N)) diag)) hA)
    hA.

Definition is_char (c : ascii) (upper lower : ascii) : bool :=
  Ascii.eqb c upper || Ascii.eqb c lower.

(** Lines 129-145. *)
Definition make_unit_diag (arg : Arguments) (N : Z) (hA : list T) : list T :=
  if is_char (arg_diag arg) "U" "u" then
    if Ascii.eqb "L" (arg_uplo arg) || Ascii.eqb "l" (arg_uplo arg)
    then unit_diag_lower N hA
    else unit_diag_upper N hA
  else hA.

(** The host buffers of one batch entry. *)
Record tpsv_buffers := {
  buf_hA : list T;
  buf_AAT : list T;
  buf_hb : list T;
  buf_hAP : list T
}.

(** One turn of the loop of lines 96-151. *)
Definition tpsv_prepare (E : externals) (arg : Arguments) (s : tpsv_buffers) : tpsv_buffers :=
  let uplo := char2hipblas_fill E (arg_uplo arg) in
  let diag := char2hipblas_diagonal E (arg_diag arg) in
  let transA := char2hipblas_operation E (arg_transA arg) in
  let N := arg_N arg in
  let incx := arg_incx arg in
  let AAT := ref_gemm HIPBLAS_OP_N HIPBLAS_OP_T N N N one (buf_hA s) N (buf_hA s) N zero
               (buf_AAT s) N in
  let hA := make_dominant N AAT (buf_hA s) in
  let hA := ref_potrf (arg_uplo arg) N hA N in
  let hA := make_unit_diag arg N hA in
  let hb := ref_trmv uplo transA diag N hA N (buf_hb s) incx in
  let hAP := ref_regular_to_packed (fill_eqb uplo HIPBLAS_FILL_MODE_UPPER) hA (buf_hAP s) N in
  {| buf_hA := hA; buf_AAT := AAT; buf_hb := hb; buf_hAP := hAP |}.

(** The loop over the batch: entry [b] of every batched buffer is worked
    on in turn [b]. *)
Definition tpsv_prepare_all (E : externals) (arg : Arguments) (bufs : list tpsv_buffers)
    : list tpsv_buffers :=
  for_pure (arg_batch_count arg)
    (fun b bufs =>
       match bufs !! Z.to_nat b with
       | Some s => <[Z.to_nat b := tpsv_prepare E arg s]> bufs
       | None => bufs
       end)
    bufs.

End TriangularFactor.


(** *** Exact arithmetic

    What the comment of line 112 says about the matrix, read in exact
    integer arithmetic: entry (i, j) of [A] is [get 0 A (idx i j N)]. *)






(** ** Concrete worlds and argument records used in the examples *)

Definition all_ok : externals :=
  {| blas_status := fun _ => HIPBLAS_STATUS_SUCCESS;
     hip_status := fun _ => hipSuccess;
     measured := fun h => size_t_to_double (Z.of_nat (length h));
     sizeof_T := 4;
     char2hipblas_operation := fun c => if Ascii.eqb c "N" then HIPBLAS_OP_N else HIPBLAS_OP_T;
     char2hipblas_fill :=
       fun c => if Ascii.eqb c "U" then HIPBLAS_FILL_MODE_UPPER else HIPBLAS_FILL_MODE_LOWER;
     char2hipblas_diagonal :=
       fun c => if Ascii.eqb c "U" then HIPBLAS_DIAG_UNIT else HIPBLAS_DIAG_NON_UNIT |}.

(** A library that rejects every call of the routine under test with
    invalid value. *)
Definition rejecting : externals :=
  {| blas_status := fun _ => HIPBLAS_STATUS_INVALID_VALUE;
     hip_status := fun _ => hipSuccess;
     measured := fun h => size_t_to_double (Z.of_nat (length h));
     sizeof_T := 4;
     char2hipblas_operation := char2hipblas_operation all_ok;
     char2hipblas_fill := char2hipblas_fill all_ok;
     char2hipblas_diagonal := char2hipblas_diagonal all_ok |}.

(** A library whose handle is not ready: every call of a library routine
    answers with a status that is neither success nor invalid value. *)
Definition unready : externals :=
  {| blas_status := fun _ => HIPBLAS_STATUS_OTHER 1;
     hip_status := fun _ => hipSuccess;
     measured := fun h => size_t_to_double (Z.of_nat (length h));
     sizeof_T := 4;
     char2hipblas_operation := char2hipblas_operation all_ok;
     char2hipblas_fill := char2hipblas_fill all_ok;
     char2hipblas_diagonal := char2hipblas_diagonal all_ok |}.

Definition arg0 : Arguments :=
  {| arg_fortran := false; arg_M := 2; arg_N := 2; arg_lda := 2; arg_ldb := 2; arg_ldc := 2;
     arg_incx := 1; arg_incy := 1; arg_stride_scale := size_t_to_double 1;
     arg_batch_count := 2; arg_transA := "N"; arg_transB := "N"; arg_uplo := "L";
     arg_diag := "N"; arg_unit_check := true; arg_norm_check := true; arg_timing := true;
     arg_iters := 2; arg_cold_iters := 1 |}.

Definition with_N (n : Z) (a : Arguments) : Arguments :=
  {| arg_fortran := arg_fortran a; arg_M := arg_M a; arg_N := n; arg_lda := arg_lda a;
     arg_ldb := arg_ldb a; arg_ldc := arg_ldc a; arg_incx := arg_incx a;
     arg_incy := arg_incy a; arg_stride_scale := arg_stride_scale a;
     arg_batch_count := arg_batch_count a; arg_transA := arg_transA a;
     arg_transB := arg_transB a; arg_uplo := arg_uplo a; arg_diag := arg_diag a;
     arg_unit_check := arg_unit_check a; arg_norm_check := arg_norm_check a;
     arg_timing := arg_timing a; arg_iters := arg_iters a;
     arg_cold_iters := arg_cold_iters a |}.

Definition with_iters (n : Z) (a : Arguments) : Arguments :=
  {| arg_fortran := arg_fortran a; arg_M := arg_M a; arg_N := arg_N a; arg_lda := arg_lda a;
     arg_ldb := arg_ldb a; arg_ldc := arg_ldc a; arg_incx := arg_incx a;
     arg_incy := arg_incy a; arg_stride_scale := arg_stride_scale a;
     arg_batch_count := arg_batch_count a; arg_transA := arg_transA a;
     arg_transB := arg_transB a; arg_uplo := arg_uplo a; arg_diag := arg_diag a;
     arg_unit_check := arg_unit_check a; arg_norm_check := arg_norm_check a;
     arg_timing := arg_timing a; arg_iters := n;
     arg_cold_iters := arg_cold_iters a |}.

(** *** Element types and reference routines of the examples *)



Section ReferenceRoutines.

Context {T : Type}.
Variable zero : T.
Variable add sub mul div : T -> T -> T.
Variable sqrt : T -> T.





End ReferenceRoutines.





Definition with_diag (c : ascii) (a : Arguments) : Arguments :=
  {| arg_fortran := arg_fortran a; arg_M := arg_M a; arg_N := arg_N a; arg_lda := arg_lda a;
     arg_ldb := arg_ldb a; arg_ldc := arg_ldc a; arg_incx := arg_incx a;
     arg_incy := arg_incy a; arg_stride_scale := arg_stride_scale a;
     arg_batch_count := arg_batch_count a; arg_transA := arg_transA a;
     arg_transB := arg_transB a; arg_uplo := arg_uplo a; arg_diag := c;
     arg_unit_check := arg_unit_check a; arg_norm_check := arg_norm_check a;
     arg_timing := arg_timing a; arg_iters := arg_iters a;
     arg_cold_iters := arg_cold_iters a |}.

Definition with_switches (unit_check norm_check timing : bool) (a : Arguments) : Arguments :=
  {| arg_fortran := arg_fortran a; arg_M := arg_M a; arg_N := arg_N a; arg_lda := arg_lda a;
     arg_ldb := arg_ldb a; arg_ldc := arg_ldc a; arg_incx := arg_incx a;
     arg_incy := arg_incy a; arg_stride_scale := arg_stride_scale a;
     arg_batch_count := arg_batch_count a; arg_transA := arg_transA a;
     arg_transB := arg_transB a; arg_uplo := arg_uplo a; arg_diag := arg_diag a;
     arg_unit_check := unit_check; arg_norm_check := norm_check;
     arg_timing := timing; arg_iters := arg_iters a;
     arg_cold_iters := arg_cold_iters a |}.

Definition with_leading (transA : ascii) (n lda ldb ldc : Z) (a : Arguments) : Arguments :=
  {| arg_fortran := arg_fortran a; arg_M := arg_M a; arg_N := n; arg_lda := lda;
     arg_ldb := ldb; arg_ldc := ldc; arg_incx := arg_incx a;
     arg_incy := arg_incy a; arg_stride_scale := arg_stride_scale a;
     arg_batch_count := arg_batch_count a; arg_transA := transA;
     arg_transB := arg_transB a; arg_uplo := arg_uplo a; arg_diag := arg_diag a;
     arg_unit_check := arg_unit_check a; arg_norm_check := arg_norm_check a;
     arg_timing := arg_timing a; arg_iters := arg_iters a;
     arg_cold_iters := arg_cold_iters a |}.

Definition with_stride_scale (scale : double) (a : Arguments) : Arguments :=
  {| arg_fortran := arg_fortran a; arg_M := arg_M a; arg_N := arg_N a; arg_lda := arg_lda a;
     arg_ldb := arg_ldb a; arg_ldc := arg_ldc a; arg_incx := arg_incx a;
     arg_incy := arg_incy a; arg_stride_scale := scale;
     arg_batch_count := arg_batch_count a; arg_transA := arg_transA a;
     arg_transB := arg_transB a; arg_uplo := arg_uplo a; arg_diag := arg_diag a;
     arg_unit_check := arg_unit_check a; arg_norm_check := arg_norm_check a;
     arg_timing := arg_timing a; arg_iters := arg_iters a;
     arg_cold_iters := arg_cold_iters a |}.

(** Norm checking alone. *)
Definition norm_only : Arguments := with_switches false true false arg0.

(** ** Further observations on traces *)


(** Events of the comparison step. *)
Definition is_check (e : event) : bool :=
  match e with
  | UnitCheck _ _ | NearCheck _ _ _ | NormCheck _ _ | VectorNorm _ _ _
  | UnitCheckError _ _ => true
  | _ => false
  end.

Definition is_reference (e : event) : bool :=
  match e with Reference _ _ _ => true | _ => false end.

(** Events of the timing step. *)
Definition is_timing_step (e : event) : bool :=
  match e with GetStream | Timestamp | LogArgs _ _ => true | _ => false end.

Definition is_norm_check (e : event) : bool :=
  match e with NormCheck _ _ => true | _ => false end.

Definition is_vector_norm (e : event) : bool :=
  match e with VectorNorm _ _ _ => true | _ => false end.

Definition is_unit_check_error (e : event) : bool :=
  match e with UnitCheckError _ _ => true | _ => false end.

Definition is_set_mode (e : event) : bool :=
  match e with SetPointerMode _ => true | _ => false end.

(** An event that is no comparison and, when no timing is asked for, no
    call on data. *)
Definition quiet (arg : Arguments) (e : event) : Prop :=
  is_check e = false /\ (arg_timing arg = false -> null_call e = true).

(** The calls of the routine under test a run makes, the calls of CPU
    reference routines, and the comparisons, each in the order of the run. *)
Definition routine_calls (tr : list event) : list event := List.filter is_blas_call tr.

Definition reference_calls (tr : list event) : list event := List.filter is_reference tr.

Definition checks (tr : list event) : list event := List.filter is_check tr.

(** The calls of the routines under test on the device buffers. *)
Definition axpy_call (arg : Arguments) (alpha y : ptr) : event :=
  BlasCall "hipblasAxpyBatched" (arg_fortran arg)
    [a_int (arg_N arg); a_ptr alpha; a_ptr (device_ptr "dx" 0); a_int (arg_incx arg);
     a_ptr y; a_int (arg_incy arg); a_int (arg_batch_count arg)].

Definition copy_call (arg : Arguments) : event :=
  BlasCall "hipblasCopyStridedBatched" (arg_fortran arg)
    [a_int (arg_N arg); a_ptr (device_ptr "dx" 0); a_int (arg_incx arg);
     a_int (copy_stride arg (arg_incx arg)); a_ptr (device_ptr "dy" 0);
     a_int (arg_incy arg); a_int (copy_stride arg (arg_incy arg));
     a_int (arg_batch_count arg)].

Definition rotmg_call (arg : Arguments) (params : Z -> ptr) : event :=
  BlasCall "hipblasRotmg" (arg_fortran arg)
    [a_ptr (params 0); a_ptr (params 1); a_ptr (params 2); a_ptr (params 3);
     a_ptr (params 4)].

Definition geam_call (E : externals) (arg : Arguments) (alpha beta : ptr) : event :=
  BlasCall "hipblasGeamBatched" (arg_fortran arg)
    [a_op (char2hipblas_operation E (arg_transA arg));
     a_op (char2hipblas_operation E (arg_transB arg));
     a_int (arg_M arg); a_int (arg_N arg); a_ptr alpha; a_ptr (device_ptr "dA" 0);
     a_int (arg_lda arg); a_ptr beta; a_ptr (device_ptr "dB" 0); a_int (arg_ldb arg);
     a_ptr (device_ptr "dC" 0); a_int (arg_ldc arg); a_int (arg_batch_count arg)].

Definition tpsv_call (E : externals) (arg : Arguments) : event :=
  BlasCall "hipblasTpsvBatched" (arg_fortran arg)
    [a_fill (char2hipblas_fill E (arg_uplo arg));
     a_op (char2hipblas_operation E (arg_transA arg));
     a_diag (char2hipblas_diagonal E (arg_diag arg));
     a_int (arg_N arg); a_ptr (device_ptr "dAP" 0); a_ptr (device_ptr "dx_or_b" 0);
     a_int (arg_incx arg); a_int (arg_batch_count arg)].

(** How often the timing loop runs: [cold_iters + iters], added in [int]. *)
Definition timed_runs (arg : Arguments) : nat :=
  Z.to_nat (int_add (arg_cold_iters arg) (arg_iters arg)).

(** *** Buffer sizes *)



Definition named (name : string) (names : list string) : bool :=
  existsb (String.eqb name) names.


(** The matrix buffers of [testing_tpsv_batched] have [N * N] elements for
    each batch entry; the packed ones have [N * (N + 1) / 2], the number of
    entries of a triangle; the vectors are made from [N] and [incx]. *)
Definition tpsv_alloc_fits (arg : Arguments) (e : event) : Prop :=
  match e with
  | Alloc _ name dims =>
      if named name ["hA"; "AAT"] then
        dims = [arg_N arg * arg_N arg; 1; arg_batch_count arg]
      else if named name ["hAP"; "dAP"] then
        exists size_AP,
          dims = [size_AP; 1; arg_batch_count arg] /\
          2 * size_AP = arg_N arg * (arg_N arg + 1) /\
          size_AP <= arg_N arg * arg_N arg
      else dims = [arg_N arg; arg_incx arg; arg_batch_count arg]
  | _ => True
  end.

(** The number of elements of the buffers of
    [testing_copy_strided_batched]: [sizeX] for those that hold [x],
    [sizeY] for those that hold [y]. *)
Definition copy_elements (arg : Arguments) (name : string) : Z :=
  if named name ["hx"; "hx_cpu"; "dx"] then copy_size arg (arg_incx arg)
  else copy_size arg (arg_incy arg).

(** Every buffer is made with [elements] elements, and a [hipMemcpy]
    moves [sizeof(T)] times as many bytes as both its buffers have
    elements, the product taken in [size_t]. *)
Definition moves_whole_buffers (E : externals) (elements : string -> Z) (e : event) : Prop :=
  match e with
  | Alloc _ name dims => dims = [elements name]
  | Memcpy dst src bytes _ =>
      elements dst = elements src /\
      bytes = to_size_t (sizeof_T E * elements dst)
  | _ => True
  end.

(** *** Runs in a world where no call fails *)

(** The world that differs from [E] only in that every library call
    answers with success. *)
Definition calm (E : externals) : externals :=
  {| blas_status := fun _ => HIPBLAS_STATUS_SUCCESS;
     hip_status := fun _ => hipSuccess;
     measured := measured E;
     sizeof_T := sizeof_T E;
     char2hipblas_operation := char2hipblas_operation E;
     char2hipblas_fill := char2hipblas_fill E;
     char2hipblas_diagonal := char2hipblas_diagonal E |}.

(** [m'] does what [m] does, and goes on where [m] is cut short. *)
Definition cut_short_of {A} (m m' : io A) : Prop :=
  forall h,
    match snd (m h) with
    | Ok _ => m' h = m h
    | Fail _ => exists rest, fst (m' h) = fst (m h) ++ rest
    end.

(** The run [r] is the run [r'], or the run [r'] cut short. *)
Definition only_cut_short {A} (r r' : list event * result A) : Prop :=
  (exists rest, fst r' = fst r ++ rest) /\
  (forall a, snd r = Ok a -> r' = r).

(** *** The pointer mode *)

Definition is_host_pointer (a : arg_value) : bool :=
  match a with a_ptr (host_ptr _ _) => true | _ => false end.

(** The device buffers that hold what the pointer mode is about: the
    scalars [alpha] and [beta], and the parameters of [rotmg]. *)
Definition is_device_scalar (a : arg_value) : bool :=
  match a with
  | a_ptr (device_ptr name _) => named name ["d_alpha"; "d_beta"; "dparams"]
  | _ => false
  end.

Definition call_args (e : event) : list arg_value :=
  match e with BlasCall _ _ args => args | _ => [] end.

(** The pointer mode in force after the events [h]. *)
Definition mode_after (h : list event) : option hipblasPointerMode_t :=
  cur_mode (fold_left scan_next h scan_start).

(** A call made with pointer mode [mode] in force passes a host pointer
    only in host mode and a device scalar only in device mode. *)
Definition mode_fits (mode : option hipblasPointerMode_t) (e : event) : Prop :=
  (existsb is_host_pointer (call_args e) = true ->
   mode = Some HIPBLAS_POINTER_MODE_HOST) /\
  (existsb is_device_scalar (call_args e) = true ->
   mode = Some HIPBLAS_POINTER_MODE_DEVICE).

Definition pointer_mode_respected (tr : list event) : Prop :=
  forall p e q, tr = p ++ e :: q -> mode_fits (mode_after p) e.

(** The events of [m] fit the pointer mode in force, when that mode is
    [mode] as [m] starts. *)
Definition moded {A} (mode : option hipblasPointerMode_t) (m : io A) : Prop :=
  forall h, mode_after h = mode ->
    forall p e q, fst (m h) = p ++ e :: q -> mode_fits (mode_after (h ++ p)) e.

(** An event that leaves the pointer mode alone and fits it. *)
Definition keeps_mode (mode : option hipblasPointerMode_t) (e : event) : Prop :=
  is_set_mode e = false /\ mode_fits mode e.

(** *** Measured errors *)

(** Every [unit_check_error] of a run is given the absolute value of the
    norm that [vector_norm_1] returned just before it, and [N]. *)
Definition checks_last_norm (E : externals) (arg : Arguments) (h es : list event) : Prop :=
  forall p err n q,
    es = p ++ UnitCheckError err n :: q ->
    exists p' b,
      h ++ p = p' ++ [VectorNorm b "hx" "hx_or_b_1"] /\
      err = dabs (measured E (h ++ p)) /\ n = arg_N arg.

(** The norms [vector_norm_1] returned in a run that went on from history
    [h], in the order of the calls. *)
Fixpoint norms_measured (E : externals) (h tr : list event) : list double :=
  match tr with
  | [] => []
  | e :: tr' =>
      match e with VectorNorm _ _ _ => [measured E (h ++ [e])] | _ => [] end
      ++ norms_measured E (h ++ [e]) tr'
  end.

(** The sum of the absolute values of these norms, added up from zero in
    the order of the calls. *)
Definition cumulative_error (E : externals) (tr : list event) : double :=
  fold_left (fun acc nrm => dadd acc (dabs nrm)) (norms_measured E [] tr) dzero.

(** What [norm_check_general] returned in a run that went on from history
    [h], in the order of the calls. *)
Fixpoint norm_results (E : externals) (h tr : list event) : list (option double) :=
  match tr with
  | [] => []
  | e :: tr' =>
      match e with NormCheck _ _ => [Some (measured E (h ++ [e]))] | _ => [] end
      ++ norm_results E (h ++ [e]) tr'
  end.

(** The last thing a run did was to log the errors [errors]. *)
Definition logs_last (tr : list event) (errors : list (option double)) : Prop :=
  exists pre t, tr = pre ++ [LogArgs t errors].

(** *** What a run without failures is expected to do *)

(** Some check is asked for. *)
Definition checked (arg : Arguments) : bool := arg_unit_check arg || arg_norm_check arg.

(** The calls of the routine under test: those of the check step, when a
    check is asked for, then [cold_iters + iters] times the timed call,
    when timing is. *)
Definition calls_expected (arg : Arguments) (check_calls : list event) (timed_call : event)
    : list event :=
  (if checked arg then check_calls else [])
  ++ (if arg_timing arg then repeat timed_call (timed_runs arg) else []).

(** One call of the reference routine for each batch entry, in increasing
    order, when a check is asked for. *)
Definition references_expected (arg : Arguments) (routine : string) (bufs : list string)
    : list event :=
  if checked arg
  then flat_map (fun b => [Reference routine b bufs]) (Zseq (arg_batch_count arg))
  else [].

(** The unit checks, when asked for, then the norm checks, when asked
    for. *)
Definition checks_expected (arg : Arguments) (unit_checks norm_checks : list event)
    : list event :=
  (if arg_unit_check arg then unit_checks else [])
  ++ (if arg_norm_check arg then norm_checks else []).

(** *** What the buffers hold

    What a buffer holds, as far as the calls of a run tell: data the test
    prepared, the output of the routine under test (with the pointer mode
    in force at the call), or the output of a CPU reference routine.  A
    copy hands on what the source holds. *)

Inductive content :=
| prepared
| routine_output (routine : string) (mode : option hipblasPointerMode_t)
| reference_output (routine : string).

Fixpoint content_of (name : string) (l : list (string * content)) : option content :=
  match l with
  | [] => None
  | (n, c) :: l' => if String.eqb n name then Some c else content_of name l'
  end.

Fixpoint without (name : string) (l : list (string * content)) : list (string * content) :=
  match l with
  | [] => []
  | (n, c) :: l' => if String.eqb n name then without name l' else (n, c) :: without name l'
  end.

(** The pointer mode in force and what each buffer holds. *)
Record flow := {
  mode_in_force : option hipblasPointerMode_t;
  contents : list (string * content)
}.

Definition flow_start : flow := {| mode_in_force := None; contents := [] |}.

Definition holds (s : flow) (name : string) : option content := content_of name (contents s).

Definition write (name : string) (c : option content) (s : flow) : flow :=
  {| mode_in_force := mode_in_force s;
     contents := match c with
                 | Some c => (name, c) :: without name (contents s)
                 | None => without name (contents s)
                 end |}.

Definition pointer_name (a : arg_value) : option string :=
  match a with
  | a_ptr (host_ptr name _) | a_ptr (device_ptr name _) => Some name
  | _ => None
  end.

(** Modelled from the spec: the routines under test and the CPU reference
    routines are declared outside the given sources, in the external
    interfaces the spec lists.  As BLAS routines they write the last array
    operand they are handed: y for axpy and copy, C for geam and gemm, x
    for tpsv and trmv, A for potrf, the block of parameters for rotmg. *)
Fixpoint written_operand (args : list arg_value) : option string :=
  match args with
  | [] => None
  | a :: args' =>
      match written_operand args' with
      | Some name => Some name
      | None => pointer_name a
      end
  end.

Definition written_buffer (bufs : list string) : option string := last bufs.

Definition flow_next (s : flow) (e : event) : flow :=
  match e with
  | SetPointerMode m => {| mode_in_force := Some m; contents := contents s |}
  | InitVector name => write name (Some prepared) s
  | HostCopy dst src | Transfer dst src | Memcpy dst src _ _ => write dst (holds s src) s
  | PackMatrix _ A AP => write AP (holds s A) s
  | BlasCall routine _ args =>
      match written_operand args with
      | Some out => write out (Some (routine_output routine (mode_in_force s))) s
      | None => s
      end
  | Reference routine _ bufs =>
      match written_buffer bufs with
      | Some out => write out (Some (reference_output routine)) s
      | None => s
      end
  | _ => s
  end.

(** A comparison, with what its two operands hold when it is made. *)
Record comparison := {
  check : event;
  reference_holds : option content;
  result_holds : option content
}.

Definition compared (s : flow) (e : event) : list comparison :=
  match e with
  | UnitCheck c r | NearCheck c r _ | NormCheck c r | VectorNorm _ c r =>
      [{| check := e; reference_holds := holds s c; result_holds := holds s r |}]
  | _ => []
  end.

(** The comparisons of a run, in its order. *)
Fixpoint comparisons_made (s : flow) (tr : list event) : list comparison :=
  match tr with
  | [] => []
  | e :: tr' => compared s e ++ comparisons_made (flow_next s e) tr'
  end.

Definition is_comparison (e : event) : bool :=
  match e with
  | UnitCheck _ _ | NearCheck _ _ _ | NormCheck _ _ | VectorNorm _ _ _ => true
  | _ => false
  end.

(** The checks [check c r] of the results [r] against the reference [c],
    which holds [cc]. *)
Definition checked_against (check : string -> string -> event) (c : string) (cc : content)
    (results : list (string * content)) : list comparison :=
  map (fun r => {| check := check c (fst r); reference_holds := Some cc;
                   result_holds := Some (snd r) |}) results.

(** What is done when unit checking is on, then what is done when norm
    checking is on. *)
Definition when_asked {A} (arg : Arguments) (unit_checks norm_checks : list A) : list A :=
  (if arg_unit_check arg then unit_checks else [])
  ++ (if arg_norm_check arg then norm_checks else []).

(** The comparison reads, as the result, the output of the routine under
    test. *)
Definition reads_routine_output (c : comparison) : bool :=
  match result_holds c with Some (routine_output _ _) => true | _ => false end.

(** Calls that accept or reject what they are given: the unit check, the
    near check with its tolerance, the check of an error against a
    tolerance.  A norm check only measures and returns the error. *)
Definition asserts (e : event) : bool :=
  match e with
  | UnitCheck _ _ | NearCheck _ _ _ | UnitCheckError _ _ => true
  | _ => false
  end.

Definition near_check (rel_error : Z) (c r : string) : event := NearCheck c r rel_error.

(** The numbers the calls of [unit_check_error] of a run make their
    tolerance from, in the order of the calls: a call with [n] accepts an
    error up to [epsilon * 40 * n]. *)
Fixpoint tolerances (tr : list event) : list Z :=
  match tr with
  | [] => []
  | UnitCheckError _ n :: tr' => n :: tolerances tr'
  | _ :: tr' => tolerances tr'
  end.

(** The comparison reads, as the reference, the output of a CPU reference
    routine. *)
Definition reads_reference_output (c : comparison) : bool :=
  match reference_holds c with Some (reference_output _) => true | _ => false end.

(** The comparison reads, as the reference, data the test prepared. *)
Definition reads_prepared_data (c : comparison) : bool :=
  match reference_holds c with Some prepared => true | _ => false end.

(** The output of a call made with pointer mode [mode] set is compared
    with the output of a CPU reference routine by a check that accepts or
    rejects it. *)
Definition checked_in_mode (tr : list event) (mode : hipblasPointerMode_t) : Prop :=
  exists c routine,
    In c (comparisons_made flow_start tr) /\
    asserts (check c) = true /\
    reads_reference_output c = true /\
    result_holds c = Some (routine_output routine (Some mode)).

(** The claim: the routine ran with host pointer mode set and with device
    pointer mode set, and each of the two results was checked against the
    reference output. *)
Definition both_conventions_checked (tr : list event) : Prop :=
  checked_in_mode tr HIPBLAS_POINTER_MODE_HOST /\
  checked_in_mode tr HIPBLAS_POINTER_MODE_DEVICE.

(** What a test does to check its routine: the calls it makes before any
    timing, each with the pointer mode in force, and the comparisons it
    makes; with unit checking off nothing is accepted or rejected. *)
Definition checks_results (arg : Arguments) (tr : list event) (calls : list phase)
    (made : list comparison) : Prop :=
  device_calls tr = calls /\
  comparisons_made flow_start tr = made /\
  (arg_unit_check arg = false -> List.filter asserts tr = []).

(** The comparison reads the output of the routine under test and the
    output of a CPU reference routine. *)
Definition compares_outputs (c : comparison) : Prop :=
  reads_routine_output c = true /\ reads_reference_output c = true.

(** Events that neither call the routine nor copy anything. *)
Definition is_inert (e : event) : bool :=
  match e with
  | BlasCall _ _ _ | Transfer _ _ | Memcpy _ _ _ _ => false
  | _ => true
  end.

(** *** What the routine under test runs on *)

Definition device_names (args : list arg_value) : list string :=
  flat_map (fun a => match a with a_ptr (device_ptr name _) => [name] | _ => [] end) args.

(** The buffers something has been copied to, by [transfer_from] or by a
    host-to-device [hipMemcpy]. *)
Definition filled_next (filled : list string) (e : event) : list string :=
  match e with
  | Transfer dst _ => dst :: filled
  | Memcpy dst _ _ hipMemcpyHostToDevice => dst :: filled
  | _ => filled
  end.

(** Every device buffer a call is handed has been copied to. *)
Definition runs_on_filled (filled : list string) (e : event) : bool :=
  forallb (fun name => named name filled) (device_names (call_args e)).

(** Every call of the run is handed device buffers that have been copied
    to before. *)
Fixpoint fills_before_calls (filled : list string) (tr : list event) : bool :=
  match tr with
  | [] => true
  | e :: tr' => runs_on_filled filled e && fills_before_calls (filled_next filled e) tr'
  end.

(** * Properties *)

(** ** Machine integers *)

Lemma to_int_id z : int_range z -> to_int z = z.
Proof.
  unfold int_range, INT_MIN, INT_MAX, to_int, wrap_signed. intros H.
  change (2 ^ (32 - 1)) with 2147483648. change (2 ^ 32) with 4294967296.
  change (2 ^ 31) with 2147483648 in H.
  rewrite Z.mod_small; lia.
Qed.

Lemma to_size_t_range z : 0 <= to_size_t z < 2 ^ 64.
Proof. unfold to_size_t, wrap_unsigned. apply Z.mod_pos_bound. lia. Qed.

Lemma to_size_t_id z : 0 <= z < 2 ^ 64 -> to_size_t z = z.
Proof. intros H. unfold to_size_t, wrap_unsigned. apply Z.mod_small. exact H. Qed.

Lemma size_t_mul_int a b :
  0 <= a <= INT_MAX -> 0 <= b <= INT_MAX -> size_t_mul (to_size_t a) (to_size_t b) = a * b.
Proof.
  unfold INT_MAX. intros Ha Hb. unfold size_t_mul.
  rewrite (to_size_t_id a), (to_size_t_id b) by lia.
  apply to_size_t_id. nia.
Qed.

(** ** Doubles *)

Lemma div_eucl_shift m :
  Z.div_eucl (Z.shiftl (Z.pos m) 53) (Z.pos m) = (2 ^ 53, 0).
Proof.
  rewrite Z.shiftl_mul_pow2 by lia.
  pose proof (Z.div_eucl_eq (Z.pos m * 2 ^ 53) (Z.pos m) ltac:(lia)) as H.
  pose proof (Z.mod_pos_bound (Z.pos m * 2 ^ 53) (Z.pos m) ltac:(lia)) as Hb.
  unfold Z.modulo in Hb.
  destruct (Z.div_eucl (Z.pos m * 2 ^ 53) (Z.pos m)) as [q r].
  assert (q = 2 ^ 53) by nia. subst q. f_equal. lia.
Qed.

(** [x / x] is 1.0 for every finite [x] other than zero. *)
Lemma ddiv_same s m e : ddiv (S754_finite s m e) (S754_finite s m e) = d_one.
Proof.
  unfold ddiv, SFdiv, SFdiv_core_binary.
  rewrite !Z.sub_diag.
  change (IntDef.Z.min (fexp 53 1024 0) 0) with (-53).
  change (0 - -53) with 53. cbv iota.
  change (IntDef.Z.div_eucl (IntDef.Z.shiftl (Z.pos m) 53) (Z.pos m))
    with (Z.div_eucl (Z.shiftl (Z.pos m) 53) (Z.pos m)).
  rewrite div_eucl_shift.
  replace (new_location (Z.pos m) 0) with loc_Exact.
  2:{ unfold new_location. destruct (Z.even (Z.pos m)); reflexivity. }
  destruct s; reflexivity.
Qed.

Lemma digits2_lower p : 2 ^ (Z.pos (digits2_pos p) - 1) <= Z.pos p.
Proof.
  induction p as [p IH|p IH|]; cbn [digits2_pos].
  - rewrite Pos2Z.inj_succ. replace (Z.succ (Z.pos (digits2_pos p)) - 1)
      with (Z.succ (Z.pos (digits2_pos p) - 1)) by lia.
    rewrite Z.pow_succ_r by lia. lia.
  - rewrite Pos2Z.inj_succ. replace (Z.succ (Z.pos (digits2_pos p)) - 1)
      with (Z.succ (Z.pos (digits2_pos p) - 1)) by lia.
    rewrite Z.pow_succ_r by lia. lia.
  - cbn. lia.
Qed.

Lemma digits2_bound p : Z.pos p < 2 ^ 53 -> Z.pos (digits2_pos p) <= 53.
Proof.
  intros H. pose proof (digits2_lower p) as Hl.
  destruct (Z.le_gt_cases (Z.pos (digits2_pos p)) 53) as [|Hgt]; [assumption|].
  assert (2 ^ 53 <= 2 ^ (Z.pos (digits2_pos p) - 1)) by (apply Z.pow_le_mono_r; lia).
  lia.
Qed.

Lemma digits2_iter p k : digits2_pos (Pos.iter xO p k) = (digits2_pos p + k)%positive.
Proof.
  induction k as [|k IH] using Pos.peano_ind.
  - cbn. lia.
  - rewrite Pos.iter_succ. cbn [digits2_pos]. rewrite IH. lia.
Qed.

Lemma iter_xO_value p k : Z.pos (Pos.iter xO p k) = Z.pos p * 2 ^ Z.pos k.
Proof.
  induction k as [|k IH] using Pos.peano_ind.
  - cbn. lia.
  - rewrite Pos.iter_succ, Pos2Z.inj_xO, IH, Pos2Z.inj_succ, Z.pow_succ_r by lia. lia.
Qed.

(** A mantissa of 53 digits with an exponent in range is kept as it is. *)
Lemma round_exact s m e :
  Z.pos (digits2_pos m) = 53 -> -1074 <= e <= 971 ->
  binary_round_aux 53 1024 s (Z.pos m) e loc_Exact = S754_finite s m e.
Proof.
  intros Hd He. unfold binary_round_aux, shr_fexp. cbn [Zdigits2 shr_record_of_loc].
  assert (Hf : fexp 53 1024 (Z.pos (digits2_pos m) + e) - e = 0).
  { rewrite Hd. unfold fexp, emin. lia. }
  change (IntDef.Z.sub (fexp 53 1024 (IntDef.Z.add (Z.pos (digits2_pos m)) e)) e)
    with (fexp 53 1024 (Z.pos (digits2_pos m) + e) - e).
  rewrite Hf. cbn [shr shr_m loc_of_shr_record round_nearest_even Zdigits2 shr_record_of_loc].
  change (IntDef.Z.sub (fexp 53 1024 (IntDef.Z.add (Z.pos (digits2_pos m)) e)) e)
    with (fexp 53 1024 (Z.pos (digits2_pos m) + e) - e).
  rewrite Hf. cbn [shr shr_m].
  change (IntDef.Z.leb e (IntDef.Z.sub 1024 53)) with (e <=? 971).
  replace (e <=? 971) with true by (symmetry; apply Z.leb_le; lia). reflexivity.
Qed.

(** The integers below [2^53] are doubles. *)
Lemma size_t_to_double_exact p :
  Z.pos p < 2 ^ 53 ->
  exists m e,
    size_t_to_double (Z.pos p) = S754_finite false m e /\
    Z.pos (digits2_pos m) = 53 /\ -52 <= e <= 0 /\ Z.pos m = Z.pos p * 2 ^ (- e).
Proof.
  intros Hp. pose proof (digits2_bound p Hp) as Hd.
  unfold size_t_to_double, binary_normalize, binary_round, shl_align.
  change (IntDef.Z.add (Z.pos (digits2_pos p)) 0) with (Z.pos (digits2_pos p) + 0).
  assert (Hf : fexp 53 1024 (Z.pos (digits2_pos p) + 0) = Z.pos (digits2_pos p) - 53).
  { unfold fexp, emin. lia. }
  rewrite Hf.
  change (IntDef.Z.sub (Z.pos (digits2_pos p) - 53) 0) with (Z.pos (digits2_pos p) - 53 - 0).
  destruct (Z.pos (digits2_pos p) - 53 - 0) as [|k|k] eqn:Hk; [|lia|].
  - exists p, 0. rewrite round_exact by lia.
    split; [reflexivity|]. split; [lia|]. split; [lia|]. cbn. lia.
  - exists (Pos.iter xO p k), (Z.pos (digits2_pos p) - 53).
    rewrite round_exact.
    + split; [reflexivity|]. split; [rewrite digits2_iter; lia|]. split; [lia|].
      rewrite iter_xO_value. f_equal. f_equal. lia.
    + rewrite digits2_iter. lia.
    + lia.
Qed.

Lemma shr_iter_52 m :
  SpecFloat.iter_pos shr_1 52
    {| shr_m := Z.pos (Pos.iter xO m 52); shr_r := false; shr_s := false |} =
  {| shr_m := Z.pos m; shr_r := false; shr_s := false |}.
Proof. reflexivity. Qed.

(** Multiplying by 1.0 changes nothing. *)
Lemma dmul_one s m e :
  Z.pos (digits2_pos m) = 53 -> -1022 <= e <= 971 ->
  dmul (S754_finite s m e) d_one = S754_finite s m e.
Proof.
  intros Hd He.
  change d_one with (S754_finite false 4503599627370496 (-52)). unfold dmul, SFmul.
  replace (m * 4503599627370496)%positive with (Pos.iter xO m 52)
    by (rewrite Pos.mul_comm; reflexivity).
  unfold binary_round_aux, shr_fexp.
  cbn [Zdigits2 shr_record_of_loc].
  assert (Hd' : digits2_pos m = 53%positive) by lia.
  rewrite digits2_iter, Hd'.
  assert (Hf : fexp 53 1024 (Z.pos (53 + 52) + (e + -52)) - (e + -52) = 52).
  { unfold fexp, emin. lia. }
  change (IntDef.Z.sub (fexp 53 1024 (IntDef.Z.add (Z.pos (53 + 52)) (IntDef.Z.add e (-52))))
            (IntDef.Z.add e (-52)))
    with (fexp 53 1024 (Z.pos (53 + 52) + (e + -52)) - (e + -52)).
  rewrite Hf. cbn [shr]. rewrite shr_iter_52.
  cbn [shr_m loc_of_shr_record round_nearest_even Zdigits2 shr_record_of_loc].
  rewrite Hd'.
  change (IntDef.Z.add (IntDef.Z.add e (-52)) 52) with (e + -52 + 52).
  replace (e + -52 + 52) with e by lia.
  change (IntDef.Z.sub (fexp 53 1024 (IntDef.Z.add 53 e)) e) with (fexp 53 1024 (53 + e) - e).
  assert (Hf' : fexp 53 1024 (53 + e) - e = 0) by (unfold fexp, emin; lia).
  rewrite Hf'. cbn [shr shr_m].
  change (IntDef.Z.leb e (IntDef.Z.sub 1024 53)) with (e <=? 971).
  replace (e <=? 971) with true by (symmetry; apply Z.leb_le; lia).
  destruct s; reflexivity.
Qed.

(** Scaled by 1.0, an integer below [2^53] comes back as it was. *)
Lemma scaled_by_one z :
  0 <= z < 2 ^ 53 -> double_to_int64 (dmul (size_t_to_double z) d_one) = z.
Proof.
  intros Hz. destruct z as [|p|p]; [reflexivity| |lia].
  destruct (size_t_to_double_exact p ltac:(lia)) as (m & e & Heq & Hd & He & Hm).
  rewrite Heq, dmul_one by lia. unfold double_to_int64.
  assert (Hv : (if 0 <=? e then Z.pos m * 2 ^ e else Z.pos m / 2 ^ (- e)) = Z.pos p).
  { destruct (Z.leb_spec 0 e).
    - assert (e = 0) by lia. subst e. cbn in Hm. lia.
    - rewrite Hm. apply Z.div_mul. apply Z.pow_nonzero; lia. }
  rewrite Hv.
  replace (- 2 ^ 63 <=? Z.pos p) with true by (symmetry; apply Z.leb_le; lia).
  replace (Z.pos p <? 2 ^ 63) with true; [reflexivity|].
  symmetry. apply Z.ltb_lt. assert (2 ^ 53 < 2 ^ 63) by (apply Z.pow_lt_mono_r; lia). lia.
Qed.

(** Scaled by zero, it is zero. *)
Lemma scaled_by_zero z s :
  0 <= z < 2 ^ 53 -> double_to_int64 (dmul (size_t_to_double z) (S754_zero s)) = 0.
Proof.
  intros Hz. destruct z as [|p|p]; [reflexivity| |lia].
  destruct (size_t_to_double_exact p ltac:(lia)) as (m & e & Heq & _).
  rewrite Heq. reflexivity.
Qed.

(** ** The monad *)

Section RunFacts.

Context {A B : Type}.

Lemma bind_unfold (m : io A) (f : A -> io B) h :
  bind m f h =
  match snd (m h) with
  | Ok a => (fst (m h) ++ fst (f a (h ++ fst (m h))), snd (f a (h ++ fst (m h))))
  | Fail x => (fst (m h), Fail x)
  end.
Proof.
  unfold bind. destruct (m h) as [es [a|x]]; cbn; [|reflexivity].
  destruct (f a (h ++ es)); reflexivity.
Qed.

Lemma runs_bind (m : io A) (f : A -> io B) h es1 es2 a b :
  runs_to m h es1 a -> runs_to (f a) (h ++ es1) es2 b ->
  runs_to (bind m f) h (es1 ++ es2) b.
Proof.
  unfold runs_to. intros H1 H2. rewrite bind_unfold, H1. cbn. rewrite H2. reflexivity.
Qed.

Lemma runs_ret (a : A) h : runs_to (ret a) h [] a.
Proof. reflexivity. Qed.

Lemma runs_total (m : io A) h a d :
  snd (m h) = Ok a -> runs_to m h (fst (m h)) (value_or d (snd (m h))).
Proof. unfold runs_to. destruct (m h) as [es r]. cbn. intros ->. reflexivity. Qed.

Lemma respects_ret (P : run_property) (a : A) : composes P -> respects P (ret a).
Proof. intros HP h. apply (composes_nil P HP). Qed.

Lemma respects_bind (P : run_property) (m : io A) (f : A -> io B) :
  composes P -> respects P m -> (forall a, respects P (f a)) -> respects P (bind m f).
Proof.
  intros HP Hm Hf h. rewrite bind_unfold. specialize (Hm h).
  destruct (snd (m h)) as [a|x]; cbn in *; [|exact Hm].
  apply (composes_app P HP); [exact Hm | apply Hf].
Qed.

Lemma returns_only_bind (m : io A) (f : A -> io B) (s : B) :
  (forall a, returns_only s (f a)) -> returns_only s (bind m f).
Proof.
  intros Hf h. rewrite bind_unfold.
  destruct (snd (m h)) as [a|x]; cbn; [apply Hf | right; eauto].
Qed.

Lemma returns_only_ret (s : A) : returns_only s (ret s).
Proof. intros h. left. reflexivity. Qed.

End RunFacts.

Lemma runs_emit e h : runs_to (emit e) h [e] tt.
Proof. reflexivity. Qed.

Lemma respects_for_range {S} (P : run_property) (body : Z -> S -> io S) :
  composes P -> (forall i s, respects P (body i s)) ->
  forall count lo s, respects P (for_range lo count body s).
Proof.
  intros HP Hb. induction count as [|c IH]; intros lo s; cbn [for_range].
  - apply respects_ret, HP.
  - apply respects_bind; auto.
Qed.

Lemma respects_for_int_fold {S} (P : run_property) (body : Z -> S -> io S) bound s :
  composes P -> (forall i s, respects P (body i s)) ->
  respects P (for_int_fold bound body s).
Proof. intros. apply respects_for_range; auto. Qed.

Lemma respects_for_int (P : run_property) (body : Z -> io unit) bound :
  composes P -> (forall i, respects P (body i)) -> respects P (for_int bound body).
Proof. intros. apply respects_for_int_fold; auto. Qed.

(** ** Two composing properties *)

Lemma last_snoc_event (h : list event) e : last (h ++ [e]) = Some e.
Proof. apply last_snoc. Qed.

Lemma failed_call_snoc E h e :
  failed_call E (h ++ [e]) =
  match kind_of e with
  | blas_kind => blas_answer (blas_status E (h ++ [e]))
  | hip_kind => hip_answer (hip_status E (h ++ [e]))
  | plain_kind => None
  end.
Proof. unfold failed_call. rewrite last_snoc_event. reflexivity. Qed.

Lemma fail_stop_composes E : composes (fail_stop E).
Proof.
  split.
  - intros h. split.
    + intros p e q f H. destruct p; discriminate H.
    + intros f H. discriminate H.
  - intros h es1 es2 o [H1 _] [H2 H2']. split.
    + intros p e q f Heq Hf.
      apply app_eq_app in Heq. destruct Heq as [l [[Hes1 Hl]|[Hp Hes2]]].
      * destruct l as [|e' l'].
        -- (* the failing call opens the second run *)
           cbn in Hl. rewrite app_nil_r in Hes1. subst p.
           apply (H2 [] e q f); [symmetry; exact Hl|].
           rewrite <- app_assoc. exact Hf.
        -- (* it lies in the first run, which ended normally *)
           injection Hl as <- _. destruct (H1 _ _ _ _ Hes1 Hf) as [_ Hc].
           discriminate Hc.
      * apply (H2 _ _ _ _ Hes2). subst p.
        rewrite <- !app_assoc in Hf. rewrite <- !app_assoc. exact Hf.
    + intros f Hf. destruct (H2' f Hf) as [Hne Hfc]. split.
      * intros Heq. apply app_eq_nil in Heq. tauto.
      * rewrite app_assoc. exact Hfc.
Qed.

Lemma all_events_composes phi : composes (all_events phi).
Proof.
  split; unfold all_events.
  - constructor.
  - intros. apply Forall_app. split; assumption.
Qed.

Lemma fail_stop_single E h e : fail_stop E h [e] (failed_call E (h ++ [e])).
Proof.
  split.
  - intros p e' q f Heq Hf. destruct p as [|x p].
    + injection Heq as <- <-. split; [reflexivity|]. exact Hf.
    + injection Heq as _ Heq. destruct p; discriminate Heq.
  - intros f Hf. split; [discriminate | exact Hf].
Qed.

Section Atoms.

Variable E : externals.

Lemma fail_stop_emit e : kind_of e = plain_kind -> respects (fail_stop E) (emit e).
Proof.
  intros Hk h. cbn. pose proof (fail_stop_single E h e) as H.
  rewrite failed_call_snoc, Hk in H. exact H.
Qed.

Lemma fail_stop_double_call e :
  kind_of e = plain_kind -> respects (fail_stop E) (double_call E e).
Proof.
  intros Hk h. cbn. pose proof (fail_stop_single E h e) as H.
  rewrite failed_call_snoc, Hk in H. exact H.
Qed.

Lemma fail_stop_check_blas e :
  kind_of e = blas_kind -> respects (fail_stop E) (CHECK_HIPBLAS_ERROR (blas_call E e)).
Proof.
  intros Hk h. pose proof (fail_stop_single E h e) as H.
  rewrite failed_call_snoc, Hk in H.
  unfold CHECK_HIPBLAS_ERROR, bind, blas_call.
  destruct (blas_status E (h ++ [e])); exact H.
Qed.

Lemma fail_stop_check_hip e :
  kind_of e = hip_kind -> respects (fail_stop E) (CHECK_HIP_ERROR (hip_call E e)).
Proof.
  intros Hk h. pose proof (fail_stop_single E h e) as H.
  rewrite failed_call_snoc, Hk in H.
  unfold CHECK_HIP_ERROR, bind, hip_call.
  destruct (hip_status E (h ++ [e])); exact H.
Qed.

Lemma all_events_emit phi e : phi e -> respects (all_events phi) (emit e).
Proof. intros He h. repeat constructor. exact He. Qed.

Lemma all_events_double_call phi e : phi e -> respects (all_events phi) (double_call E e).
Proof. intros He h. repeat constructor. exact He. Qed.

Lemma all_events_check_blas phi e :
  phi e -> respects (all_events phi) (CHECK_HIPBLAS_ERROR (blas_call E e)).
Proof.
  intros He h. unfold all_events, CHECK_HIPBLAS_ERROR, bind, blas_call.
  destruct (blas_status E (h ++ [e])); repeat constructor; exact He.
Qed.

Lemma all_events_check_hip phi e :
  phi e -> respects (all_events phi) (CHECK_HIP_ERROR (hip_call E e)).
Proof.
  intros He h. unfold all_events, CHECK_HIP_ERROR, bind, hip_call.
  destruct (hip_status E (h ++ [e])); repeat constructor; exact He.
Qed.

End Atoms.

(** The names the drivers give to the calls they make. *)
Ltac unfold_calls :=
  unfold timing_loop, timing_iteration, host_vector_copy, tpsv_check_batch;
  unfold hipblasLocalHandle, hipblasSetPointerMode, hipblasGetStream, get_time_us_sync,
    host_vector, device_vector, host_batch_vector, device_batch_vector, memcheck,
    transfer_from, hipMemcpy, hipblas_init_vector, copy_from, unit_check_general,
    near_check_general, norm_check_general, vector_norm_1, unit_check_error, log_args,
    EXPECT_HIPBLAS_STATUS, hipblasAxpyBatched, cblas_axpy, hipblasCopyStridedBatched,
    cblas_copy, hipblasRotmg, cblas_rotmg, hipblasGeamBatched, cblas_geam,
    hipblasTpsvBatched, cblas_gemm, cblas_potrf, cblas_trmv, regular_to_packed.

(** Descend through a driver, one statement at a time; [atom] settles the
    calls. *)
Ltac respects_walk HP atom :=
  repeat
    match goal with
    | |- respects _ (bind _ _) => apply respects_bind; [exact HP | | intro]
    | |- respects _ (ret _) => apply respects_ret; exact HP
    | |- respects _ (for_int _ _) => apply respects_for_int; [exact HP | intro]
    | |- respects _ (for_int_fold _ _ _) => apply respects_for_int_fold; [exact HP | intros]
    | |- respects _ (if ?b then _ else _) => destruct b
    | |- respects _ _ => atom
    end.

Ltac fail_stop_atom :=
  first [ apply fail_stop_emit; reflexivity
        | apply fail_stop_double_call; reflexivity
        | apply fail_stop_check_blas; reflexivity
        | apply fail_stop_check_hip; reflexivity ].

Ltac returns_walk :=
  repeat
    match goal with
    | |- returns_only _ (bind _ _) => apply returns_only_bind; intro
    | |- returns_only _ (ret _) => apply returns_only_ret
    | |- returns_only _ (if ?b then _ else _) => destruct b
    end.

(** ** Every driver stops at the first failing call *)

Section FailStop.

Variable E : externals.

Lemma axpy_fail_stop arg : respects (fail_stop E) (testing_axpy_batched E arg).
Proof.
  unfold testing_axpy_batched. cbv zeta. unfold_calls.
  respects_walk (fail_stop_composes E) fail_stop_atom.
Qed.

Lemma copy_fail_stop arg : respects (fail_stop E) (testing_copy_strided_batched E arg).
Proof.
  unfold testing_copy_strided_batched. cbv zeta. unfold_calls.
  respects_walk (fail_stop_composes E) fail_stop_atom.
Qed.

Lemma rotmg_fail_stop arg : respects (fail_stop E) (testing_rotmg E arg).
Proof.
  unfold testing_rotmg. cbv zeta. unfold_calls.
  respects_walk (fail_stop_composes E) fail_stop_atom.
Qed.

Lemma geam_fail_stop arg : respects (fail_stop E) (testing_geam_batched E arg).
Proof.
  unfold testing_geam_batched. cbv zeta. unfold_calls.
  respects_walk (fail_stop_composes E) fail_stop_atom.
Qed.

End FailStop.

Section FailStopTpsv.

Variable E : externals.

Lemma tpsv_condition_false arg :
  tpsv_valid arg ->
  ((arg_N arg <? 0) || (arg_incx arg =? 0) || (arg_batch_count arg <? 0))
  || (arg_N arg =? 0) || (arg_batch_count arg =? 0) = false.
Proof.
  intros (HN & Hi & Hb).
  repeat (apply orb_false_intro); try (apply Z.ltb_ge; lia); apply Z.eqb_neq; lia.
Qed.

Lemma tpsv_fail_stop arg :
  tpsv_valid arg -> respects (fail_stop E) (testing_tpsv_batched E arg).
Proof.
  intros Hv. unfold testing_tpsv_batched. cbv zeta.
  rewrite (tpsv_condition_false arg Hv). unfold_calls.
  respects_walk (fail_stop_composes E) fail_stop_atom.
Qed.

(** The early return of [testing_tpsv_batched], whatever the library
    answers. *)
Lemma tpsv_quick_run arg :
  ((arg_N arg <? 0) || (arg_incx arg =? 0) || (arg_batch_count arg <? 0))
  || (arg_N arg =? 0) || (arg_batch_count arg =? 0) = true ->
  let actual := blas_status E [HandleCreate; tpsv_null_call E arg] in
  run (testing_tpsv_batched E arg) =
  ([HandleCreate; tpsv_null_call E arg;
    ExpectStatus actual
      (if (arg_N arg <? 0) || (arg_incx arg =? 0) || (arg_batch_count arg <? 0)
       then HIPBLAS_STATUS_INVALID_VALUE else HIPBLAS_STATUS_SUCCESS)],
   Ok actual).
Proof.
  intros Hc. unfold run, testing_tpsv_batched. cbv zeta. rewrite Hc. reflexivity.
Qed.

End FailStopTpsv.

Lemma status_eqb_refl s : status_eqb s s = true.
Proof. destruct s; cbn; auto using Nat.eqb_refl. Qed.

Lemma fail_stop_propagates E (m : io hipblasStatus_t) :
  respects (fail_stop E) m -> propagates E (run m).
Proof.
  intros H p e q f Heq Hf. destruct (H []) as [H1 _]. unfold run in *.
  destruct (H1 p e q f Heq Hf) as [-> Ho]. split; [|constructor].
  destruct (snd (m [])); cbn in Ho; [discriminate|]. injection Ho as ->. reflexivity.
Qed.

Lemma fail_stop_succeeds_at_end E (m : io hipblasStatus_t) :
  respects (fail_stop E) m -> returns_only HIPBLAS_STATUS_SUCCESS m ->
  succeeds_at_end E (run m).
Proof.
  intros H Hr. unfold run. destruct (H []) as [_ H2]. cbn [app] in H2.
  assert (Hshape : snd (m []) = Ok HIPBLAS_STATUS_SUCCESS \/
                   exists f, snd (m []) = Fail f /\ failed_call E (fst (m [])) = Some f).
  { destruct (Hr []) as [Hok|[f Hf]]; [left; exact Hok|right].
    exists f. split; [exact Hf|]. apply H2. rewrite Hf. reflexivity. }
  split; [exact Hshape|].
  intros [Hb Hh]. destruct Hshape as [Hok|(f & _ & Hf)]; [exact Hok|].
  unfold failed_call in Hf. destruct (last (fst (m []))) as [e|]; [|discriminate].
  destruct (kind_of e); [rewrite Hb in Hf | rewrite Hh in Hf |]; discriminate.
Qed.

Lemma tpsv_condition_true arg :
  ~ tpsv_valid arg ->
  ((arg_N arg <? 0) || (arg_incx arg =? 0) || (arg_batch_count arg <? 0))
  || (arg_N arg =? 0) || (arg_batch_count arg =? 0) = true.
Proof.
  intros Hv. unfold tpsv_valid in Hv.
  destruct (Z.ltb_spec (arg_N arg) 0); [reflexivity|].
  destruct (Z.eqb_spec (arg_incx arg) 0); [reflexivity|].
  destruct (Z.ltb_spec (arg_batch_count arg) 0); [reflexivity|].
  destruct (Z.eqb_spec (arg_N arg) 0); [reflexivity|].
  destruct (Z.eqb_spec (arg_batch_count arg) 0); [reflexivity|].
  exfalso. apply Hv. lia.
Qed.

Lemma tpsv_valid_dec arg : tpsv_valid arg \/ ~ tpsv_valid arg.
Proof. unfold tpsv_valid. destruct (Z.eq_dec (arg_incx arg) 0); lia. Qed.

Lemma tpsv_quick_propagates E arg :
  ~ tpsv_valid arg -> propagates E (run (testing_tpsv_batched E arg)).
Proof.
  intros Hv. rewrite (tpsv_quick_run E arg (tpsv_condition_true arg Hv)). cbv zeta.
  intros p e q f Heq Hf. cbn [fst snd] in *.
  rewrite failed_call_snoc in Hf.
  destruct p as [|x1 [|x2 [|x3 p]]]; cbn in Heq.
  - injection Heq as <- _. discriminate Hf.
  - injection Heq as <- <- <-. cbn in Hf.
    destruct (blas_status E _) eqn:Hs; cbn in Hf; try discriminate;
      injection Hf as <-; (split; [reflexivity|]);
      repeat constructor; cbn; auto using Nat.eqb_refl.
  - injection Heq as _ _ <- _. discriminate Hf.
  - injection Heq as _ _ _ Heq. destruct p; discriminate Heq.
Qed.

(** C6: in each of the five test functions a library call that answers
    with a status other than success ends the test: that status is what
    leaves the function, and nothing follows the call but the assertion
    [testing_tpsv_batched] makes on that status on its early return. *)
Theorem failures_propagate E arg :
  propagates E (run (testing_axpy_batched E arg)) /\
  propagates E (run (testing_copy_strided_batched E arg)) /\
  propagates E (run (testing_geam_batched E arg)) /\
  propagates E (run (testing_rotmg E arg)) /\
  propagates E (run (testing_tpsv_batched E arg)).
Proof.
  split; [|split; [|split; [|split]]].
  - apply fail_stop_propagates, axpy_fail_stop.
  - apply fail_stop_propagates, copy_fail_stop.
  - apply fail_stop_propagates, geam_fail_stop.
  - apply fail_stop_propagates, rotmg_fail_stop.
  - destruct (tpsv_valid_dec arg) as [Hv|Hv].
    + apply fail_stop_propagates, tpsv_fail_stop, Hv.
    + apply tpsv_quick_propagates, Hv.
Qed.

(** ** The status at the end of a test *)

Section Returns.

Variable E : externals.

Lemma axpy_returns arg : returns_only HIPBLAS_STATUS_SUCCESS (testing_axpy_batched E arg).
Proof. unfold testing_axpy_batched. cbv zeta. returns_walk. Qed.

Lemma copy_returns arg :
  returns_only HIPBLAS_STATUS_SUCCESS (testing_copy_strided_batched E arg).
Proof. unfold testing_copy_strided_batched. cbv zeta. returns_walk. Qed.

Lemma rotmg_returns arg : returns_only HIPBLAS_STATUS_SUCCESS (testing_rotmg E arg).
Proof. unfold testing_rotmg. cbv zeta. returns_walk. Qed.

Lemma geam_condition_false arg :
  geam_valid E arg ->
  (arg_M arg <=? 0) || (arg_N arg <=? 0) || (arg_lda arg <? geam_A_row E arg)
  || (arg_ldb arg <? geam_B_row E arg) || (arg_ldc arg <? arg_M arg)
  || (arg_batch_count arg <? 0) = false.
Proof.
  intros (HM & HN & Ha & Hb & Hc & Hbc).
  repeat (apply orb_false_intro); first [apply Z.leb_gt; lia | apply Z.ltb_ge; lia].
Qed.

Lemma geam_condition_true arg :
  geam_invalid E arg ->
  (arg_M arg <=? 0) || (arg_N arg <=? 0) || (arg_lda arg <? geam_A_row E arg)
  || (arg_ldb arg <? geam_B_row E arg) || (arg_ldc arg <? arg_M arg)
  || (arg_batch_count arg <? 0) = true.
Proof.
  intros H.
  destruct (Z.leb_spec (arg_M arg) 0); [reflexivity|].
  destruct (Z.leb_spec (arg_N arg) 0); [reflexivity|].
  destruct (Z.ltb_spec (arg_lda arg) (geam_A_row E arg)); [reflexivity|].
  destruct (Z.ltb_spec (arg_ldb arg) (geam_B_row E arg)); [reflexivity|].
  destruct (Z.ltb_spec (arg_ldc arg) (arg_M arg)); [reflexivity|].
  destruct (Z.ltb_spec (arg_batch_count arg) 0); [reflexivity|].
  exfalso. unfold geam_invalid in H. lia.
Qed.

Lemma geam_returns arg :
  geam_valid E arg -> returns_only HIPBLAS_STATUS_SUCCESS (testing_geam_batched E arg).
Proof.
  intros Hv. unfold testing_geam_batched. cbv zeta.
  fold (geam_A_row E arg) (geam_B_row E arg).
  rewrite (geam_condition_false arg Hv). returns_walk.
Qed.

Lemma tpsv_returns arg :
  tpsv_valid arg -> returns_only HIPBLAS_STATUS_SUCCESS (testing_tpsv_batched E arg).
Proof.
  intros Hv. unfold testing_tpsv_batched. cbv zeta.
  rewrite (tpsv_condition_false arg Hv). returns_walk.
Qed.

End Returns.

(** C8: on arguments that pass its initial checks each test function
    returns success when it reaches its end, whatever the comparisons and
    the norms measured; it fails to reach its end only when a library call
    has failed. *)
Theorem returns_success_at_end E arg :
  (sizes_positive arg -> succeeds_at_end E (run (testing_axpy_batched E arg))) /\
  (sizes_positive arg -> succeeds_at_end E (run (testing_copy_strided_batched E arg))) /\
  (geam_valid E arg -> succeeds_at_end E (run (testing_geam_batched E arg))) /\
  succeeds_at_end E (run (testing_rotmg E arg)) /\
  (tpsv_valid arg -> succeeds_at_end E (run (testing_tpsv_batched E arg))).
Proof.
  split; [|split; [|split; [|split]]]; intros.
  - apply fail_stop_succeeds_at_end; [apply axpy_fail_stop | apply axpy_returns].
  - apply fail_stop_succeeds_at_end; [apply copy_fail_stop | apply copy_returns].
  - apply fail_stop_succeeds_at_end; [apply geam_fail_stop | apply geam_returns; assumption].
  - apply fail_stop_succeeds_at_end; [apply rotmg_fail_stop | apply rotmg_returns].
  - apply fail_stop_succeeds_at_end; [apply tpsv_fail_stop | apply tpsv_returns]; assumption.
Qed.

(** C10: [testing_geam_batched] returns invalid value, and calls nothing,
    when M <= 0, N <= 0, batch_count < 0, or a leading dimension is below
    the row count its operand needs: lda below M (A not transposed) or N,
    ldb below M (B not transposed) or N, ldc below M. *)
Theorem geam_rejects_small_leading_dimensions E arg :
  geam_invalid E arg ->
  run (testing_geam_batched E arg) = ([], Ok HIPBLAS_STATUS_INVALID_VALUE).
Proof.
  intros H. unfold run, testing_geam_batched. cbv zeta.
  fold (geam_A_row E arg) (geam_B_row E arg).
  rewrite (geam_condition_true E arg H). reflexivity.
Qed.

(** C3: on its early return [testing_tpsv_batched] asserts invalid value
    when N < 0, incx = 0 or batch_count < 0, asserts success when instead
    N = 0 or batch_count = 0, and in both cases returns the status the
    library call gave. *)
Theorem tpsv_early_return_status E arg :
  let actual := blas_status E [HandleCreate; tpsv_null_call E arg] in
  (arg_N arg < 0 \/ arg_incx arg = 0 \/ arg_batch_count arg < 0 ->
   run (testing_tpsv_batched E arg) =
   ([HandleCreate; tpsv_null_call E arg;
     ExpectStatus actual HIPBLAS_STATUS_INVALID_VALUE], Ok actual)) /\
  (0 <= arg_N arg -> arg_incx arg <> 0 -> 0 <= arg_batch_count arg ->
   arg_N arg = 0 \/ arg_batch_count arg = 0 ->
   run (testing_tpsv_batched E arg) =
   ([HandleCreate; tpsv_null_call E arg;
     ExpectStatus actual HIPBLAS_STATUS_SUCCESS], Ok actual)).
Proof.
  intros actual. split.
  - intros H. rewrite tpsv_quick_run.
    + replace ((arg_N arg <? 0) || (arg_incx arg =? 0) || (arg_batch_count arg <? 0))
        with true; [reflexivity|].
      symmetry.
      destruct (Z.ltb_spec (arg_N arg) 0); [reflexivity|].
      destruct (Z.eqb_spec (arg_incx arg) 0); [reflexivity|].
      destruct (Z.ltb_spec (arg_batch_count arg) 0); [reflexivity|]. lia.
    + apply tpsv_condition_true. unfold tpsv_valid. lia.
  - intros HN Hi Hb H0. rewrite tpsv_quick_run.
    + replace ((arg_N arg <? 0) || (arg_incx arg =? 0) || (arg_batch_count arg <? 0))
        with false; [reflexivity|].
      symmetry. repeat (apply orb_false_intro);
        first [apply Z.ltb_ge; lia | apply Z.eqb_neq; lia].
    + apply tpsv_condition_true. unfold tpsv_valid. lia.
Qed.

(** ** Early returns *)

Lemma sizes_condition_true arg :
  arg_N arg <= 0 \/ arg_batch_count arg <= 0 ->
  (arg_N arg <=? 0) || (arg_batch_count arg <=? 0) = true.
Proof.
  intros H. destruct (Z.leb_spec (arg_N arg) 0); [reflexivity|].
  destruct (Z.leb_spec (arg_batch_count arg) 0); [reflexivity|]. lia.
Qed.

Lemma sizes_condition_false arg :
  sizes_positive arg -> (arg_N arg <=? 0) || (arg_batch_count arg <=? 0) = false.
Proof. intros [HN Hb]. apply orb_false_intro; apply Z.leb_gt; lia. Qed.

(** A handle, then one checked call with null pointers, then success. *)
Lemma checked_null_call_quick E (call : event) :
  is_blas_call call = true -> null_call call = true ->
  quick_return_with_library_status E
    (run (bind hipblasLocalHandle
            (fun _ => bind (CHECK_HIPBLAS_ERROR (blas_call E call))
                        (fun _ => ret HIPBLAS_STATUS_SUCCESS)))).
Proof.
  intros Hb Hn. unfold run.
  cbv [bind hipblasLocalHandle emit CHECK_HIPBLAS_ERROR blas_call ret abort]. cbn [app].
  assert (Hcall : is_alloc call = false) by (destruct call; try discriminate; reflexivity).
  destruct (blas_status E [HandleCreate; call]) eqn:Hs; cbn [fst snd app];
    (split; [repeat constructor; exact Hcall|]);
    (split; [repeat constructor; exact Hn|]);
    exists [HandleCreate], call, []; cbn [app]; rewrite Hs; auto.
Qed.

(** C2, as stated, fails.  The status of a quick return is the one the
    library gives to the null-pointer call, whatever it is:
    [testing_tpsv_batched] returns [actual] (line 70), here a status that
    is neither success nor invalid value.  And [testing_rotmg], which
    reads neither N nor batch_count, allocates its buffers when N is
    zero. *)
Lemma quick_return_status_is_not_fixed :
  (arg_N (with_N 0 arg0) <= 0 \/ arg_batch_count (with_N 0 arg0) <= 0) /\
  run (testing_tpsv_batched unready (with_N 0 arg0)) =
  ([HandleCreate; tpsv_null_call unready (with_N 0 arg0);
    ExpectStatus (HIPBLAS_STATUS_OTHER 1) HIPBLAS_STATUS_SUCCESS],
   Ok (HIPBLAS_STATUS_OTHER 1)) /\
  ~ quick_return (run (testing_tpsv_batched unready (with_N 0 arg0))) /\
  ~ quick_return (run (testing_rotmg all_ok (with_N 0 arg0))).
Proof.
  split; [left; cbn; lia|]. split; [reflexivity|]. split.
  - intros (_ & _ & [H|H]); vm_compute in H; discriminate H.
  - intros [H _]. vm_compute in H.
    inversion H as [|? ? _ H1]. inversion H1 as [|? ? Ha _]. discriminate Ha.
Qed.

(** C2, amended: when N <= 0 or batch_count <= 0, [testing_axpy_batched],
    [testing_copy_strided_batched] and [testing_tpsv_batched] return before
    any buffer is allocated, after calling the routine under test exactly
    once, with null pointers only, and what leaves the function is the
    status the library gave to that call; [testing_geam_batched] calls
    nothing and returns invalid value when its check rejects the
    arguments, and success otherwise, the batch count then being zero. *)
Theorem sized_drivers_return_early E arg :
  arg_N arg <= 0 \/ arg_batch_count arg <= 0 ->
  quick_return_with_library_status E (run (testing_axpy_batched E arg)) /\
  quick_return_with_library_status E (run (testing_copy_strided_batched E arg)) /\
  quick_return_with_library_status E (run (testing_tpsv_batched E arg)) /\
  ((geam_invalid E arg /\
    run (testing_geam_batched E arg) = ([], Ok HIPBLAS_STATUS_INVALID_VALUE)) \/
   (geam_valid E arg /\ arg_batch_count arg = 0 /\
    run (testing_geam_batched E arg) = ([], Ok HIPBLAS_STATUS_SUCCESS))).
Proof.
  intros H. pose proof (sizes_condition_true arg H) as Hc.
  split; [|split; [|split]].
  - unfold testing_axpy_batched. cbv zeta. rewrite Hc.
    apply checked_null_call_quick; reflexivity.
  - unfold testing_copy_strided_batched. cbv zeta. rewrite Hc.
    apply checked_null_call_quick; reflexivity.
  - rewrite tpsv_quick_run.
    2:{ apply tpsv_condition_true. unfold tpsv_valid. lia. }
    cbv zeta. cbn [fst snd].
    split; [repeat constructor|]. split; [repeat constructor|].
    exists [HandleCreate], (tpsv_null_call E arg). eexists. cbn. auto.
  - unfold run, testing_geam_batched. cbv zeta.
    fold (geam_A_row E arg) (geam_B_row E arg).
    destruct ((arg_M arg <=? 0) || (arg_N arg <=? 0) || (arg_lda arg <? geam_A_row E arg)
              || (arg_ldb arg <? geam_B_row E arg) || (arg_ldc arg <? arg_M arg)
              || (arg_batch_count arg <? 0)) eqn:Hg.
    + left. split; [|reflexivity]. unfold geam_invalid.
      repeat (apply orb_true_iff in Hg; destruct Hg as [Hg|Hg]);
        first [apply Z.leb_le in Hg | apply Z.ltb_lt in Hg]; lia.
    + right.
      repeat (apply orb_false_elim in Hg; destruct Hg as [Hg ?]).
      repeat match goal with
             | H : (_ <=? _) = false |- _ => apply Z.leb_gt in H
             | H : (_ <? _) = false |- _ => apply Z.ltb_ge in H
             end.
      assert (Hb : arg_batch_count arg = 0) by lia.
      split; [unfold geam_valid; lia|]. split; [exact Hb|].
      rewrite Hb. reflexivity.
Qed.

(** Runs with N = 0 under a library that rejects every call. *)
Lemma sized_drivers_return_early_witness :
  quick_return_with_library_status rejecting
    (run (testing_axpy_batched rejecting (with_N 0 arg0))) /\
  quick_return_with_library_status rejecting
    (run (testing_copy_strided_batched rejecting (with_N 0 arg0))) /\
  quick_return_with_library_status rejecting
    (run (testing_tpsv_batched rejecting (with_N 0 arg0))) /\
  run (testing_geam_batched rejecting (with_N 0 arg0)) = ([], Ok HIPBLAS_STATUS_INVALID_VALUE).
Proof.
  destruct (sized_drivers_return_early rejecting (with_N 0 arg0)) as (H1 & H2 & H3 & H4).
  - left. cbn. lia.
  - split; [exact H1|]. split; [exact H2|]. split; [exact H3|].
    destruct H4 as [[_ H4]|(_ & _ & H4)]; [exact H4|].
    vm_compute in H4. discriminate H4.
Defined.

(** ** Buffer sizes of [testing_copy_strided_batched] *)

Lemma starts_with_emit {B} e pre phi (k : unit -> io B) h :
  starts_with pre phi (k tt) (h ++ [e]) -> starts_with (e :: pre) phi (bind (emit e) k) h.
Proof.
  intros (rest & Hr & Hphi). exists rest. split; [|exact Hphi].
  unfold bind, emit. destruct (k tt (h ++ [e])) as [es r]. cbn in *. rewrite Hr. reflexivity.
Qed.

Lemma starts_with_nil {A} phi (m : io A) h :
  respects (all_events phi) m -> starts_with [] phi m h.
Proof. intros H. exists (fst (m h)). split; [reflexivity | apply H]. Qed.

Lemma all_events_run {A} phi (m : io A) :
  respects (all_events phi) m -> forall h, Forall phi (fst (m h)).
Proof. intros H h. apply H. Qed.

Ltac no_alloc_atom E :=
  first [ apply all_events_emit; reflexivity
        | apply (all_events_double_call E); reflexivity
        | apply (all_events_check_blas E); reflexivity
        | apply (all_events_check_hip E); reflexivity ].

Lemma buffer_size_positive stride batch_count : 1 <= buffer_size stride batch_count.
Proof.
  unfold buffer_size. pose proof (to_size_t_range (int64_mul stride batch_count)).
  destruct (Z.eqb_spec (to_size_t (int64_mul stride batch_count)) 0); lia.
Qed.

(** The size is the product of stride and batch count, and 1 in its place
    when the product is zero. *)
Lemma buffer_size_product stride batch_count :
  0 <= stride -> 0 <= batch_count -> stride * batch_count < 2 ^ 63 ->
  buffer_size stride batch_count =
  if stride * batch_count =? 0 then 1 else stride * batch_count.
Proof.
  intros Hs Hb Hp. unfold buffer_size, int64_mul, to_int64, wrap_signed, to_size_t,
    wrap_unsigned.
  assert (0 <= stride * batch_count) by nia.
  change (2 ^ (64 - 1)) with 9223372036854775808.
  change (2 ^ 63) with 9223372036854775808 in Hp.
  change (2 ^ 64) with 18446744073709551616.
  rewrite (Z.mod_small (stride * batch_count + 9223372036854775808)) by lia.
  replace (stride * batch_count + 9223372036854775808 - 9223372036854775808)
    with (stride * batch_count) by lia.
  rewrite Z.mod_small by lia. reflexivity.
Qed.

(** The stride is the double product of [N * |inc|] and [stride_scale],
    cut off to an integer. *)
Lemma copy_stride_product arg inc :
  0 < arg_N arg <= INT_MAX -> INT_MIN < inc <= INT_MAX ->
  copy_stride arg inc =
  double_to_int64 (dmul (size_t_to_double (arg_N arg * Z.abs inc)) (arg_stride_scale arg)).
Proof.
  intros HN Hi. unfold copy_stride, scaled_stride.
  assert (Habs : (if 0 <=? inc then inc else int_neg inc) = Z.abs inc).
  { destruct (Z.leb_spec 0 inc); [lia|]. unfold int_neg.
    rewrite to_int_id by (unfold int_range, INT_MIN, INT_MAX in *; lia). lia. }
  rewrite Habs. rewrite size_t_mul_int; [reflexivity | lia |].
  unfold INT_MIN, INT_MAX in *. lia.
Qed.

Lemma copy_sized_from_stride arg inc :
  sizes_positive arg -> arg_N arg <= INT_MAX -> INT_MIN < inc <= INT_MAX ->
  sized_from_stride arg inc.
Proof.
  intros [HN Hb] HNmax Hi. unfold sized_from_stride. cbv zeta.
  pose proof (copy_stride_product arg inc ltac:(lia) Hi) as Hs.
  split; [exact Hs|]. split; [|split; [|split]].
  - intros Hp H1. rewrite Hs, H1. apply scaled_by_one. nia.
  - intros Hp [s H0]. rewrite Hs, H0. apply scaled_by_zero. nia.
  - intros H0 Hp. unfold copy_size. apply buffer_size_product; lia.
  - apply buffer_size_positive.
Qed.

(** C9: for N > 0 and batch_count > 0, with N and the increments in the
    range of [int], the strides of [testing_copy_strided_batched] are the
    double products of N * |incx| and N * |incy| with stride_scale, cut off
    to integers; sizeX and sizeY are stridex * batch_count and
    stridey * batch_count, replaced by 1 when that is zero, hence at least
    1; the six buffers the test allocates have these sizes, and it
    allocates nothing else. *)
Theorem copy_buffers_are_not_empty E arg :
  sizes_positive arg ->
  arg_N arg <= INT_MAX ->
  INT_MIN < arg_incx arg <= INT_MAX -> INT_MIN < arg_incy arg <= INT_MAX ->
  let sizeX := copy_size arg (arg_incx arg) in
  let sizeY := copy_size arg (arg_incy arg) in
  sized_from_stride arg (arg_incx arg) /\
  sized_from_stride arg (arg_incy arg) /\
  exists rest,
    fst (run (testing_copy_strided_batched E arg)) =
    HandleCreate :: Alloc Host "hx" [sizeX] :: Alloc Host "hy" [sizeY]
    :: Alloc Host "hx_cpu" [sizeX] :: Alloc Host "hy_cpu" [sizeY]
    :: Alloc Device "dx" [sizeX] :: Alloc Device "dy" [sizeY] :: rest /\
    Forall (fun e => is_alloc e = false) rest.
Proof.
  intros Hv HN Hx Hy sizeX sizeY.
  split; [apply copy_sized_from_stride; assumption|].
  split; [apply copy_sized_from_stride; assumption|].
  unfold run, testing_copy_strided_batched. cbv zeta.
  rewrite (sizes_condition_false arg Hv).
  fold (copy_stride arg (arg_incx arg)) (copy_stride arg (arg_incy arg)).
  fold (copy_size arg (arg_incx arg)) (copy_size arg (arg_incy arg)).
  fold sizeX sizeY. unfold_calls.
  match goal with
  | |- exists rest, fst (?m []) = _ /\ _ =>
      change (starts_with
                [HandleCreate; Alloc Host "hx" [sizeX]; Alloc Host "hy" [sizeY];
                 Alloc Host "hx_cpu" [sizeX]; Alloc Host "hy_cpu" [sizeY];
                 Alloc Device "dx" [sizeX]; Alloc Device "dy" [sizeY]]
                (fun e => is_alloc e = false) m [])
  end.
  do 7 apply starts_with_emit. apply starts_with_nil.
  respects_walk (all_events_composes (fun e => is_alloc e = false)) ltac:(no_alloc_atom E).
Qed.

(** With a scale of 1.0 the stride is N * |incx| = 2 and the size 4; with
    a scale of zero the stride is zero and the size is forced to 1. *)
Lemma copy_buffers_are_not_empty_witness :
  (copy_stride arg0 (arg_incx arg0) = 2 /\ copy_size arg0 (arg_incx arg0) = 4) /\
  (copy_stride (with_stride_scale dzero arg0) (arg_incx arg0) = 0 /\
   copy_size (with_stride_scale dzero arg0) (arg_incx arg0) = 1 /\
   exists rest,
     fst (run (testing_copy_strided_batched all_ok (with_stride_scale dzero arg0))) =
     HandleCreate :: Alloc Host "hx" [1] :: Alloc Host "hy" [1]
     :: Alloc Host "hx_cpu" [1] :: Alloc Host "hy_cpu" [1]
     :: Alloc Device "dx" [1] :: Alloc Device "dy" [1] :: rest /\
     Forall (fun e => is_alloc e = false) rest).
Proof.
  assert (Hv : sizes_positive arg0) by (unfold sizes_positive; cbn; lia).
  assert (Hv' : sizes_positive (with_stride_scale dzero arg0))
    by (unfold sizes_positive; cbn; lia).
  assert (HN : 2 <= INT_MAX) by (vm_compute; discriminate).
  assert (Hi : INT_MIN < 1 <= INT_MAX) by (split; vm_compute; [reflexivity | discriminate]).
  split.
  - destruct (copy_buffers_are_not_empty all_ok arg0 Hv HN Hi Hi)
      as ((_ & Hone & _ & Hsize & _) & _).
    assert (Hs : copy_stride arg0 (arg_incx arg0) = 2)
      by (apply Hone; [vm_compute|]; reflexivity).
    split; [exact Hs|]. rewrite Hsize; rewrite Hs; [reflexivity | lia | vm_compute; reflexivity].
  - destruct (copy_buffers_are_not_empty all_ok (with_stride_scale dzero arg0) Hv' HN Hi Hi)
      as ((_ & _ & Hzero & Hsize & _) & _ & Hrun).
    assert (Hs : copy_stride (with_stride_scale dzero arg0) (arg_incx arg0) = 0)
      by (apply Hzero; [vm_compute; reflexivity | exists false; reflexivity]).
    split; [exact Hs|]. split; [|exact Hrun].
    change (arg_incx (with_stride_scale dzero arg0)) with (arg_incx arg0) in Hsize.
    rewrite Hsize; rewrite Hs; [reflexivity | lia | vm_compute; reflexivity].
Defined.

Lemma returns_success_at_end_witness :
  succeeds_at_end all_ok (run (testing_axpy_batched all_ok arg0)) /\
  succeeds_at_end all_ok (run (testing_copy_strided_batched all_ok arg0)) /\
  succeeds_at_end all_ok (run (testing_geam_batched all_ok arg0)) /\
  succeeds_at_end all_ok (run (testing_rotmg all_ok arg0)) /\
  succeeds_at_end all_ok (run (testing_tpsv_batched all_ok arg0)).
Proof.
  destruct (returns_success_at_end all_ok arg0) as (H1 & H2 & H3 & H4 & H5).
  assert (Hs : sizes_positive arg0) by (unfold sizes_positive; cbn; lia).
  assert (Hg : geam_valid all_ok arg0) by (unfold geam_valid; cbn; lia).
  assert (Ht : tpsv_valid arg0) by (unfold tpsv_valid; cbn; lia).
  split; [exact (H1 Hs)|]. split; [exact (H2 Hs)|]. split; [exact (H3 Hg)|].
  split; [exact H4|exact (H5 Ht)].
Defined.

(** A leading dimension below the row count: lda below M for A not
    transposed; lda at M but below N for A transposed; ldc below M. *)
Lemma geam_rejects_small_leading_dimensions_witness :
  run (testing_geam_batched all_ok (with_leading "N" 2 1 2 2 arg0)) =
  ([], Ok HIPBLAS_STATUS_INVALID_VALUE) /\
  run (testing_geam_batched all_ok (with_leading "T" 3 2 3 2 arg0)) =
  ([], Ok HIPBLAS_STATUS_INVALID_VALUE) /\
  run (testing_geam_batched all_ok (with_leading "N" 2 2 2 1 arg0)) =
  ([], Ok HIPBLAS_STATUS_INVALID_VALUE).
Proof.
  split; [|split].
  - apply (geam_rejects_small_leading_dimensions all_ok (with_leading "N" 2 1 2 2 arg0)).
    right. right. left. vm_compute. reflexivity.
  - apply (geam_rejects_small_leading_dimensions all_ok (with_leading "T" 3 2 3 2 arg0)).
    right. right. left. vm_compute. reflexivity.
  - apply (geam_rejects_small_leading_dimensions all_ok (with_leading "N" 2 2 2 1 arg0)).
    right. right. right. right. left. vm_compute. reflexivity.
Defined.

Lemma tpsv_early_return_status_witness :
  run (testing_tpsv_batched rejecting (with_N (-1) arg0)) =
  ([HandleCreate; tpsv_null_call rejecting (with_N (-1) arg0);
    ExpectStatus HIPBLAS_STATUS_INVALID_VALUE HIPBLAS_STATUS_INVALID_VALUE],
   Ok HIPBLAS_STATUS_INVALID_VALUE) /\
  run (testing_tpsv_batched all_ok (with_N 0 arg0)) =
  ([HandleCreate; tpsv_null_call all_ok (with_N 0 arg0);
    ExpectStatus HIPBLAS_STATUS_SUCCESS HIPBLAS_STATUS_SUCCESS],
   Ok HIPBLAS_STATUS_SUCCESS).
Proof.
  split.
  - apply (tpsv_early_return_status rejecting (with_N (-1) arg0)). left. cbn. lia.
  - apply (tpsv_early_return_status all_ok (with_N 0 arg0)); cbn; lia.
Defined.

(** ** Runs in which every library call succeeds *)

Lemma for_range_emits {St} (f : Z -> list event) (body : Z -> St -> io St)
    (g : Z -> St -> St) :
  (forall i s h, runs_to (body i s) h (f i) (g i s)) ->
  forall count lo s h,
    runs_to (for_range lo count body s) h
      (flat_map f (map (fun k => lo + Z.of_nat k) (seq 0 count)))
      (fold_left (fun s i => g i s) (map (fun k => lo + Z.of_nat k) (seq 0 count)) s).
Proof.
  intros Hb. induction count as [|c IH]; intros lo s h; cbn [for_range].
  - apply runs_ret.
  - cbn [seq map flat_map fold_left]. rewrite Z.add_0_r.
    eapply runs_bind; [apply Hb|].
    rewrite <- seq_shift, map_map.
    erewrite (map_ext (fun k => lo + Z.of_nat (S k))); [apply IH|].
    intros k. cbn beta. lia.
Qed.

Lemma for_int_emits (f : Z -> list event) (body : Z -> io unit) bound h :
  (forall i h, runs_to (body i) h (f i) tt) ->
  runs_to (for_int bound body) h (flat_map f (Zseq bound)) tt.
Proof.
  intros Hb. unfold for_int, for_int_fold, Zseq.
  pose proof (for_range_emits f (fun i (_ : unit) => body i) (fun _ _ => tt)
                (fun i _ h => Hb i h) (Z.to_nat bound) 0 tt h) as H.
  cbn [Z.add] in H.
  replace (fold_left _ _ tt) with tt in H by (destruct (fold_left _ _ tt); reflexivity).
  exact H.
Qed.

Lemma for_range_total {St} (body : Z -> St -> io St) :
  (forall i s h, exists s', snd (body i s h) = Ok s') ->
  forall count lo s h, exists s', snd (for_range lo count body s h) = Ok s'.
Proof.
  intros Hb. induction count as [|c IH]; intros lo s h; cbn [for_range].
  - eexists. reflexivity.
  - rewrite bind_unfold. destruct (Hb lo s h) as [s' Hs]. rewrite Hs. cbn [snd]. apply IH.
Qed.

Section Success.

Variable E : externals.
Hypothesis all_succeed : calls_succeed E.

Lemma runs_check_blas e h : runs_to (CHECK_HIPBLAS_ERROR (blas_call E e)) h [e] tt.
Proof.
  unfold runs_to, CHECK_HIPBLAS_ERROR, bind, blas_call.
  rewrite (proj1 all_succeed). reflexivity.
Qed.

Lemma runs_check_hip e h : runs_to (CHECK_HIP_ERROR (hip_call E e)) h [e] tt.
Proof.
  unfold runs_to, CHECK_HIP_ERROR, bind, hip_call.
  rewrite (proj2 all_succeed). reflexivity.
Qed.

Lemma runs_double_call e h : runs_to (double_call E e) h [e] (measured E (h ++ [e])).
Proof. reflexivity. Qed.

(** The timing loop always comes to its end. *)
Lemma timing_loop_total arg call t0 h :
  runs_to (timing_loop E arg (blas_call E call) t0) h
    (fst (timing_loop E arg (blas_call E call) t0 h))
    (value_or None (snd (timing_loop E arg (blas_call E call) t0 h))).
Proof.
  assert (H : exists t, snd (timing_loop E arg (blas_call E call) t0 h) = Ok t).
  { unfold timing_loop. rewrite bind_unfold.
    edestruct (for_range_total (timing_iteration E arg (blas_call E call))) as [t Ht].
    2:{ unfold for_int_fold. rewrite Ht. cbn. eexists. reflexivity. }
    intros i s h'. unfold timing_iteration. rewrite bind_unfold.
    destruct (i =? arg_cold_iters arg); cbn;
      rewrite bind_unfold, (runs_check_blas call); cbn; eexists; reflexivity. }
  destruct H as [t Ht]. eapply runs_total. exact Ht.
Qed.

End Success.

Ltac runs_walk_with E Hs extra :=
  repeat (cbv beta;
          first [ apply runs_ret
                | apply runs_emit
                | apply (runs_check_blas E Hs)
                | apply (runs_check_hip E Hs)
                | apply runs_double_call
                | eapply for_int_emits; intros
                | extra
                | eapply runs_bind ]).

(** ** The order of steps *)

Lemma annotate_app st l1 l2 :
  annotate st (l1 ++ l2) = annotate st l1 ++ annotate (fold_left scan_next l1 st) l2.
Proof.
  revert st. induction l1 as [|e l1 IH]; intros st; cbn [app annotate fold_left].
  - reflexivity.
  - destruct (label st e); rewrite IH; reflexivity.
Qed.

Lemma annotate_uniform st p l rest :
  uniform st p l -> annotate st (l ++ rest) = repeat p (length l) ++ annotate st rest.
Proof.
  induction 1 as [|e l [Hl Hn] _ IH]; cbn [app annotate length repeat].
  - reflexivity.
  - rewrite Hl, Hn, IH. reflexivity.
Qed.

Lemma uniform_flat_map st p (f : Z -> list event) l :
  (forall i, uniform st p (f i)) -> uniform st p (flat_map f l).
Proof.
  intros Hf. induction l as [|i l IH]; cbn [flat_map].
  - constructor.
  - apply Forall_app. split; [apply Hf | exact IH].
Qed.

Lemma annotate_in_timing st l :
  in_timing st = true -> annotate st l = repeat Timing (length l).
Proof.
  revert st. induction l as [|e l IH]; intros st Ht; cbn [annotate length repeat].
  - reflexivity.
  - unfold label. rewrite Ht. rewrite IH; [reflexivity|].
    destruct e; cbn; auto.
Qed.

Lemma phase_eqb_refl p : phase_eqb p p = true.
Proof. destruct p as [|[[|]|]| | |]; reflexivity. Qed.

Lemma compress_cons_repeat p n l : compress (p :: repeat p n ++ l) = compress (p :: l).
Proof.
  induction n as [|n IH]; cbn [repeat app]; [reflexivity|].
  rewrite <- IH. cbn [compress]. rewrite phase_eqb_refl. reflexivity.
Qed.

Lemma compress_repeat_end p n : compress (p :: repeat p n) = [p].
Proof.
  rewrite <- (app_nil_r (repeat p n)). rewrite compress_cons_repeat. reflexivity.
Qed.

Lemma length_flat_map_singleton {A B} (g : A -> B) l :
  length (flat_map (fun i => [g i]) l) = length l.
Proof. induction l; cbn; auto. Qed.

Lemma length_Zseq n : length (Zseq n) = Z.to_nat n.
Proof. unfold Zseq. rewrite length_map, length_seq. reflexivity. Qed.
Lemma for_range_app {St} (body : Z -> St -> io St) n1 n2 lo s h :
  for_range lo (n1 + n2) body s h =
  bind (for_range lo n1 body s) (for_range (lo + Z.of_nat n1) n2 body) h.
Proof.
  revert lo s h. induction n1 as [|n1 IH]; intros lo s h.
  - cbn [for_range Nat.add]. rewrite Z.add_0_r. unfold bind, ret.
    destruct (for_range lo n2 body s (h ++ [])) as [es r] eqn:Hr.
    rewrite app_nil_r in Hr. rewrite Hr. reflexivity.
  - cbn [for_range Nat.add]. rewrite !bind_unfold.
    destruct (snd (body lo s h)) as [s'|x] eqn:Hb; [|reflexivity].
    rewrite IH. rewrite !bind_unfold.
    replace (lo + 1 + Z.of_nat n1) with (lo + Z.of_nat (S n1)) by lia.
    destruct (snd (for_range (lo + 1) n1 body s' (h ++ fst (body lo s h)))); cbn [fst snd].
    + rewrite <- !app_assoc. reflexivity.
    + reflexivity.
Qed.

Section Timing.

Variable E : externals.
Hypothesis all_succeed : calls_succeed E.
Variable arg : Arguments.
Variable call : event.

Lemma timing_body_other iter t h :
  iter <> arg_cold_iters arg ->
  runs_to ((timing_iteration E arg (blas_call E call)) iter t) h [call] t.
Proof.
  intros Hne. unfold timing_iteration. apply Z.eqb_neq in Hne. rewrite Hne.
  change [call] with ([] ++ [call] ++ []).
  eapply runs_bind; [apply runs_ret|].
  eapply runs_bind; [apply (runs_check_blas E all_succeed)|apply runs_ret].
Qed.

Lemma timing_body_cold t h :
  runs_to ((timing_iteration E arg (blas_call E call)) (arg_cold_iters arg) t) h [Timestamp; call]
    (Some (measured E (h ++ [Timestamp]))).
Proof.
  unfold timing_iteration. rewrite Z.eqb_refl.
  change [Timestamp; call] with (([Timestamp] ++ []) ++ [call] ++ []).
  eapply runs_bind.
  - eapply runs_bind; [apply runs_double_call | apply runs_ret].
  - eapply runs_bind; [apply (runs_check_blas E all_succeed)|apply runs_ret].
Qed.

Lemma timing_range_other count :
  forall lo t h,
    (lo + Z.of_nat count <= arg_cold_iters arg \/ arg_cold_iters arg < lo) ->
    runs_to (for_range lo count (timing_iteration E arg (blas_call E call)) t) h
      (repeat call count) t.
Proof.
  induction count as [|c IH]; intros lo t h Hr; cbn [for_range repeat].
  - apply runs_ret.
  - change (call :: repeat call c) with ([call] ++ repeat call c).
    eapply runs_bind; [apply timing_body_other; lia | apply IH; lia].
Qed.

Lemma timing_loop_runs t0 h :
  0 <= arg_cold_iters arg -> 1 <= arg_iters arg ->
  arg_cold_iters arg + arg_iters arg <= INT_MAX ->
  let warm := repeat call (Z.to_nat (arg_cold_iters arg)) in
  let hot := repeat call (Z.to_nat (arg_iters arg)) in
  runs_to (timing_loop E arg (blas_call E call) t0) h
    (warm ++ [Timestamp] ++ hot ++ [Timestamp])
    (Some (dsub (measured E (h ++ warm ++ [Timestamp] ++ hot ++ [Timestamp]))
             (measured E (h ++ warm ++ [Timestamp])))).
Proof.
  intros Hc Hi Hsum warm hot. unfold timing_loop.
  unfold int_add. rewrite to_int_id by (unfold int_range, INT_MIN, INT_MAX in *; lia).
  unfold for_int_fold.
  replace (Z.to_nat (arg_cold_iters arg + arg_iters arg))
    with (Z.to_nat (arg_cold_iters arg) + S (Z.to_nat (arg_iters arg - 1)))%nat by lia.
  assert (Hhot : hot = call :: repeat call (Z.to_nat (arg_iters arg - 1))).
  { unfold hot. replace (Z.to_nat (arg_iters arg)) with (S (Z.to_nat (arg_iters arg - 1))) by lia.
    reflexivity. }
  replace (warm ++ [Timestamp] ++ hot ++ [Timestamp])
    with ((warm ++ [Timestamp; call] ++ repeat call (Z.to_nat (arg_iters arg - 1)))
          ++ [Timestamp] ++ []).
  2:{ rewrite Hhot. rewrite <- !app_assoc. reflexivity. }
  eapply runs_bind.
  - unfold runs_to. rewrite for_range_app. cbn [for_range].
    eapply runs_bind; [apply timing_range_other; lia|].
    rewrite Z2Nat.id by lia. cbn [Z.add].
    eapply runs_bind; [apply timing_body_cold|].
    apply timing_range_other. lia.
  - eapply runs_bind; [apply runs_double_call|].
    cbn [option_map]. unfold runs_to, ret. do 3 f_equal.
    f_equal; f_equal; rewrite ?Hhot, <- ?app_assoc; cbn [app]; rewrite <- ?app_assoc;
      reflexivity.
Qed.

End Timing.

(** ** The steps of a successful run *)

Lemma compress_cons_cons x y l :
  compress (x :: y :: l) = if phase_eqb x y then compress (y :: l) else x :: compress (y :: l).
Proof. reflexivity. Qed.

Lemma compress_single x : compress [x] = [x].
Proof. reflexivity. Qed.

Lemma positive_to_nat z : 0 < z -> exists n, Z.to_nat z = S n.
Proof. intros H. exists (Z.to_nat (z - 1)). lia. Qed.

Lemma uniform_compare st l :
  in_timing st = false -> Forall (fun e => is_compare e = true) l -> uniform st Compare l.
Proof.
  intros Ht H. induction H as [|e l He _ IH]; constructor; [|exact IH].
  unfold label. rewrite Ht. destruct e; try discriminate He; split; reflexivity.
Qed.

Lemma annotate_flat_map_chunks st (f : Z -> list event) (g : list phase) L rest :
  (forall i rest', annotate st (f i ++ rest') = g ++ annotate st rest') ->
  annotate st (flat_map f L ++ rest) = flat_map (fun _ => g) L ++ annotate st rest.
Proof.
  intros Hf. induction L as [|i L IH]; cbn [flat_map app]; [reflexivity|].
  rewrite <- !app_assoc, Hf, IH. reflexivity.
Qed.

Lemma compress_alternation (L : list Z) rest :
  compress (BuildInputs
            :: flat_map (fun _ => [ReferenceCall; ReferenceCall; ReferenceCall; BuildInputs]) L
            ++ rest)
  = flat_map (fun _ => [BuildInputs; ReferenceCall]) L ++ compress (BuildInputs :: rest).
Proof.
  induction L as [|i L IH]; cbn [flat_map app]; [reflexivity|].
  rewrite <- IH. reflexivity.
Qed.

Ltac compare_atom E :=
  first [ apply all_events_emit; reflexivity
        | apply (all_events_double_call E); reflexivity ].

Lemma tpsv_check_respects E arg i s :
  respects (all_events (fun e => is_compare e = true)) (tpsv_check_batch E arg i s).
Proof.
  unfold tpsv_check_batch. cbv zeta. unfold_calls.
  respects_walk (all_events_composes (fun e => is_compare e = true)) ltac:(compare_atom E).
Qed.

(** The loop of lines 180-190 makes no checked call: it always comes to
    its end, opens with the norm of batch entry 0, and only measures and
    checks. *)
Lemma tpsv_check_total E arg s h :
  runs_to (for_int_fold (arg_batch_count arg) (tpsv_check_batch E arg) s) h
    (fst (for_int_fold (arg_batch_count arg) (tpsv_check_batch E arg) s h))
    (value_or dzero (snd (for_int_fold (arg_batch_count arg) (tpsv_check_batch E arg) s h))).
Proof.
  edestruct (for_range_total (tpsv_check_batch E arg)) as [s' Hs'].
  2:{ eapply runs_total. unfold for_int_fold. exact Hs'. }
  intros i s0 h0. unfold tpsv_check_batch. cbv zeta. unfold_calls.
  rewrite bind_unfold. cbn. rewrite bind_unfold.
  destruct (arg_unit_check arg); cbn; eexists; reflexivity.
Qed.

Lemma tpsv_check_events E arg s h n :
  Z.to_nat (arg_batch_count arg) = S n ->
  starts_with [VectorNorm 0 "hx" "hx_or_b_1"] (fun e => is_compare e = true)
    (for_int_fold (arg_batch_count arg) (tpsv_check_batch E arg) s) h.
Proof.
  intros Hb.
  pose proof (respects_for_int_fold _ (tpsv_check_batch E arg) (arg_batch_count arg) s
                (all_events_composes _) (tpsv_check_respects E arg) h) as Hall.
  unfold all_events in Hall. unfold starts_with.
  assert (Hhead : exists rest,
             fst (for_int_fold (arg_batch_count arg) (tpsv_check_batch E arg) s h)
             = VectorNorm 0 "hx" "hx_or_b_1" :: rest).
  { unfold for_int_fold. rewrite Hb. cbn [for_range].
    unfold tpsv_check_batch at 1. cbv zeta. unfold vector_norm_1.
    rewrite bind_unfold. rewrite (bind_unfold (double_call _ _)).
    cbn [double_call fst snd].
    destruct (snd _); [destruct (snd _)|]; cbn [fst app]; eexists; reflexivity. }
  destruct Hhead as [rest Hrest]. exists rest. split; [exact Hrest|].
  rewrite Hrest in Hall. inversion Hall; assumption.
Qed.

Ltac uniform_tac :=
  first [ apply uniform_flat_map; intro; repeat (constructor; [split; reflexivity|]); constructor
        | apply uniform_compare; [reflexivity | assumption]
        | repeat (constructor; [split; reflexivity|]); constructor ].

(** Forget what the timing loop did and which doubles were measured. *)
Ltac forget_timing :=
  repeat match goal with
         | |- context [timing_loop ?a ?b ?c ?d ?h] =>
             let x := fresh "loop" in set (x := timing_loop a b c d h); clearbody x
         | |- context [measured ?a ?h] =>
             let x := fresh "m" in set (x := measured a h); clearbody x
         end.

(** Replace the run of a driver by the events the walk finds. *)
Ltac synthesize E Hs extra :=
  match goal with
  | |- context [?m (@nil event)] =>
      let H := fresh "Hrun" in
      eassert (H : runs_to m [] _ _) by (runs_walk_with E Hs extra);
      unfold runs_to in H; rewrite H; clear H; cbn [fst snd]
  end.

Ltac tidy := rewrite <- ?app_assoc; cbn [app].

Ltac order_tac :=
  unfold step_order;
  repeat first
    [ progress cbn [annotate label scan_next scan_start in_timing cur_mode]
    | erewrite annotate_uniform by uniform_tac
    | rewrite (annotate_flat_map_chunks _ _
                 [ReferenceCall; ReferenceCall; ReferenceCall; BuildInputs])
        by (intros; reflexivity)
    | rewrite annotate_in_timing by reflexivity ];
  rewrite ?length_flat_map_singleton, ?length_Zseq.

Ltac compress_tac :=
  cbn [repeat app];
  repeat first
    [ rewrite compress_repeat_end
    | rewrite compress_cons_repeat
    | rewrite compress_alternation
    | rewrite compress_single
    | rewrite compress_cons_cons; cbn [phase_eqb mode_eqb] ].

(** Open the check loop of [testing_tpsv_batched]. *)
Ltac open_check_loop E Hb :=
  match goal with
  | |- context [fst (for_int_fold ?bc (tpsv_check_batch E ?arg) ?s ?h)] =>
      let rest := fresh "rest" in
      let Hrest := fresh "Hrest" in
      let Hall := fresh "Hall" in
      destruct (tpsv_check_events E arg s h _ Hb) as (rest & Hrest & Hall);
      rewrite Hrest; clear Hrest
  end;
  repeat match goal with
         | |- context [for_int_fold ?bc (tpsv_check_batch E ?arg) ?s ?h] =>
             let x := fresh "loop" in
             set (x := for_int_fold bc (tpsv_check_batch E arg) s h); clearbody x
         end.

Section Orders.

Variable E : externals.
Hypothesis Hs : calls_succeed E.
Variable arg : Arguments.
Hypothesis Hf : arg_unit_check arg || arg_norm_check arg = true.

Lemma axpy_order :
  sizes_positive arg ->
  step_order (fst (run (testing_axpy_batched E arg))) =
  [BuildInputs; DeviceCall (Some HIPBLAS_POINTER_MODE_DEVICE);
   DeviceCall (Some HIPBLAS_POINTER_MODE_HOST); ReferenceCall; Compare]
  ++ (if arg_timing arg then [Timing] else []).
Proof.
  intros Hv. unfold run, testing_axpy_batched. cbv zeta.
  rewrite (sizes_condition_false arg Hv).
  destruct (positive_to_nat _ (proj2 Hv)) as [n Hb].
  destruct (arg_unit_check arg), (arg_norm_check arg), (arg_timing arg);
    try discriminate Hf; cbn [orb]; unfold_calls; fold (timing_loop E);
    synthesize E Hs ltac:(apply (timing_loop_total E Hs)); forget_timing; tidy;
    order_tac; rewrite Hb; compress_tac; reflexivity.
Qed.

Lemma copy_order :
  sizes_positive arg ->
  step_order (fst (run (testing_copy_strided_batched E arg))) =
  [BuildInputs; DeviceCall None; ReferenceCall; Compare]
  ++ (if arg_timing arg then [Timing] else []).
Proof.
  intros Hv. unfold run, testing_copy_strided_batched. cbv zeta.
  rewrite (sizes_condition_false arg Hv).
  destruct (positive_to_nat _ (proj2 Hv)) as [n Hb].
  destruct (arg_unit_check arg), (arg_norm_check arg), (arg_timing arg);
    try discriminate Hf; cbn [orb]; unfold_calls; fold (timing_loop E);
    synthesize E Hs ltac:(apply (timing_loop_total E Hs)); forget_timing; tidy;
    order_tac; rewrite Hb; compress_tac; reflexivity.
Qed.

Lemma rotmg_order :
  step_order (fst (run (testing_rotmg E arg))) = fixed_pattern arg.
Proof.
  unfold run, testing_rotmg, fixed_pattern. cbv zeta.
  destruct (arg_unit_check arg), (arg_norm_check arg), (arg_timing arg);
    try discriminate Hf; cbn [orb]; unfold_calls; fold (timing_loop E);
    synthesize E Hs ltac:(apply (timing_loop_total E Hs)); forget_timing; tidy;
    order_tac; compress_tac; reflexivity.
Qed.

Lemma geam_order :
  geam_valid E arg -> 0 < arg_batch_count arg ->
  step_order (fst (run (testing_geam_batched E arg))) = fixed_pattern arg.
Proof.
  intros Hv Hbc. unfold run, testing_geam_batched, fixed_pattern. cbv zeta.
  fold (geam_A_row E arg) (geam_B_row E arg).
  rewrite (geam_condition_false E arg Hv).
  replace (arg_batch_count arg =? 0) with false by (symmetry; apply Z.eqb_neq; lia).
  destruct (positive_to_nat _ Hbc) as [n Hb].
  destruct (arg_unit_check arg), (arg_norm_check arg), (arg_timing arg);
    try discriminate Hf; cbn [orb]; unfold_calls; fold (timing_loop E);
    synthesize E Hs ltac:(apply (timing_loop_total E Hs)); forget_timing; tidy;
    order_tac; rewrite Hb; compress_tac; reflexivity.
Qed.

Lemma tpsv_order :
  tpsv_valid arg ->
  step_order (fst (run (testing_tpsv_batched E arg))) =
  flat_map (fun _ => [BuildInputs; ReferenceCall]) (Zseq (arg_batch_count arg))
  ++ [BuildInputs; DeviceCall None; Compare]
  ++ (if arg_timing arg then [Timing] else []).
Proof.
  intros Hv. unfold run, testing_tpsv_batched. cbv zeta.
  rewrite (tpsv_condition_false arg Hv).
  destruct (positive_to_nat _ (proj2 (proj2 Hv))) as [n Hb].
  rewrite Hf. unfold_calls; fold (timing_loop E); fold (tpsv_check_batch E arg).
  destruct (arg_timing arg);
    synthesize E Hs ltac:(first [apply (timing_loop_total E Hs) | apply tpsv_check_total]);
    forget_timing; open_check_loop E Hb; tidy; order_tac; compress_tac; reflexivity.
Qed.

End Orders.

(** C4, as stated, fails: [testing_axpy_batched] calls the routine in
    device pointer mode first and in host pointer mode second. *)
Lemma axpy_calls_device_mode_first :
  calls_succeed all_ok /\ sizes_positive arg0 /\ arg_unit_check arg0 = true /\
  step_order (fst (run (testing_axpy_batched all_ok arg0))) <> fixed_pattern arg0.
Proof.
  split; [split; reflexivity|]. split; [unfold sizes_positive; cbn; lia|].
  split; [reflexivity|]. vm_compute. discriminate.
Qed.

(** C4, amended: with unit or norm checking on and every library call
    succeeding, [testing_geam_batched] and [testing_rotmg] follow the
    fixed pattern (inputs, host-mode call, device-mode call, CPU
    reference, comparison, timing if asked for); [testing_axpy_batched]
    makes the device-mode call before the host-mode call;
    [testing_copy_strided_batched] makes one call and sets no pointer
    mode; [testing_tpsv_batched] calls the reference routines while it
    builds the inputs of each batch entry, then makes one call with no
    pointer mode set, then compares. *)
Theorem drivers_step_order E arg :
  calls_succeed E ->
  arg_unit_check arg || arg_norm_check arg = true ->
  (geam_valid E arg -> 0 < arg_batch_count arg ->
   step_order (fst (run (testing_geam_batched E arg))) = fixed_pattern arg) /\
  step_order (fst (run (testing_rotmg E arg))) = fixed_pattern arg /\
  (sizes_positive arg ->
   step_order (fst (run (testing_axpy_batched E arg))) =
   [BuildInputs; DeviceCall (Some HIPBLAS_POINTER_MODE_DEVICE);
    DeviceCall (Some HIPBLAS_POINTER_MODE_HOST); ReferenceCall; Compare]
   ++ (if arg_timing arg then [Timing] else [])) /\
  (sizes_positive arg ->
   step_order (fst (run (testing_copy_strided_batched E arg))) =
   [BuildInputs; DeviceCall None; ReferenceCall; Compare]
   ++ (if arg_timing arg then [Timing] else [])) /\
  (tpsv_valid arg ->
   step_order (fst (run (testing_tpsv_batched E arg))) =
   flat_map (fun _ => [BuildInputs; ReferenceCall]) (Zseq (arg_batch_count arg))
   ++ [BuildInputs; DeviceCall None; Compare]
   ++ (if arg_timing arg then [Timing] else [])).
Proof.
  intros Hs Hf. split; [|split; [|split; [|split]]].
  - apply geam_order; assumption.
  - apply rotmg_order; assumption.
  - apply axpy_order; assumption.
  - apply copy_order; assumption.
  - apply tpsv_order; assumption.
Qed.

Lemma all_ok_succeeds : calls_succeed all_ok.
Proof. split; reflexivity. Qed.

Lemma drivers_step_order_witness :
  step_order (fst (run (testing_geam_batched all_ok arg0))) = fixed_pattern arg0 /\
  step_order (fst (run (testing_rotmg all_ok arg0))) = fixed_pattern arg0 /\
  step_order (fst (run (testing_axpy_batched all_ok arg0))) =
  [BuildInputs; DeviceCall (Some HIPBLAS_POINTER_MODE_DEVICE);
   DeviceCall (Some HIPBLAS_POINTER_MODE_HOST); ReferenceCall; Compare; Timing] /\
  step_order (fst (run (testing_copy_strided_batched all_ok arg0))) =
  [BuildInputs; DeviceCall None; ReferenceCall; Compare; Timing] /\
  step_order (fst (run (testing_tpsv_batched all_ok arg0))) =
  [BuildInputs; ReferenceCall; BuildInputs; ReferenceCall; BuildInputs; DeviceCall None;
   Compare; Timing].
Proof.
  destruct (drivers_step_order all_ok arg0 all_ok_succeeds eq_refl)
    as (H1 & H2 & H3 & H4 & H5).
  assert (Hs : sizes_positive arg0) by (unfold sizes_positive; cbn; lia).
  assert (Hg : geam_valid all_ok arg0) by (unfold geam_valid; cbn; lia).
  assert (Ht : tpsv_valid arg0) by (unfold tpsv_valid; cbn; lia).
  assert (Hb : 0 < arg_batch_count arg0) by (cbn; lia).
  split; [exact (H1 Hg Hb)|]. split; [exact H2|]. split; [exact (H3 Hs)|].
  split; [exact (H4 Hs)|exact (H5 Ht)].
Defined.

(** ** Events of loops, and filters over them *)

Lemma Forall_weaken {A} (P Q : A -> Prop) l :
  (forall a, P a -> Q a) -> Forall P l -> Forall Q l.
Proof. intros H HP. induction HP; constructor; auto. Qed.

Lemma Forall_flat_map_intro {A B} (P : B -> Prop) (f : A -> list B) l :
  (forall a, Forall P (f a)) -> Forall P (flat_map f l).
Proof.
  intros H. induction l as [|a l IH]; cbn [flat_map]; [constructor|].
  apply Forall_app. split; [apply H | exact IH].
Qed.

Lemma timing_loop_events E arg call t0 h :
  is_blas_call call = true ->
  Forall (fun e => is_timing_event e = true)
    (fst (timing_loop E arg (blas_call E call) t0 h)).
Proof.
  intros Hc. destruct call; try discriminate Hc.
  apply all_events_run. unfold_calls.
  respects_walk (all_events_composes (fun e => is_timing_event e = true))
    ltac:(no_alloc_atom E).
Qed.

Lemma filter_cons_eq {A} (f : A -> bool) x l :
  List.filter f (x :: l) = if f x then x :: List.filter f l else List.filter f l.
Proof. reflexivity. Qed.

Lemma filter_repeat_app {A} (f : A -> bool) p n l :
  f p = false -> List.filter f (repeat p n ++ l) = List.filter f l.
Proof.
  intros Hp. induction n as [|n IH]; cbn [repeat app List.filter]; [reflexivity|].
  rewrite Hp. exact IH.
Qed.

Lemma filter_repeat {A} (f : A -> bool) p n :
  f p = false -> List.filter f (repeat p n) = [].
Proof.
  intros Hp. rewrite <- (app_nil_r (repeat p n)). rewrite filter_repeat_app; auto.
Qed.

Lemma filter_flat_map_const {A B} (f : A -> bool) (g : list A) (L : list B) l :
  List.filter f g = [] -> List.filter f (flat_map (fun _ => g) L ++ l) = List.filter f l.
Proof.
  intros Hg. induction L as [|b L IH]; cbn [flat_map app]; [reflexivity|].
  rewrite <- app_assoc, List.filter_app, Hg. exact IH.
Qed.

Ltac filter_tac :=
  repeat first
    [ rewrite filter_repeat_app by reflexivity
    | rewrite filter_repeat by reflexivity
    | rewrite filter_flat_map_const by reflexivity
    | rewrite filter_cons_eq; cbn [is_device_call] ].

(** Forget what the timing loop did, but for the kind of events it made. *)
Ltac forget_timing_events :=
  repeat match goal with
         | |- context [timing_loop ?a ?b (blas_call ?a ?c) ?d ?h] =>
             let x := fresh "loop" in
             let Hx := fresh "Hloop" in
             pose proof (timing_loop_events a b c d h eq_refl) as Hx;
             set (x := timing_loop a b (blas_call a c) d h) in *; clearbody x
         | |- context [measured ?a ?h] =>
             let x := fresh "m" in set (x := measured a h); clearbody x
         end.

(** [Forall phi] over a trace made of known events and chunks, for a
    [phi] that computes on known events. *)
Ltac trace_forall weaken :=
  repeat match goal with
         | |- Forall _ [] => apply List.Forall_nil
         | |- Forall _ (_ :: _) =>
             apply List.Forall_cons;
             [cbn; first [exact I | reflexivity | tauto | intuition discriminate] |]
         | |- Forall _ (flat_map _ _ ++ _) =>
             apply Forall_app; split; [apply Forall_flat_map_intro; intro; cbv beta |]
         | |- Forall _ (_ ++ _) =>
             apply Forall_app; split; [eapply Forall_weaken; [|eassumption]; weaken |]
         end.

Ltac weaken_tac :=
  let e := fresh "e" in
  let He := fresh "He" in
  intros e He; destruct e; try discriminate He; cbn; try exact I;
  try (apply andb_prop in He; destruct He as [He1 He2];
       apply String.eqb_eq in He1; apply String.eqb_eq in He2; subst; reflexivity);
  try (cbn; tauto).

(** ** The timing section *)

Lemma timed_section_intro E arg pre setup call errors tr :
  is_blas_call call = true ->
  Forall (fun e => is_blas_call e = false /\ is_timestamp e = false) setup ->
  Forall (fun e => e <> GetStream /\ is_timestamp e = false) pre ->
  0 <= arg_cold_iters arg -> 0 <= arg_iters arg ->
  (let warm := repeat call (Z.to_nat (arg_cold_iters arg)) in
   let hot := repeat call (Z.to_nat (arg_iters arg)) in
   let h1 := pre ++ GetStream :: setup ++ warm ++ [Timestamp] in
   let h2 := h1 ++ hot ++ [Timestamp] in
   tr = h2 ++ [LogArgs (Some (dsub (measured E h2) (measured E h1))) errors]) ->
  timed_section E arg tr.
Proof.
  intros Hc Hsetup Hpre Hcold Hiters Htr. exists pre, setup, call, errors. cbv zeta in *.
  split; [exact Hc|]. split; [exact Hsetup|]. split; [exact Hpre|]. split; [|exact Htr].
  rewrite length_app, !repeat_length. lia.
Qed.

Ltac pre_of t :=
  lazymatch t with
  | GetStream :: _ => constr:(@nil event)
  | ?x :: ?r => let p := pre_of r in constr:(x :: p)
  | ?l ++ ?r => let p := pre_of r in constr:(l ++ p)
  end.

Ltac after_get_stream t :=
  lazymatch t with
  | GetStream :: ?r => r
  | _ :: ?r => after_get_stream r
  | _ ++ ?r => after_get_stream r
  end.

Ltac setup_of t :=
  lazymatch t with
  | repeat _ _ ++ _ => constr:(@nil event)
  | ?x :: ?r => let p := setup_of r in constr:(x :: p)
  end.

Ltac timed_tac weaken :=
  lazymatch goal with
  | |- timed_section ?E ?arg ?tr =>
      let pre := pre_of tr in
      let r := after_get_stream tr in
      let setup := setup_of r in
      lazymatch r with
      | context [repeat ?call _] =>
          lazymatch tr with
          | context [LogArgs _ ?errors] =>
              apply (timed_section_intro E arg pre setup call errors);
              [ reflexivity
              | repeat (constructor; [split; reflexivity|])
              | trace_forall weaken
              | lia
              | lia
              | cbv zeta; repeat (progress tidy); reflexivity ]
          end
      end
  end.

Ltac weaken_stamp :=
  let e := fresh "e" in
  let He := fresh "He" in
  intros e He; destruct e; cbn in He; try discriminate He;
  (split; [discriminate | reflexivity]).

Lemma runs_bind_at {A B} (m : io A) (f : A -> io B) h h' es1 es2 a b :
  runs_to m h es1 a -> h' = h ++ es1 -> runs_to (f a) h' es2 b ->
  runs_to (bind m f) h (es1 ++ es2) b.
Proof. intros H1 -> H2. eapply runs_bind; eassumption. Qed.

Lemma runs_if {A} (b : bool) (m1 m2 : io A) h es1 es2 a1 a2 :
  runs_to m1 h es1 a1 -> runs_to m2 h es2 a2 ->
  runs_to (if b then m1 else m2) h (if b then es1 else es2) (if b then a1 else a2).
Proof. destruct b; auto. Qed.

(** The walk, keeping every history in normal form and every test on a
    switch as a chunk of its own. *)
Ltac runs_walk_tidy E Hs extra :=
  repeat (cbv beta;
          first [ apply runs_ret
                | apply runs_emit
                | apply (runs_check_blas E Hs)
                | apply (runs_check_hip E Hs)
                | apply runs_double_call
                | eapply for_int_emits; intros
                | extra
                | match goal with
                  | |- ?x = _ ++ _ => is_evar x; repeat (progress tidy); reflexivity
                  | |- runs_to (if _ then _ else _) _ _ _ => eapply runs_if
                  end
                | eapply runs_bind_at ]).

Ltac synthesize_tidy E Hs extra :=
  match goal with
  | |- context [?m (@nil event)] =>
      let H := fresh "Hrun" in
      eassert (H : runs_to m [] _ _) by (runs_walk_tidy E Hs extra);
      unfold runs_to in H; rewrite H; clear H; cbn [fst snd]
  end.

(** [Forall phi] over a trace with chunks that depend on a switch. *)
Ltac trace_forall_if weaken :=
  repeat match goal with
         | |- Forall _ [] => apply List.Forall_nil
         | |- Forall _ (_ :: _) =>
             apply List.Forall_cons;
             [cbn; first [exact I | reflexivity | tauto | intuition discriminate] |]
         | |- Forall _ (if ?b then _ else _) => destruct b
         | |- Forall _ ((if ?b then _ else _) ++ _) => apply Forall_app; split
         | |- Forall _ (flat_map _ _) => apply Forall_flat_map_intro; intro; cbv beta
         | |- Forall _ (flat_map _ _ ++ _) => apply Forall_app; split
         | |- Forall _ (_ ++ _) =>
             apply Forall_app; split; [eapply Forall_weaken; [|eassumption]; weaken |]
         | |- Forall _ _ => eapply Forall_weaken; [|eassumption]; weaken
         end.

Ltac timed_tac weaken ::=
  lazymatch goal with
  | |- timed_section ?E ?arg ?tr =>
      let pre := pre_of tr in
      let r := after_get_stream tr in
      let setup := setup_of r in
      lazymatch r with
      | context [repeat ?call _] =>
          lazymatch tr with
          | context [LogArgs _ ?errors] =>
              apply (timed_section_intro E arg pre setup call errors);
              [ reflexivity
              | repeat (constructor; [split; reflexivity|]); constructor
              | trace_forall_if weaken
              | lia
              | lia
              | cbv zeta; repeat (progress tidy); reflexivity ]
          end
      end
  end.

Section Timed.

Variable E : externals.
Hypothesis Hs : calls_succeed E.
Variable arg : Arguments.
Hypothesis Ht : arg_timing arg = true.
Hypothesis Hc : 0 <= arg_cold_iters arg.
Hypothesis Hi : 1 <= arg_iters arg.
Hypothesis Hsum : arg_cold_iters arg + arg_iters arg <= INT_MAX.

Lemma axpy_timed :
  sizes_positive arg -> timed_section E arg (fst (run (testing_axpy_batched E arg))).
Proof.
  intros Hv. unfold run, testing_axpy_batched. cbv zeta.
  rewrite (sizes_condition_false arg Hv), Ht.
  unfold_calls; fold (timing_iteration E); fold (timing_loop E).
  synthesize_tidy E Hs ltac:(apply (timing_loop_runs E Hs arg _ _ _ Hc Hi Hsum)).
  repeat (progress tidy). timed_tac weaken_stamp.
Qed.

Lemma copy_timed :
  sizes_positive arg ->
  timed_section E arg (fst (run (testing_copy_strided_batched E arg))).
Proof.
  intros Hv. unfold run, testing_copy_strided_batched. cbv zeta.
  rewrite (sizes_condition_false arg Hv), Ht.
  unfold_calls; fold (timing_iteration E); fold (timing_loop E).
  synthesize_tidy E Hs ltac:(apply (timing_loop_runs E Hs arg _ _ _ Hc Hi Hsum)).
  repeat (progress tidy). timed_tac weaken_stamp.
Qed.

Lemma rotmg_timed : timed_section E arg (fst (run (testing_rotmg E arg))).
Proof.
  unfold run, testing_rotmg. cbv zeta. rewrite Ht.
  unfold_calls; fold (timing_iteration E); fold (timing_loop E).
  synthesize_tidy E Hs ltac:(apply (timing_loop_runs E Hs arg _ _ _ Hc Hi Hsum)).
  repeat (progress tidy). timed_tac weaken_stamp.
Qed.

Lemma geam_timed :
  geam_valid E arg -> 0 < arg_batch_count arg ->
  timed_section E arg (fst (run (testing_geam_batched E arg))).
Proof.
  intros Hv Hbc. unfold run, testing_geam_batched. cbv zeta.
  fold (geam_A_row E arg) (geam_B_row E arg).
  rewrite (geam_condition_false E arg Hv), Ht.
  replace (arg_batch_count arg =? 0) with false by (symmetry; apply Z.eqb_neq; lia).
  unfold_calls; fold (timing_iteration E); fold (timing_loop E).
  synthesize_tidy E Hs ltac:(apply (timing_loop_runs E Hs arg _ _ _ Hc Hi Hsum)).
  repeat (progress tidy). timed_tac weaken_stamp.
Qed.

Lemma tpsv_timed :
  tpsv_valid arg -> timed_section E arg (fst (run (testing_tpsv_batched E arg))).
Proof.
  intros Hv. unfold run, testing_tpsv_batched. cbv zeta.
  rewrite (tpsv_condition_false arg Hv), Ht.
  unfold_calls; fold (timing_iteration E); fold (timing_loop E);
    fold (tpsv_check_batch E arg).
  synthesize_tidy E Hs
    ltac:(first [ apply (timing_loop_runs E Hs arg _ _ _ Hc Hi Hsum)
                | apply tpsv_check_total ]).
  repeat match goal with
         | |- context [for_int_fold ?bc (tpsv_check_batch E ?a) ?s ?h] =>
             let x := fresh "loop" in
             let Hx := fresh "Hloop" in
             pose proof (respects_for_int_fold _ (tpsv_check_batch E a) bc s
                           (all_events_composes _) (tpsv_check_respects E a) h) as Hx;
             unfold all_events in Hx;
             set (x := for_int_fold bc (tpsv_check_batch E a) s h) in *; clearbody x
         end.
  repeat (progress tidy). timed_tac weaken_stamp.
Qed.

End Timed.

(** A timed section ends in a report that carries a measured time. *)
Lemma timed_section_reports (E : externals) (arg : Arguments) (tr : list event) :
  timed_section E arg tr ->
  exists t errors, List.last tr HandleCreate = LogArgs (Some t) errors.
Proof.
  intros (pre & setup & call & errors & _ & _ & _ & _ & ->).
  eexists _, errors. apply List.last_last.
Qed.

(** C7, as stated, fails: with [iters = 0] the loop of [testing_rotmg]
    never reaches iteration number [cold_iters], no first timestamp is
    taken and the reported time is not a difference of two timestamps;
    and with [N = 0] [testing_axpy_batched] returns before its timing
    section. *)
Lemma timing_needs_a_timed_call :
  arg_timing (with_iters 0 arg0) = true /\ arg_timing (with_N 0 arg0) = true /\
  ~ timed_section all_ok (with_iters 0 arg0)
      (fst (run (testing_rotmg all_ok (with_iters 0 arg0)))) /\
  ~ timed_section all_ok (with_N 0 arg0)
      (fst (run (testing_axpy_batched all_ok (with_N 0 arg0)))).
Proof.
  split; [reflexivity|]. split; [reflexivity|].
  split; intros H; apply timed_section_reports in H; destruct H as (t & errors & H);
    vm_compute in H; discriminate H.
Qed.

(** C7, amended: when [arg.timing] is enabled, every library call
    succeeds, the arguments pass the driver's size checks,
    [arg.cold_iters >= 0], [arg.iters >= 1] and their sum fits an [int],
    each test function invokes the routine [arg.cold_iters + arg.iters]
    times in a loop, takes a timestamp immediately before iteration
    number [arg.cold_iters] and another after the loop, and reports the
    difference of those two timestamps, so that the measured interval
    covers exactly the last [arg.iters] calls. *)
Theorem timing_excludes_warm_up E arg :
  calls_succeed E ->
  arg_timing arg = true ->
  0 <= arg_cold_iters arg ->
  1 <= arg_iters arg ->
  arg_cold_iters arg + arg_iters arg <= INT_MAX ->
  (sizes_positive arg ->
   timed_section E arg (fst (run (testing_axpy_batched E arg)))) /\
  (sizes_positive arg ->
   timed_section E arg (fst (run (testing_copy_strided_batched E arg)))) /\
  timed_section E arg (fst (run (testing_rotmg E arg))) /\
  (geam_valid E arg -> 0 < arg_batch_count arg ->
   timed_section E arg (fst (run (testing_geam_batched E arg)))) /\
  (tpsv_valid arg ->
   timed_section E arg (fst (run (testing_tpsv_batched E arg)))).
Proof.
  intros Hs Ht Hc Hi Hsum. split; [|split; [|split; [|split]]].
  - apply axpy_timed; assumption.
  - apply copy_timed; assumption.
  - apply rotmg_timed; assumption.
  - apply geam_timed; assumption.
  - apply tpsv_timed; assumption.
Qed.

Lemma timing_excludes_warm_up_witness :
  timed_section all_ok arg0 (fst (run (testing_axpy_batched all_ok arg0))) /\
  timed_section all_ok arg0 (fst (run (testing_copy_strided_batched all_ok arg0))) /\
  timed_section all_ok arg0 (fst (run (testing_rotmg all_ok arg0))) /\
  timed_section all_ok arg0 (fst (run (testing_geam_batched all_ok arg0))) /\
  timed_section all_ok arg0 (fst (run (testing_tpsv_batched all_ok arg0))).
Proof.
  assert (Hc : 0 <= arg_cold_iters arg0) by (cbn; lia).
  assert (Hi : 1 <= arg_iters arg0) by (cbn; lia).
  assert (Hsum : arg_cold_iters arg0 + arg_iters arg0 <= INT_MAX)
    by (vm_compute; discriminate).
  destruct (timing_excludes_warm_up all_ok arg0 all_ok_succeeds eq_refl Hc Hi Hsum)
    as (H1 & H2 & H3 & H4 & H5).
  assert (Hs : sizes_positive arg0) by (unfold sizes_positive; cbn; lia).
  assert (Hg : geam_valid all_ok arg0) by (unfold geam_valid; cbn; lia).
  assert (Hv : tpsv_valid arg0) by (unfold tpsv_valid; cbn; lia).
  assert (Hb : 0 < arg_batch_count arg0) by (cbn; lia).
  split; [exact (H1 Hs)|]. split; [exact (H2 Hs)|]. split; [exact H3|].
  split; [exact (H4 Hg Hb)|exact (H5 Hv)].
Defined.

(** ** The triangular factor of [testing_tpsv_batched]: what the loops compute *)

Lemma Zseq_succ n : 0 <= n -> Zseq (n + 1) = Zseq n ++ [n].
Proof.
  intros Hn. unfold Zseq.
  replace (Z.to_nat (n + 1)) with (Z.to_nat n + 1)%nat by lia.
  rewrite seq_app, map_app. cbn. rewrite Z2Nat.id by lia. reflexivity.
Qed.

Lemma for_pure_succ {St} (body : Z -> St -> St) n s :
  0 <= n -> for_pure (n + 1) body s = body n (for_pure n body s).
Proof.
  intros Hn. unfold for_pure. rewrite Zseq_succ by exact Hn.
  rewrite fold_left_app. reflexivity.
Qed.

(** Loop invariants: what holds before the first turn and is kept by every
    turn holds after the last. *)
Lemma for_pure_invariant {St} (P : Z -> St -> Prop) (body : Z -> St -> St) n s :
  0 <= n -> P 0 s ->
  (forall i s, 0 <= i < n -> P i s -> P (i + 1) (body i s)) ->
  P n (for_pure n body s).
Proof.
  intros Hn H0 Hstep.
  assert (H : forall k : nat, Z.of_nat k <= n -> P (Z.of_nat k) (for_pure (Z.of_nat k) body s)).
  { induction k as [|k IH]; intros Hk.
    - exact H0.
    - replace (Z.of_nat (S k)) with (Z.of_nat k + 1) by lia.
      rewrite for_pure_succ by lia. apply Hstep; [lia|]. apply IH. lia. }
  specialize (H (Z.to_nat n)). rewrite Z2Nat.id in H by exact Hn. apply H. lia.
Qed.

Lemma idx_in_range i j N :
  0 <= i < N -> 0 <= j < N -> N * N <= INT_MAX -> idx i j N = i + j * N.
Proof.
  intros Hi Hj HN. unfold idx.
  assert (0 <= j * N <= INT_MAX) by nia.
  assert (0 <= i + j * N <= INT_MAX) by nia.
  unfold INT_MAX in *.
  rewrite (to_int_id (j * N)) by (unfold int_range, INT_MIN, INT_MAX; lia).
  apply to_int_id. unfold int_range, INT_MIN, INT_MAX. lia.
Qed.

Lemma idx_bound i j N :
  0 <= i < N -> 0 <= j < N -> N * N <= INT_MAX -> 0 <= idx i j N < N * N.
Proof. intros Hi Hj HN. rewrite idx_in_range by assumption. nia. Qed.

Lemma idx_inj i j i' j' N :
  0 <= i < N -> 0 <= j < N -> 0 <= i' < N -> 0 <= j' < N -> N * N <= INT_MAX ->
  idx i j N = idx i' j' N -> i = i' /\ j = j'.
Proof.
  intros Hi Hj Hi' Hj' HN. rewrite !idx_in_range by assumption. intros H.
  assert (j = j') by nia. subst j'. split; [lia | reflexivity].
Qed.

Section Arrays.

Context {T : Type}.
Variable zero : T.

Lemma length_set (a : list T) k v : length (set a k v) = length a.
Proof. apply length_insert. Qed.

Lemma get_set_eq (a : list T) k v :
  0 <= k < Z.of_nat (length a) -> get zero (set a k v) k = v.
Proof.
  intros Hk. unfold get, set. apply nth_lookup_Some, list_lookup_insert_eq. lia.
Qed.

Lemma get_set_ne (a : list T) k k' v :
  0 <= k -> 0 <= k' -> k <> k' -> get zero (set a k v) k' = get zero a k'.
Proof.
  intros Hk Hk' Hne. unfold get, set. rewrite !nth_lookup.
  rewrite list_lookup_insert_ne by lia. reflexivity.
Qed.

(** Writing entry (i, j) of a matrix changes that entry alone. *)
Lemma get_set_idx (a : list T) N i j i' j' v :
  N * N <= INT_MAX -> N * N <= Z.of_nat (length a) ->
  0 <= i < N -> 0 <= j < N -> 0 <= i' < N -> 0 <= j' < N ->
  get zero (set a (idx i j N) v) (idx i' j' N) =
  if (i' =? i) && (j' =? j) then v else get zero a (idx i' j' N).
Proof.
  intros HN Hlen Hi Hj Hi' Hj'.
  pose proof (idx_bound i j N Hi Hj HN) as Hb.
  pose proof (idx_bound i' j' N Hi' Hj' HN) as Hb'.
  destruct (Z.eqb_spec i' i) as [->|Hne]; [destruct (Z.eqb_spec j' j) as [->|Hne]|]; cbn.
  - apply get_set_eq. lia.
  - apply get_set_ne; [lia|lia|]. intros H.
    apply idx_inj in H; [|assumption..]. lia.
  - apply get_set_ne; [lia|lia|]. intros H.
    apply idx_inj in H; [|assumption..]. lia.
Qed.

End Arrays.

Section Factor.

Context {T : Type}.
Variable zero : T.
Variable add : T -> T -> T.
Variable abs : T -> T.
Variable div : T -> T -> T.

Lemma make_dominant_row_spec N AAT i hA :
  N * N <= INT_MAX -> N * N <= Z.of_nat (length hA) -> 0 <= i < N ->
  length (make_dominant_row zero add abs N AAT i hA) = length hA /\
  forall i' j', 0 <= i' < N -> 0 <= j' < N ->
    get zero (make_dominant_row zero add abs N AAT i hA) (idx i' j' N) =
    if i' =? i
    then if j' =? i then row_abs_sum zero add abs N AAT i else get zero AAT (idx i' j' N)
    else get zero hA (idx i' j' N).
Proof.
  intros HN Hlen Hi. unfold make_dominant_row.
  pose (P := fun (m : Z) (p : list T * T) =>
    length (fst p) = length hA /\
    snd p = for_pure m (fun j t => add t (abs (get zero AAT (idx i j N)))) zero /\
    forall i' j', 0 <= i' < N -> 0 <= j' < N ->
      get zero (fst p) (idx i' j' N) =
      if (i' =? i) && (j' <? m) then get zero AAT (idx i' j' N)
      else get zero hA (idx i' j' N)).
  match goal with
  | |- context [for_pure N ?body (hA, zero)] =>
      assert (Hinv : P N (for_pure N body (hA, zero)));
      [apply for_pure_invariant; [lia| |] |
       destruct (for_pure N body (hA, zero)) as [hA' t]]
  end.
  - split; [reflexivity|]. split; [reflexivity|]. intros i' j' Hi' Hj'.
    cbv beta iota delta [fst snd].
    replace (j' <? 0) with false by (symmetry; apply Z.ltb_ge; lia).
    rewrite andb_false_r. reflexivity.
  - intros j [a t] Hj Hp. unfold P in *. cbv beta iota delta [fst snd] in *.
    destruct Hp as (Hl & Ht & Hget).
    split; [rewrite length_set; exact Hl|]. split.
    + rewrite for_pure_succ by lia. rewrite <- Ht. reflexivity.
    + intros i' j' Hi' Hj'. rewrite get_set_idx by (assumption || lia).
      rewrite Hget by assumption.
      destruct (Z.eqb_spec i' i), (Z.eqb_spec j' j), (Z.ltb_spec j' j),
        (Z.ltb_spec j' (j + 1)); cbn; subst; try reflexivity; lia.
  - unfold P in Hinv. cbv beta iota delta [fst snd] in Hinv.
    destruct Hinv as (Hl & Ht & Hget).
    split; [rewrite length_set; exact Hl|].
    intros i' j' Hi' Hj'. rewrite get_set_idx by (assumption || lia).
    rewrite Hget by assumption. unfold row_abs_sum. rewrite <- Ht.
    destruct (Z.eqb_spec i' i), (Z.eqb_spec j' i), (Z.ltb_spec j' N); cbn;
      subst; try reflexivity; lia.
Qed.

(** Lines 114-123: after the loop, [hA] holds [AAT] off the diagonal and
    the sums of the absolute values of the rows of [AAT] on it. *)
Lemma make_dominant_spec N AAT hA :
  0 <= N -> N * N <= INT_MAX -> N * N <= Z.of_nat (length hA) ->
  length (make_dominant zero add abs N AAT hA) = length hA /\
  forall i j, 0 <= i < N -> 0 <= j < N ->
    get zero (make_dominant zero add abs N AAT hA) (idx i j N) =
    if j =? i then row_abs_sum zero add abs N AAT i else get zero AAT (idx i j N).
Proof.
  intros HN0 HN Hlen. unfold make_dominant.
  pose (P := fun (m : Z) (a : list T) =>
    length a = length hA /\
    forall i j, 0 <= i < N -> 0 <= j < N ->
      get zero a (idx i j N) =
      if i <? m
      then if j =? i then row_abs_sum zero add abs N AAT i else get zero AAT (idx i j N)
      else get zero hA (idx i j N)).
  assert (Hinv : P N (for_pure N (make_dominant_row zero add abs N AAT) hA)).
  { apply for_pure_invariant; [exact HN0| |].
    - split; [reflexivity|]. intros i j Hi Hj.
      replace (i <? 0) with false by (symmetry; apply Z.ltb_ge; lia). reflexivity.
    - intros i a Hi (Hl & Hget).
      destruct (make_dominant_row_spec N AAT i a HN ltac:(lia) Hi) as (Hl' & Hget').
      split; [congruence|]. intros i' j' Hi' Hj'.
      rewrite Hget', Hget by assumption.
      destruct (Z.eqb_spec i' i), (Z.ltb_spec i' i), (Z.ltb_spec i' (i + 1));
        subst; try reflexivity; lia. }
  destruct Hinv as (Hl & Hget). split; [exact Hl|].
  intros i j Hi Hj. rewrite Hget by assumption.
  destruct (Z.ltb_spec i N); [reflexivity | lia].
Qed.

End Factor.

Section Unit.

Context {T : Type}.
Variable zero : T.
Variable div : T -> T -> T.

Lemma unit_row_spec N i d (hA : list T) :
  N * N <= INT_MAX -> N * N <= Z.of_nat (length hA) -> 0 <= i < N ->
  let hA' := for_pure (int_add i 1)
               (fun j a => set a (idx i j N) (div (get zero a (idx i j N)) d)) hA in
  length hA' = length hA /\
  forall i' j', 0 <= i' < N -> 0 <= j' < N ->
    get zero hA' (idx i' j' N) =
    if (i' =? i) && (j' <=? i) then div (get zero hA (idx i' j' N)) d
    else get zero hA (idx i' j' N).
Proof.
  intros HN Hlen Hi hA'. subst hA'.
  assert (Hadd : int_add i 1 = i + 1).
  { apply to_int_id. unfold int_range, INT_MIN, INT_MAX in *. nia. }
  rewrite Hadd.
  pose (P := fun (m : Z) (a : list T) =>
    length a = length hA /\
    forall i' j', 0 <= i' < N -> 0 <= j' < N ->
      get zero a (idx i' j' N) =
      if (i' =? i) && (j' <? m) then div (get zero hA (idx i' j' N)) d
      else get zero hA (idx i' j' N)).
  match goal with
  | |- context [for_pure (i + 1) ?body hA] =>
      assert (Hinv : P (i + 1) (for_pure (i + 1) body hA));
      [apply for_pure_invariant; [lia| |] |]
  end.
  - split; [reflexivity|]. intros i' j' Hi' Hj'.
    replace (j' <? 0) with false by (symmetry; apply Z.ltb_ge; lia).
    rewrite andb_false_r. reflexivity.
  - intros j a Hj (Hl & Hget). split; [rewrite length_set; exact Hl|].
    intros i' j' Hi' Hj'. rewrite get_set_idx by (assumption || lia).
    rewrite !Hget by (assumption || lia).
    destruct (Z.eqb_spec i' i), (Z.eqb_spec j' j), (Z.ltb_spec j' j),
      (Z.ltb_spec j' (j + 1)), (Z.ltb_spec j j); cbn; subst;
      try reflexivity; try lia.
    rewrite Z.eqb_refl. cbn. reflexivity.
  - destruct Hinv as (Hl & Hget). split; [exact Hl|].
    intros i' j' Hi' Hj'. rewrite Hget by assumption.
    destruct (Z.ltb_spec j' (i + 1)), (Z.leb_spec j' i); try reflexivity; lia.
Qed.

Lemma unit_col_spec N j d (hA : list T) :
  N * N <= INT_MAX -> N * N <= Z.of_nat (length hA) -> 0 <= j < N ->
  let hA' := for_pure (int_add j 1)
               (fun i a => set a (idx i j N) (div (get zero a (idx i j N)) d)) hA in
  length hA' = length hA /\
  forall i' j', 0 <= i' < N -> 0 <= j' < N ->
    get zero hA' (idx i' j' N) =
    if (j' =? j) && (i' <=? j) then div (get zero hA (idx i' j' N)) d
    else get zero hA (idx i' j' N).
Proof.
  intros HN Hlen Hj hA'. subst hA'.
  assert (Hadd : int_add j 1 = j + 1).
  { apply to_int_id. unfold int_range, INT_MIN, INT_MAX in *. nia. }
  rewrite Hadd.
  pose (P := fun (m : Z) (a : list T) =>
    length a = length hA /\
    forall i' j', 0 <= i' < N -> 0 <= j' < N ->
      get zero a (idx i' j' N) =
      if (j' =? j) && (i' <? m) then div (get zero hA (idx i' j' N)) d
      else get zero hA (idx i' j' N)).
  match goal with
  | |- context [for_pure (j + 1) ?body hA] =>
      assert (Hinv : P (j + 1) (for_pure (j + 1) body hA));
      [apply for_pure_invariant; [lia| |] |]
  end.
  - split; [reflexivity|]. intros i' j' Hi' Hj'.
    replace (i' <? 0) with false by (symmetry; apply Z.ltb_ge; lia).
    rewrite andb_false_r. reflexivity.
  - intros i a Hi (Hl & Hget). split; [rewrite length_set; exact Hl|].
    intros i' j' Hi' Hj'. rewrite get_set_idx by (assumption || lia).
    rewrite !Hget by (assumption || lia).
    destruct (Z.eqb_spec i' i), (Z.eqb_spec j' j), (Z.ltb_spec i' i),
      (Z.ltb_spec i' (i + 1)), (Z.ltb_spec i i); cbn; subst;
      try reflexivity; try lia.
    rewrite Z.eqb_refl. cbn. reflexivity.
  - destruct Hinv as (Hl & Hget). split; [exact Hl|].
    intros i' j' Hi' Hj'. rewrite Hget by assumption.
    destruct (Z.ltb_spec i' (j + 1)), (Z.leb_spec i' j); try reflexivity; lia.
Qed.

(** Lines 132-137: entry (i, j) of the stored lower triangle, [j <= i],
    becomes the entry of the factor divided by the diagonal entry of its
    row; nothing else changes. *)
Lemma unit_diag_lower_spec N (F : list T) :
  0 <= N -> N * N <= INT_MAX -> N * N <= Z.of_nat (length F) ->
  length (unit_diag_lower zero div N F) = length F /\
  forall i j, 0 <= i < N -> 0 <= j < N ->
    get zero (unit_diag_lower zero div N F) (idx i j N) =
    if j <=? i then div (get zero F (idx i j N)) (get zero F (idx i i N))
    else get zero F (idx i j N).
Proof.
  intros HN0 HN Hlen. unfold unit_diag_lower.
  pose (P := fun (m : Z) (a : list T) =>
    length a = length F /\
    forall i j, 0 <= i < N -> 0 <= j < N ->
      get zero a (idx i j N) =
      if (i <? m) && (j <=? i)
      then div (get zero F (idx i j N)) (get zero F (idx i i N))
      else get zero F (idx i j N)).
  match goal with
  | |- context [for_pure N ?body F] =>
      assert (Hinv : P N (for_pure N body F));
      [apply for_pure_invariant; [exact HN0| |] |]
  end.
  - split; [reflexivity|]. intros i j Hi Hj.
    replace (i <? 0) with false by (symmetry; apply Z.ltb_ge; lia). reflexivity.
  - intros i a Hi (Hl & Hget). cbv zeta.
    destruct (unit_row_spec N i (get zero a (idx i i N)) a HN ltac:(lia) Hi)
      as (Hl' & Hget').
    split; [congruence|]. intros i' j' Hi' Hj'.
    rewrite Hget' by assumption. rewrite !Hget by assumption.
    destruct (Z.eqb_spec i' i), (Z.ltb_spec i' i), (Z.ltb_spec i' (i + 1)),
      (Z.leb_spec j' i'), (Z.ltb_spec i i); cbn; subst; try reflexivity; try lia.
    destruct (Z.leb_spec j' i); [reflexivity | lia].
    destruct (Z.leb_spec j' i); [lia | reflexivity].
  - destruct Hinv as (Hl & Hget). split; [exact Hl|].
    intros i j Hi Hj. rewrite Hget by assumption.
    destruct (Z.ltb_spec i N); [reflexivity | lia].
Qed.

(** Lines 139-144: entry (i, j) of the stored upper triangle, [i <= j],
    becomes the entry of the factor divided by the diagonal entry of its
    column; nothing else changes. *)
Lemma unit_diag_upper_spec N (F : list T) :
  0 <= N -> N * N <= INT_MAX -> N * N <= Z.of_nat (length F) ->
  length (unit_diag_upper zero div N F) = length F /\
  forall i j, 0 <= i < N -> 0 <= j < N ->
    get zero (unit_diag_upper zero div N F) (idx i j N) =
    if i <=? j then div (get zero F (idx i j N)) (get zero F (idx j j N))
    else get zero F (idx i j N).
Proof.
  intros HN0 HN Hlen. unfold unit_diag_upper.
  pose (P := fun (m : Z) (a : list T) =>
    length a = length F /\
    forall i j, 0 <= i < N -> 0 <= j < N ->
      get zero a (idx i j N) =
      if (j <? m) && (i <=? j)
      then div (get zero F (idx i j N)) (get zero F (idx j j N))
      else get zero F (idx i j N)).
  match goal with
  | |- context [for_pure N ?body F] =>
      assert (Hinv : P N (for_pure N body F));
      [apply for_pure_invariant; [exact HN0| |] |]
  end.
  - split; [reflexivity|]. intros i j Hi Hj.
    replace (j <? 0) with false by (symmetry; apply Z.ltb_ge; lia). reflexivity.
  - intros j a Hj (Hl & Hget). cbv zeta.
    destruct (unit_col_spec N j (get zero a (idx j j N)) a HN ltac:(lia) Hj)
      as (Hl' & Hget').
    split; [congruence|]. intros i' j' Hi' Hj'.
    rewrite Hget' by assumption. rewrite !Hget by assumption.
    destruct (Z.eqb_spec j' j), (Z.ltb_spec j' j), (Z.ltb_spec j' (j + 1)),
      (Z.leb_spec i' j'), (Z.ltb_spec j j); cbn; subst; try reflexivity; try lia.
    destruct (Z.leb_spec i' j); [reflexivity | lia].
    destruct (Z.leb_spec i' j); [lia | reflexivity].
  - destruct Hinv as (Hl & Hget). split; [exact Hl|].
    intros i j Hi Hj. rewrite Hget by assumption.
    destruct (Z.ltb_spec j N); [reflexivity | lia].
Qed.

End Unit.


Section Batch.

Context {T : Type}.
Variable zero one : T.
Variable add : T -> T -> T.
Variable abs : T -> T.
Variable div : T -> T -> T.
Variable ref_gemm :
  hipblasOperation_t -> hipblasOperation_t -> Z -> Z -> Z -> T -> list T -> Z ->
  list T -> Z -> T -> list T -> Z -> list T.
Variable ref_potrf : ascii -> Z -> list T -> Z -> list T.
Variable ref_trmv :
  hipblasFillMode_t -> hipblasOperation_t -> hipblasDiagType_t -> Z -> list T -> Z ->
  list T -> Z -> list T.
Variable ref_regular_to_packed : bool -> list T -> list T -> Z -> list T.
Variable E : externals.
Variable arg : Arguments.

(** The loop over the batch works on entry [b] in turn [b] and leaves the
    other entries alone. *)
Lemma tpsv_prepare_all_lookup (bufs : list tpsv_buffers) (b : nat) :
  tpsv_prepare_all zero one add abs div ref_gemm ref_potrf ref_trmv
    ref_regular_to_packed E arg bufs !! b =
  if Z.of_nat b <? arg_batch_count arg
  then tpsv_prepare zero one add abs div ref_gemm ref_potrf ref_trmv
         ref_regular_to_packed E arg <$> bufs !! b
  else bufs !! b.
Proof.
  unfold tpsv_prepare_all.
  destruct (Z.le_gt_cases 0 (arg_batch_count arg)) as [Hbc|Hbc].
  - revert b.
    match goal with
    | |- forall b, for_pure _ ?body bufs !! b = _ =>
        apply (for_pure_invariant
                 (fun m l => forall b : nat,
                    l !! b =
                    if Z.of_nat b <? m
                    then tpsv_prepare zero one add abs div ref_gemm ref_potrf ref_trmv
                           ref_regular_to_packed E arg <$> bufs !! b
                    else bufs !! b) body)
    end; [exact Hbc| |].
    + intros b. destruct (Z.ltb_spec (Z.of_nat b) 0); [lia | reflexivity].
    + intros i l Hi Hl b.
      pose proof (Hl (Z.to_nat i)) as Hi'.
      rewrite Z2Nat.id in Hi' by lia. rewrite Z.ltb_irrefl in Hi'.
      destruct (l !! Z.to_nat i) as [s|] eqn:Hs.
      * destruct (decide (b = Z.to_nat i)) as [->|Hne].
        -- rewrite list_lookup_insert_eq by (apply lookup_lt_is_Some; eauto).
           rewrite Z2Nat.id by lia. rewrite <- Hi'.
           destruct (Z.ltb_spec i (i + 1)); [reflexivity | lia].
        -- rewrite list_lookup_insert_ne by congruence. rewrite Hl.
           destruct (Z.ltb_spec (Z.of_nat b) i), (Z.ltb_spec (Z.of_nat b) (i + 1));
             try reflexivity; lia.
      * rewrite Hl.
        destruct (Z.ltb_spec (Z.of_nat b) i), (Z.ltb_spec (Z.of_nat b) (i + 1));
          try reflexivity; try lia.
        assert (b = Z.to_nat i) as -> by lia. rewrite <- Hi'. reflexivity.
  - unfold for_pure, Zseq. replace (Z.to_nat (arg_batch_count arg)) with 0%nat by lia.
    cbn. destruct (Z.ltb_spec (Z.of_nat b) (arg_batch_count arg)); [lia | reflexivity].
Qed.

End Batch.


(** ** Exact arithmetic: dominance and definiteness *)














(** ** The triangular factor: the claim *)





(** ** What every run does, whatever the libraries answer *)

Lemma all_events_blas_call E phi e : phi e -> respects (all_events phi) (blas_call E e).
Proof. intros He h. repeat constructor. exact He. Qed.

(** Settle the calls of a driver for a property of single events. *)
Ltac event_atom E solve :=
  first [ apply all_events_emit; solve
        | apply (all_events_double_call E); solve
        | apply (all_events_check_blas E); solve
        | apply (all_events_check_hip E); solve
        | apply (all_events_blas_call E); solve ].

Ltac events_walk E solve :=
  unfold_calls;
  repeat
    match goal with
    | |- respects _ (bind _ _) => apply respects_bind; [apply all_events_composes | | intro]
    | |- respects _ (ret _) => apply respects_ret; apply all_events_composes
    | |- respects _ (for_int _ _) =>
        apply respects_for_int; [apply all_events_composes | intro]
    | |- respects _ (for_int_fold _ _ _) =>
        apply respects_for_int_fold; [apply all_events_composes | intros]
    | |- respects _ (if ?b then _ else _) => destruct b
    | |- respects _ _ => event_atom E solve
    end.

Section EveryRun.

Variable E : externals.
Variable arg : Arguments.






End EveryRun.


Ltac settle := cbn; repeat split; intros; first [reflexivity | congruence].

Section ChecksOff.

Variable E : externals.
Variable arg : Arguments.
Hypothesis Hu : arg_unit_check arg = false.
Hypothesis Hn : arg_norm_check arg = false.

Lemma axpy_idle :
  respects (all_events (fun e => quiet arg e /\ is_reference e = false))
    (testing_axpy_batched E arg).
Proof.
  unfold testing_axpy_batched, quiet. cbv zeta. rewrite Hu, Hn. cbn [orb]. cbv iota.
  events_walk E settle.
Qed.

Lemma copy_idle :
  respects (all_events (fun e => quiet arg e /\ is_reference e = false))
    (testing_copy_strided_batched E arg).
Proof.
  unfold testing_copy_strided_batched, quiet. cbv zeta. rewrite Hu, Hn. cbn [orb]. cbv iota.
  events_walk E settle.
Qed.

Lemma rotmg_idle :
  respects (all_events (fun e => quiet arg e /\ is_reference e = false))
    (testing_rotmg E arg).
Proof.
  unfold testing_rotmg, quiet. cbv zeta. rewrite Hu, Hn. cbn [orb]. cbv iota.
  events_walk E settle.
Qed.

Lemma geam_idle :
  respects (all_events (fun e => quiet arg e /\ is_reference e = false))
    (testing_geam_batched E arg).
Proof.
  unfold testing_geam_batched, quiet. cbv zeta. rewrite Hu, Hn. cbn [orb]. cbv iota.
  events_walk E settle.
Qed.

Lemma tpsv_idle : respects (all_events (quiet arg)) (testing_tpsv_batched E arg).
Proof.
  unfold testing_tpsv_batched, quiet. cbv zeta. rewrite Hu, Hn. cbn [orb]. cbv iota.
  events_walk E settle.
Qed.

End ChecksOff.

(** X2: with [unit_check] and [norm_check] both off, no run of a test
    function compares anything, and when [timing] is off as well the
    routine under test is never called on data (the early returns call it
    with null pointers).  No CPU reference routine runs either, except in
    [testing_tpsv_batched], which uses them to build its inputs. *)
Theorem nothing_checked_unless_asked E arg :
  arg_unit_check arg = false ->
  arg_norm_check arg = false ->
  Forall (fun e => quiet arg e /\ is_reference e = false)
    (fst (run (testing_axpy_batched E arg))) /\
  Forall (fun e => quiet arg e /\ is_reference e = false)
    (fst (run (testing_copy_strided_batched E arg))) /\
  Forall (fun e => quiet arg e /\ is_reference e = false)
    (fst (run (testing_rotmg E arg))) /\
  Forall (fun e => quiet arg e /\ is_reference e = false)
    (fst (run (testing_geam_batched E arg))) /\
  Forall (quiet arg) (fst (run (testing_tpsv_batched E arg))).
Proof.
  intros Hu Hn. split; [|split; [|split; [|split]]].
  - apply (all_events_run _ _ (axpy_idle E arg Hu Hn)).
  - apply (all_events_run _ _ (copy_idle E arg Hu Hn)).
  - apply (all_events_run _ _ (rotmg_idle E arg Hu Hn)).
  - apply (all_events_run _ _ (geam_idle E arg Hu Hn)).
  - apply (all_events_run _ _ (tpsv_idle E arg Hu Hn)).
Qed.

Lemma nothing_checked_unless_asked_witness :
  Forall (quiet (with_switches false false false arg0))
    (fst (run (testing_tpsv_batched all_ok (with_switches false false false arg0)))).
Proof.
  apply (nothing_checked_unless_asked all_ok (with_switches false false false arg0));
    reflexivity.
Defined.

Section TimingOff.

Variable E : externals.
Variable arg : Arguments.
Hypothesis Ht : arg_timing arg = false.

Lemma axpy_untimed :
  respects (all_events (fun e => is_timing_step e = false)) (testing_axpy_batched E arg).
Proof.
  unfold testing_axpy_batched. cbv zeta. rewrite Ht. cbv iota.
  events_walk E settle.
Qed.

Lemma copy_untimed :
  respects (all_events (fun e => is_timing_step e = false))
    (testing_copy_strided_batched E arg).
Proof.
  unfold testing_copy_strided_batched. cbv zeta. rewrite Ht. cbv iota.
  events_walk E settle.
Qed.

Lemma rotmg_untimed :
  respects (all_events (fun e => is_timing_step e = false)) (testing_rotmg E arg).
Proof.
  unfold testing_rotmg. cbv zeta. rewrite Ht. cbv iota.
  events_walk E settle.
Qed.

Lemma geam_untimed :
  respects (all_events (fun e => is_timing_step e = false)) (testing_geam_batched E arg).
Proof.
  unfold testing_geam_batched. cbv zeta. rewrite Ht. cbv iota.
  events_walk E settle.
Qed.

Lemma tpsv_untimed :
  respects (all_events (fun e => is_timing_step e = false)) (testing_tpsv_batched E arg).
Proof.
  unfold testing_tpsv_batched. cbv zeta. rewrite Ht. cbv iota.
  events_walk E settle.
Qed.

End TimingOff.

(** X3: with [timing] off, no run of a test function asks for the stream,
    takes a time stamp or logs anything. *)
Theorem nothing_timed_unless_asked E arg :
  arg_timing arg = false ->
  Forall (fun e => is_timing_step e = false) (fst (run (testing_axpy_batched E arg))) /\
  Forall (fun e => is_timing_step e = false)
    (fst (run (testing_copy_strided_batched E arg))) /\
  Forall (fun e => is_timing_step e = false) (fst (run (testing_rotmg E arg))) /\
  Forall (fun e => is_timing_step e = false) (fst (run (testing_geam_batched E arg))) /\
  Forall (fun e => is_timing_step e = false) (fst (run (testing_tpsv_batched E arg))).
Proof.
  intros Ht. split; [|split; [|split; [|split]]].
  - apply (all_events_run _ _ (axpy_untimed E arg Ht)).
  - apply (all_events_run _ _ (copy_untimed E arg Ht)).
  - apply (all_events_run _ _ (rotmg_untimed E arg Ht)).
  - apply (all_events_run _ _ (geam_untimed E arg Ht)).
  - apply (all_events_run _ _ (tpsv_untimed E arg Ht)).
Qed.

Lemma nothing_timed_unless_asked_witness :
  Forall (fun e => is_timing_step e = false)
    (fst (run (testing_axpy_batched all_ok (with_switches true true false arg0)))).
Proof.
  apply (nothing_timed_unless_asked all_ok (with_switches true true false arg0)).
  reflexivity.
Defined.

(** ** Buffer sizes *)

Section Sizes.

Variable E : externals.
Variable arg : Arguments.


Lemma triangle_size n :
  0 <= n ->
  2 * (n * (n + 1) / 2) = n * (n + 1) /\ (1 <= n -> n * (n + 1) / 2 <= n * n).
Proof.
  intros Hn.
  assert (H : 2 * (n * (n + 1) / 2) = n * (n + 1)).
  { destruct (Z.Even_or_Odd n) as [[k ->]|[k ->]].
    - replace (2 * k * (2 * k + 1)) with (k * (2 * k + 1) * 2) by ring.
      rewrite Z.div_mul by lia. ring.
    - replace ((2 * k + 1) * (2 * k + 1 + 1)) with ((2 * k + 1) * (k + 1) * 2) by ring.
      rewrite Z.div_mul by lia. ring. }
  split; [exact H | nia].
Qed.

Lemma tpsv_allocs :
  arg_N arg < INT_MAX ->
  respects (all_events (tpsv_alloc_fits arg)) (testing_tpsv_batched E arg).
Proof.
  intros HN. unfold testing_tpsv_batched. cbv zeta.
  destruct (((arg_N arg <? 0) || (arg_incx arg =? 0) || (arg_batch_count arg <? 0))
            || (arg_N arg =? 0) || (arg_batch_count arg =? 0)) eqn:Hc.
  { events_walk E ltac:(exact I). }
  repeat (apply orb_false_elim in Hc; destruct Hc as [Hc ?]).
  assert (HNpos : 0 < arg_N arg).
  { assert (0 <= arg_N arg) by (apply Z.ltb_ge; assumption).
    assert (arg_N arg <> 0) by (apply Z.eqb_neq; assumption). lia. }
  assert (Hsucc : int_add (arg_N arg) 1 = arg_N arg + 1).
  { apply to_int_id. unfold int_range, INT_MIN, INT_MAX in *. lia. }
  rewrite Hsucc. unfold INT_MAX in HN.
  rewrite !size_t_mul_int by (unfold INT_MAX; lia).
  destruct (triangle_size (arg_N arg) ltac:(lia)) as [Heven Hle].
  events_walk E
    ltac:(cbn; first [ exact I | reflexivity
                     | eexists; split; [reflexivity|];
                       split; [exact Heven | apply Hle; lia] ]).
Qed.

Lemma copy_moves :
  respects (all_events (moves_whole_buffers E (copy_elements arg)))
    (testing_copy_strided_batched E arg).
Proof.
  unfold testing_copy_strided_batched. cbv zeta.
  events_walk E ltac:(cbn; first [exact I | reflexivity | split; reflexivity]).
Qed.

Lemma rotmg_moves :
  respects (all_events (moves_whole_buffers E (fun _ => 9))) (testing_rotmg E arg).
Proof.
  unfold testing_rotmg. cbv zeta.
  events_walk E ltac:(cbn; first [exact I | reflexivity
                                 | split; [reflexivity | unfold size_t_mul; f_equal; ring]]).
Qed.

End Sizes.



(** X5: for [N] below [INT_MAX], the buffers [testing_tpsv_batched]
    makes, in any run, have [N * N] elements for each batch entry for the
    full matrices and [N * (N + 1) / 2] for the packed ones, computed
    without wrap-around: exactly the number of entries of a triangle, and
    no more than the full matrix has. *)
Theorem tpsv_buffers_hold_the_triangle E arg :
  arg_N arg < INT_MAX ->
  Forall (tpsv_alloc_fits arg) (fst (run (testing_tpsv_batched E arg))).
Proof. intros HN. apply (all_events_run _ _ (tpsv_allocs E arg HN)). Qed.

Lemma tpsv_buffers_hold_the_triangle_witness :
  Forall (tpsv_alloc_fits arg0) (fst (run (testing_tpsv_batched all_ok arg0))).
Proof. apply (tpsv_buffers_hold_the_triangle all_ok arg0). reflexivity. Defined.

(** X6: in any run of [testing_copy_strided_batched] and of
    [testing_rotmg], every [hipMemcpy] moves [sizeof(T)] times the number
    of elements both its buffers were made with: [sizeX] for [x], [sizeY]
    for [y], nine for the parameters of [rotmg]. *)
Theorem copies_move_whole_buffers E arg :
  Forall (moves_whole_buffers E (copy_elements arg))
    (fst (run (testing_copy_strided_batched E arg))) /\
  Forall (moves_whole_buffers E (fun _ => 9)) (fst (run (testing_rotmg E arg))).
Proof.
  split.
  - apply (all_events_run _ _ (copy_moves E arg)).
  - apply (all_events_run _ _ (rotmg_moves E arg)).
Qed.

(** ** A failing call only cuts a run short *)

Section CutShort.

Context {A B : Type}.

Lemma cut_short_bind (m m' : io A) (f f' : A -> io B) :
  cut_short_of m m' -> (forall a, cut_short_of (f a) (f' a)) ->
  cut_short_of (bind m f) (bind m' f').
Proof.
  intros Hm Hf h. specialize (Hm h). rewrite !bind_unfold.
  destruct (snd (m h)) as [a|x] eqn:Hr.
  - rewrite Hm, Hr. specialize (Hf a (h ++ fst (m h))).
    destruct (snd (f a (h ++ fst (m h)))) as [b|y] eqn:Hr'.
    + rewrite Hf, Hr'. reflexivity.
    + destruct Hf as [rest Hrest]. exists rest. cbn [fst].
      rewrite Hrest, app_assoc. reflexivity.
  - destruct Hm as [rest Hrest]. cbn [fst].
    destruct (snd (m' h)); cbn [fst]; rewrite Hrest, <- ?app_assoc; eexists; reflexivity.
Qed.

Lemma cut_short_refl (m : io A) : cut_short_of m m.
Proof. intros h. destruct (snd (m h)); [reflexivity|]. exists []. symmetry. apply app_nil_r. Qed.

End CutShort.

Lemma cut_short_for_range {St} (body body' : Z -> St -> io St) :
  (forall i s, cut_short_of (body i s) (body' i s)) ->
  forall count lo s, cut_short_of (for_range lo count body s) (for_range lo count body' s).
Proof.
  intros Hb. induction count as [|c IH]; intros lo s; cbn [for_range].
  - apply cut_short_refl.
  - apply cut_short_bind; [apply Hb | intro; apply IH].
Qed.

Lemma cut_short_check_blas E e :
  cut_short_of (CHECK_HIPBLAS_ERROR (blas_call E e))
    (CHECK_HIPBLAS_ERROR (blas_call (calm E) e)).
Proof.
  intros h. unfold CHECK_HIPBLAS_ERROR, bind, blas_call. cbn.
  destruct (blas_status E (h ++ [e])); cbn; [reflexivity | exists []; reflexivity ..].
Qed.

Lemma cut_short_check_hip E e :
  cut_short_of (CHECK_HIP_ERROR (hip_call E e)) (CHECK_HIP_ERROR (hip_call (calm E) e)).
Proof.
  intros h. unfold CHECK_HIP_ERROR, bind, hip_call. cbn.
  destruct (hip_status E (h ++ [e])); cbn; [reflexivity | exists []; reflexivity].
Qed.

Lemma cut_short_double_call E e : cut_short_of (double_call E e) (double_call (calm E) e).
Proof. intros h. reflexivity. Qed.

Lemma cut_short_run {A} (m m' : io A) :
  cut_short_of m m' -> only_cut_short (run m) (run m').
Proof.
  intros H. specialize (H []). unfold run, only_cut_short.
  destruct (snd (m [])) as [a|x] eqn:Hr.
  - rewrite H. split; [exists []; symmetry; apply app_nil_r | reflexivity].
  - split; [exact H | discriminate].
Qed.

Ltac cut_short_walk :=
  unfold_calls;
  cbn [calm sizeof_T char2hipblas_operation char2hipblas_fill char2hipblas_diagonal];
  repeat
    match goal with
    | |- cut_short_of (bind _ _) (bind _ _) => apply cut_short_bind; [|intro]
    | |- cut_short_of (if ?b then _ else _) (if ?b then _ else _) => destruct b
    | |- cut_short_of (for_int _ _) (for_int _ _) =>
        unfold for_int, for_int_fold; apply cut_short_for_range; intros
    | |- cut_short_of (for_int_fold _ _ _) (for_int_fold _ _ _) =>
        unfold for_int_fold; apply cut_short_for_range; intros
    | |- cut_short_of (CHECK_HIPBLAS_ERROR _) _ => apply cut_short_check_blas
    | |- cut_short_of (CHECK_HIP_ERROR _) _ => apply cut_short_check_hip
    | |- cut_short_of (double_call _ _) _ => apply cut_short_double_call
    | |- cut_short_of _ _ => apply cut_short_refl
    end.

Section Prefix.

Variable E : externals.
Variable arg : Arguments.

Lemma axpy_cut_short :
  cut_short_of (testing_axpy_batched E arg) (testing_axpy_batched (calm E) arg).
Proof. unfold testing_axpy_batched. cbv zeta. cut_short_walk. Qed.

Lemma copy_cut_short :
  cut_short_of (testing_copy_strided_batched E arg)
    (testing_copy_strided_batched (calm E) arg).
Proof. unfold testing_copy_strided_batched. cbv zeta. cut_short_walk. Qed.

Lemma rotmg_cut_short :
  cut_short_of (testing_rotmg E arg) (testing_rotmg (calm E) arg).
Proof. unfold testing_rotmg. cbv zeta. cut_short_walk. Qed.

Lemma geam_cut_short :
  cut_short_of (testing_geam_batched E arg) (testing_geam_batched (calm E) arg).
Proof. unfold testing_geam_batched. cbv zeta. cut_short_walk. Qed.

Lemma tpsv_cut_short :
  tpsv_valid arg ->
  cut_short_of (testing_tpsv_batched E arg) (testing_tpsv_batched (calm E) arg).
Proof.
  intros Hv. unfold testing_tpsv_batched. cbv zeta.
  rewrite (tpsv_condition_false arg Hv). cut_short_walk.
Qed.

End Prefix.

(** X7: a failing library call only cuts a run short.  Whatever the
    libraries answer, what a test function does up to the end of its run
    is the beginning of what it does when every call answers with
    success, and a run that came to its end is that run.  (For
    [testing_tpsv_batched] this is for arguments it does not return early
    on: on its early return the status of the library is part of what it
    asserts.) *)
Theorem failures_only_cut_short E arg :
  only_cut_short (run (testing_axpy_batched E arg))
    (run (testing_axpy_batched (calm E) arg)) /\
  only_cut_short (run (testing_copy_strided_batched E arg))
    (run (testing_copy_strided_batched (calm E) arg)) /\
  only_cut_short (run (testing_rotmg E arg)) (run (testing_rotmg (calm E) arg)) /\
  only_cut_short (run (testing_geam_batched E arg))
    (run (testing_geam_batched (calm E) arg)) /\
  (tpsv_valid arg ->
   only_cut_short (run (testing_tpsv_batched E arg))
     (run (testing_tpsv_batched (calm E) arg))).
Proof.
  split; [|split; [|split; [|split]]].
  - apply cut_short_run, axpy_cut_short.
  - apply cut_short_run, copy_cut_short.
  - apply cut_short_run, rotmg_cut_short.
  - apply cut_short_run, geam_cut_short.
  - intros Hv. apply cut_short_run, tpsv_cut_short, Hv.
Qed.

Lemma failures_only_cut_short_witness :
  only_cut_short (run (testing_tpsv_batched rejecting arg0))
    (run (testing_tpsv_batched (calm rejecting) arg0)).
Proof.
  apply (failures_only_cut_short rejecting arg0).
  unfold tpsv_valid. cbn. lia.
Defined.

(** ** The pointer mode *)

Lemma mode_after_snoc h e :
  mode_after (h ++ [e]) =
  match e with SetPointerMode m => Some m | _ => mode_after h end.
Proof.
  unfold mode_after. rewrite fold_left_app. cbn [fold_left].
  destruct e; reflexivity.
Qed.

Lemma mode_after_kept h es :
  Forall (fun e => is_set_mode e = false) es -> mode_after (h ++ es) = mode_after h.
Proof.
  intros H. revert h. induction H as [|e es He _ IH]; intros h.
  - rewrite app_nil_r. reflexivity.
  - change (e :: es) with ([e] ++ es). rewrite app_assoc, IH, mode_after_snoc.
    destruct e; try reflexivity. discriminate He.
Qed.

Lemma moded_quiet {A} mode (m : io A) :
  respects (all_events (keeps_mode mode)) m -> moded mode m.
Proof.
  intros H h Hh p e q Heq. specialize (H h). unfold all_events in H.
  rewrite Heq in H. apply Forall_app in H. destruct H as [Hp Hq].
  apply Forall_cons_1 in Hq. destruct Hq as [[_ He] _].
  rewrite mode_after_kept, Hh; [exact He|].
  eapply Forall_weaken; [|exact Hp]. intros x [Hx _]. exact Hx.
Qed.

Lemma moded_bind_any {A B} mode (m : io A) (f : A -> io B) :
  moded mode m -> (forall a mode', moded mode' (f a)) -> moded mode (bind m f).
Proof.
  intros Hm Hf h Hh p e q. rewrite bind_unfold.
  destruct (snd (m h)) as [a|x]; cbn [fst]; [|apply Hm; exact Hh].
  intros Heq. apply app_eq_app in Heq. destruct Heq as [l [[Hes1 Hl]|[Hp Hes2]]].
  - destruct l as [|e' l'].
    + cbn in Hl. rewrite app_nil_r in Hes1. subst p.
      pose proof (Hf a _ (h ++ fst (m h)) eq_refl [] e q) as H.
      rewrite app_nil_r in H. apply H. symmetry. exact Hl.
    + injection Hl as <- _. apply (Hm h Hh p e l'). exact Hes1.
  - subst p. rewrite app_assoc.
    apply (Hf a _ (h ++ fst (m h)) eq_refl l e q). exact Hes2.
Qed.

Lemma moded_bind_quiet {A B} mode (m : io A) (f : A -> io B) :
  respects (all_events (keeps_mode mode)) m -> (forall a, moded mode (f a)) ->
  moded mode (bind m f).
Proof.
  intros Hm Hf h Hh p e q. rewrite bind_unfold.
  pose proof (Hm h) as Hall. unfold all_events in Hall.
  destruct (snd (m h)) as [a|x]; cbn [fst];
    [|intros Heq; apply (moded_quiet _ _ Hm h Hh p e q Heq)].
  assert (Hkeep : mode_after (h ++ fst (m h)) = mode).
  { rewrite mode_after_kept, Hh; [reflexivity|].
    eapply Forall_weaken; [|exact Hall]. intros x [Hx _]. exact Hx. }
  intros Heq. apply app_eq_app in Heq. destruct Heq as [l [[Hes1 Hl]|[Hp Hes2]]].
  - destruct l as [|e' l'].
    + cbn in Hl. rewrite app_nil_r in Hes1. subst p.
      pose proof (Hf a (h ++ fst (m h)) Hkeep [] e q) as H.
      rewrite app_nil_r in H. apply H. symmetry. exact Hl.
    + injection Hl as <- _. apply (moded_quiet _ _ Hm h Hh p e l'). exact Hes1.
  - subst p. rewrite app_assoc.
    apply (Hf a (h ++ fst (m h)) Hkeep l e q). exact Hes2.
Qed.

Lemma moded_bind_set {B} E mode mode' (f : unit -> io B) :
  (forall a, moded (Some mode') (f a)) ->
  moded mode (bind (CHECK_HIPBLAS_ERROR (blas_call E (SetPointerMode mode'))) f).
Proof.
  intros Hf h Hh p e q. rewrite bind_unfold.
  assert (Hev : fst (CHECK_HIPBLAS_ERROR (blas_call E (SetPointerMode mode')) h)
                = [SetPointerMode mode']).
  { unfold CHECK_HIPBLAS_ERROR, bind, blas_call.
    destruct (blas_status E (h ++ [SetPointerMode mode'])); reflexivity. }
  assert (Hfit : forall m, mode_fits m (SetPointerMode mode')).
  { intros m. split; intros H; discriminate H. }
  destruct (snd (CHECK_HIPBLAS_ERROR (blas_call E (SetPointerMode mode')) h)) as [a|x];
    cbn [fst]; rewrite Hev.
  - intros Heq. destruct p as [|x p].
    + injection Heq as <- _. apply Hfit.
    + injection Heq as <- Heq.
      change (h ++ SetPointerMode mode' :: p) with (h ++ [SetPointerMode mode'] ++ p).
      rewrite app_assoc.
      apply (Hf a (h ++ [SetPointerMode mode']) (mode_after_snoc _ _) p e q Heq).
  - intros Heq. destruct p as [|x' p].
    + injection Heq as <- _. apply Hfit.
    + injection Heq as _ Heq. destruct p; discriminate Heq.
Qed.

Lemma moded_run {A} (m : io A) : moded None m -> pointer_mode_respected (fst (run m)).
Proof. intros H p e q Heq. apply (H [] eq_refl p e q Heq). Qed.

Ltac keeps_mode_settle :=
  cbn; split; [reflexivity | split; intros H; first [discriminate H | reflexivity]].

Ltac quiet_block E :=
  solve [events_walk E keeps_mode_settle].

Ltac moded_walk E :=
  unfold_calls;
  repeat
    match goal with
    | |- forall _, _ => intro
    | |- moded _ (bind (CHECK_HIPBLAS_ERROR (blas_call _ (SetPointerMode _))) _) =>
        apply moded_bind_set
    | |- moded _ (if ?b then _ else _) => destruct b
    | |- moded _ (bind _ _) =>
        first [ apply moded_bind_quiet; [quiet_block E |]
              | apply moded_bind_any ]
    | |- moded _ _ => apply moded_quiet; quiet_block E
    end.

Section Modes.

Variable E : externals.
Variable arg : Arguments.

Lemma axpy_moded : moded None (testing_axpy_batched E arg).
Proof. unfold testing_axpy_batched. cbv zeta. moded_walk E. Qed.

Lemma copy_moded : moded None (testing_copy_strided_batched E arg).
Proof. unfold testing_copy_strided_batched. cbv zeta. moded_walk E. Qed.

Lemma rotmg_moded : moded None (testing_rotmg E arg).
Proof. unfold testing_rotmg. cbv zeta. moded_walk E. Qed.

Lemma geam_moded : moded None (testing_geam_batched E arg).
Proof. unfold testing_geam_batched. cbv zeta. moded_walk E. Qed.

Lemma tpsv_moded : moded None (testing_tpsv_batched E arg).
Proof. unfold testing_tpsv_batched. cbv zeta. moded_walk E. Qed.

End Modes.

(** X8: in every run, whatever the libraries answer, the pointer mode
    set on the handle matches where the scalar arguments live: the
    routine under test is passed a host pointer only while host pointer
    mode is in force, and a device buffer holding a scalar ([d_alpha],
    [d_beta], the parameters of [rotmg]) only while device pointer mode
    is. *)
Theorem pointer_mode_matches_scalars E arg :
  pointer_mode_respected (fst (run (testing_axpy_batched E arg))) /\
  pointer_mode_respected (fst (run (testing_copy_strided_batched E arg))) /\
  pointer_mode_respected (fst (run (testing_rotmg E arg))) /\
  pointer_mode_respected (fst (run (testing_geam_batched E arg))) /\
  pointer_mode_respected (fst (run (testing_tpsv_batched E arg))).
Proof.
  split; [|split; [|split; [|split]]]; apply moded_run.
  - apply axpy_moded.
  - apply copy_moded.
  - apply rotmg_moded.
  - apply geam_moded.
  - apply tpsv_moded.
Qed.

(** ** The steps of a run without failures *)

Lemma filter_flat_map {A B} (p : B -> bool) (f : A -> list B) (L : list A) :
  List.filter p (flat_map f L) = flat_map (fun i => List.filter p (f i)) L.
Proof.
  induction L as [|x L IH]; cbn [flat_map]; [reflexivity|].
  rewrite List.filter_app, IH. reflexivity.
Qed.

Lemma flat_map_nil {A B} (L : list A) : flat_map (fun _ => @nil B) L = [].
Proof. induction L; cbn; auto. Qed.

Lemma filter_none {A} (p : A -> bool) (l : list A) :
  Forall (fun x => p x = false) l -> List.filter p l = [].
Proof.
  intros H. induction H as [|x l Hx _ IH]; cbn [List.filter]; [reflexivity|].
  rewrite Hx. exact IH.
Qed.

Lemma bind_runs {A B} (m : io A) (f : A -> io B) h es a :
  runs_to m h es a ->
  bind m f h = (es ++ fst (f a (h ++ es)), snd (f a (h ++ es))).
Proof. unfold runs_to. intros H. rewrite bind_unfold, H. reflexivity. Qed.

Section TimedCalls.

Variable E : externals.
Hypothesis all_succeed : calls_succeed E.
Variable arg : Arguments.
Variable call : event.
Hypothesis Hcall : is_blas_call call = true.

Lemma timing_range_calls count :
  forall lo t h,
    List.filter is_blas_call
      (fst (for_range lo count (timing_iteration E arg (blas_call E call)) t h))
    = repeat call count /\
    exists t', snd (for_range lo count (timing_iteration E arg (blas_call E call)) t h) = Ok t'.
Proof.
  induction count as [|c IH]; intros lo t h; cbn [for_range repeat].
  - split; [reflexivity | eexists; reflexivity].
  - destruct (Z.eq_dec lo (arg_cold_iters arg)) as [->|Hne].
    + rewrite (bind_runs _ _ _ _ _ (timing_body_cold E all_succeed arg call t h)).
      cbn [fst snd].
      destruct (IH (arg_cold_iters arg + 1) (Some (measured E (h ++ [Timestamp])))
                  (h ++ [Timestamp; call])) as [Hf [t' Ht']].
      rewrite Ht'. cbn [fst snd]. split; [|eexists; reflexivity].
      cbn [app List.filter is_blas_call]. rewrite Hcall, Hf. reflexivity.
    + rewrite (bind_runs _ _ _ _ _ (timing_body_other E all_succeed arg call lo t h Hne)).
      cbn [fst snd].
      destruct (IH (lo + 1) t (h ++ [call])) as [Hf [t' Ht']].
      rewrite Ht'. cbn [fst snd]. split; [|eexists; reflexivity].
      cbn [app List.filter]. rewrite Hcall, Hf. reflexivity.
Qed.

(** The timing loop calls the routine [cold_iters + iters] times, whatever
    the two counts are. *)
Lemma timing_loop_calls t0 h :
  List.filter is_blas_call (fst (timing_loop E arg (blas_call E call) t0 h))
  = repeat call (timed_runs arg).
Proof.
  unfold timing_loop, for_int_fold, timed_runs. rewrite bind_unfold.
  destruct (timing_range_calls (Z.to_nat (int_add (arg_cold_iters arg) (arg_iters arg)))
              0 t0 h) as [Hf [t' Ht']].
  rewrite Ht'. cbn [fst snd]. rewrite List.filter_app, Hf.
  unfold get_time_us_sync. cbn. apply app_nil_r.
Qed.

End TimedCalls.

Lemma timing_events_no_reference l :
  Forall (fun e => is_timing_event e = true) l -> List.filter is_reference l = [].
Proof.
  intros H. apply filter_none. eapply Forall_weaken; [|exact H].
  intros e He. destruct e; try discriminate He; reflexivity.
Qed.

Lemma timing_events_no_check l :
  Forall (fun e => is_timing_event e = true) l -> List.filter is_check l = [].
Proof.
  intros H. apply filter_none. eapply Forall_weaken; [|exact H].
  intros e He. destruct e; try discriminate He; reflexivity.
Qed.

Lemma compare_events_no_call l :
  Forall (fun e => is_compare e = true) l -> List.filter is_blas_call l = [].
Proof.
  intros H. apply filter_none. eapply Forall_weaken; [|exact H].
  intros e He. destruct e; try discriminate He; reflexivity.
Qed.

Lemma compare_events_no_reference l :
  Forall (fun e => is_compare e = true) l -> List.filter is_reference l = [].
Proof.
  intros H. apply filter_none. eapply Forall_weaken; [|exact H].
  intros e He. destruct e; try discriminate He; reflexivity.
Qed.

(** Forget what the check loop of [testing_tpsv_batched] did, but for the
    kind of events it made. *)
Ltac forget_check_loop :=
  repeat match goal with
         | |- context [for_int_fold ?bc (tpsv_check_batch ?E ?a) ?s ?h] =>
             let x := fresh "loop" in
             let Hx := fresh "Hcheck" in
             pose proof (respects_for_int_fold _ (tpsv_check_batch E a) bc s
                           (all_events_composes _) (tpsv_check_respects E a) h) as Hx;
             unfold all_events in Hx;
             set (x := for_int_fold bc (tpsv_check_batch E a) s h) in *; clearbody x
         end.

(** Forget what the timing loop did, but for the calls it made. *)
Ltac forget_timing_calls Hs :=
  repeat match goal with
         | |- context [timing_loop ?a ?b (blas_call ?a ?c) ?d ?h] =>
             let x := fresh "loop" in
             let Hx := fresh "Hloop" in
             let Hy := fresh "Hcalls" in
             pose proof (timing_loop_events a b c d h eq_refl) as Hx;
             pose proof (timing_loop_calls a Hs b c eq_refl d h) as Hy;
             set (x := timing_loop a b (blas_call a c) d h) in *; clearbody x
         | |- context [measured ?a ?h] =>
             let x := fresh "m" in set (x := measured a h); clearbody x
         end.

Ltac filter_steps :=
  unfold routine_calls, reference_calls, checks;
  repeat first
    [ progress cbn [List.filter is_blas_call is_reference is_check app]
    | rewrite List.filter_app
    | rewrite filter_flat_map
    | rewrite flat_map_nil
    | match goal with
      | H : List.filter is_blas_call (fst ?l) = _ |- context [List.filter is_blas_call (fst ?l)] =>
          rewrite H
      | H : Forall (fun e => is_timing_event e = true) (fst ?l)
        |- context [List.filter is_reference (fst ?l)] =>
          rewrite (timing_events_no_reference _ H)
      | H : Forall (fun e => is_timing_event e = true) (fst ?l)
        |- context [List.filter is_check (fst ?l)] =>
          rewrite (timing_events_no_check _ H)
      | H : Forall (fun e => is_compare e = true) (fst ?l)
        |- context [List.filter is_blas_call (fst ?l)] =>
          rewrite (compare_events_no_call _ H)
      | H : Forall (fun e => is_compare e = true) (fst ?l)
        |- context [List.filter is_reference (fst ?l)] =>
          rewrite (compare_events_no_reference _ H)
      end ];
  rewrite ?app_nil_r.

Section Steps.

Variable E : externals.
Hypothesis Hs : calls_succeed E.
Variable arg : Arguments.

Lemma axpy_steps :
  sizes_positive arg ->
  let tr := fst (run (testing_axpy_batched E arg)) in
  let in_device_mode := axpy_call arg (device_ptr "d_alpha" 0) (device_ptr "dy_device" 0) in
  let in_host_mode := axpy_call arg (host_ptr "alpha" 0) (device_ptr "dy_host" 0) in
  routine_calls tr = calls_expected arg [in_device_mode; in_host_mode] in_device_mode /\
  reference_calls tr = references_expected arg "cblas_axpy" ["hx_cpu"; "hy_cpu"] /\
  checks tr =
    checks_expected arg
      [UnitCheck "hy_cpu" "hy_host"; UnitCheck "hy_cpu" "hy_device"]
      [NormCheck "hy_cpu" "hy_host"; NormCheck "hy_cpu" "hy_device"].
Proof.
  intros Hv. cbv zeta.
  unfold calls_expected, references_expected, checks_expected, checked.
  unfold run, testing_axpy_batched. cbv zeta.
  rewrite (sizes_condition_false arg Hv).
  destruct (arg_unit_check arg), (arg_norm_check arg), (arg_timing arg);
    cbn [orb]; unfold_calls; fold (timing_loop E);
    synthesize E Hs ltac:(apply (timing_loop_total E Hs)); forget_timing_calls Hs; tidy.
  all: split; [filter_steps; reflexivity|].
  all: split; filter_steps; reflexivity.
Qed.

Lemma copy_steps :
  sizes_positive arg ->
  let tr := fst (run (testing_copy_strided_batched E arg)) in
  routine_calls tr = calls_expected arg [copy_call arg] (copy_call arg) /\
  reference_calls tr = references_expected arg "cblas_copy" ["hx_cpu"; "hy_cpu"] /\
  checks tr = checks_expected arg [UnitCheck "hy_cpu" "hy"] [NormCheck "hy_cpu" "hy"].
Proof.
  intros Hv. cbv zeta.
  unfold calls_expected, references_expected, checks_expected, checked.
  unfold run, testing_copy_strided_batched. cbv zeta.
  rewrite (sizes_condition_false arg Hv).
  destruct (arg_unit_check arg), (arg_norm_check arg), (arg_timing arg);
    cbn [orb]; unfold_calls; fold (timing_loop E);
    synthesize E Hs ltac:(apply (timing_loop_total E Hs)); forget_timing_calls Hs; tidy.
  all: split; [filter_steps; reflexivity|].
  all: split; filter_steps; reflexivity.
Qed.

Lemma rotmg_steps :
  let tr := fst (run (testing_rotmg E arg)) in
  let in_host_mode := rotmg_call arg (host_ptr "hparams") in
  let in_device_mode := rotmg_call arg (device_ptr "dparams") in
  routine_calls tr = calls_expected arg [in_host_mode; in_device_mode] in_device_mode /\
  reference_calls tr =
    (if checked arg then [Reference "cblas_rotmg" 0 ["cparams"]] else []) /\
  checks tr =
    checks_expected arg
      [NearCheck "cparams" "hparams" 1000; NearCheck "cparams" "hparams_d" 1000]
      [NormCheck "cparams" "hparams"; NormCheck "cparams" "hparams_d"].
Proof.
  cbv zeta.
  unfold calls_expected, references_expected, checks_expected, checked.
  unfold run, testing_rotmg. cbv zeta.
  destruct (arg_unit_check arg), (arg_norm_check arg), (arg_timing arg);
    cbn [orb]; unfold_calls; fold (timing_loop E);
    synthesize E Hs ltac:(apply (timing_loop_total E Hs)); forget_timing_calls Hs; tidy.
  all: split; [filter_steps; reflexivity|].
  all: split; filter_steps; reflexivity.
Qed.

Lemma geam_steps :
  geam_valid E arg -> 0 < arg_batch_count arg ->
  let tr := fst (run (testing_geam_batched E arg)) in
  let in_host_mode := geam_call E arg (host_ptr "h_alpha" 0) (host_ptr "h_beta" 0) in
  let in_device_mode := geam_call E arg (device_ptr "d_alpha" 0) (device_ptr "d_beta" 0) in
  routine_calls tr = calls_expected arg [in_host_mode; in_device_mode] in_device_mode /\
  reference_calls tr = references_expected arg "cblas_geam" ["hA"; "hB"; "hC_copy"] /\
  checks tr =
    checks_expected arg
      [UnitCheck "hC_copy" "hC1"; UnitCheck "hC_copy" "hC2"]
      [NormCheck "hC_copy" "hC1"; NormCheck "hC_copy" "hC2"].
Proof.
  intros Hv Hbc. cbv zeta.
  unfold calls_expected, references_expected, checks_expected, checked.
  unfold run, testing_geam_batched. cbv zeta.
  fold (geam_A_row E arg) (geam_B_row E arg).
  rewrite (geam_condition_false E arg Hv).
  replace (arg_batch_count arg =? 0) with false by (symmetry; apply Z.eqb_neq; lia).
  destruct (arg_unit_check arg), (arg_norm_check arg), (arg_timing arg);
    cbn [orb]; unfold_calls; fold (timing_loop E);
    synthesize E Hs ltac:(apply (timing_loop_total E Hs)); forget_timing_calls Hs; tidy.
  all: split; [filter_steps; reflexivity|].
  all: split; filter_steps; reflexivity.
Qed.

Lemma tpsv_steps :
  tpsv_valid arg ->
  let tr := fst (run (testing_tpsv_batched E arg)) in
  routine_calls tr = calls_expected arg [tpsv_call E arg] (tpsv_call E arg) /\
  reference_calls tr =
    flat_map (fun b => [Reference "cblas_gemm" b ["hA"; "hA"; "AAT"];
                        Reference "cblas_potrf" b ["hA"];
                        Reference "cblas_trmv" b ["hA"; "hb"]])
      (Zseq (arg_batch_count arg)).
Proof.
  intros Hv. cbv zeta. unfold calls_expected, checked.
  unfold run, testing_tpsv_batched. cbv zeta.
  rewrite (tpsv_condition_false arg Hv).
  unfold_calls; fold (timing_loop E); fold (tpsv_check_batch E arg).
  destruct (arg_unit_check arg || arg_norm_check arg), (arg_timing arg);
    synthesize E Hs ltac:(first [apply (timing_loop_total E Hs) | apply tpsv_check_total]);
    forget_timing_calls Hs; forget_check_loop; tidy.
  all: split; filter_steps; reflexivity.
Qed.

End Steps.

(** X9: when no call fails and the arguments pass the initial checks, the
    routine under test is called in the check step, if a check is asked
    for, and then [cold_iters + iters] times (added in [int]) in the
    timing loop, if timing is, and at no other time.  The timed call is
    the very call of the check step, in [testing_axpy_batched],
    [testing_geam_batched] and [testing_rotmg] the one made in device
    pointer mode. *)
Theorem timed_call_is_the_checked_call E arg :
  calls_succeed E ->
  (sizes_positive arg ->
   routine_calls (fst (run (testing_axpy_batched E arg))) =
   calls_expected arg
     [axpy_call arg (device_ptr "d_alpha" 0) (device_ptr "dy_device" 0);
      axpy_call arg (host_ptr "alpha" 0) (device_ptr "dy_host" 0)]
     (axpy_call arg (device_ptr "d_alpha" 0) (device_ptr "dy_device" 0))) /\
  (sizes_positive arg ->
   routine_calls (fst (run (testing_copy_strided_batched E arg))) =
   calls_expected arg [copy_call arg] (copy_call arg)) /\
  routine_calls (fst (run (testing_rotmg E arg))) =
  calls_expected arg
    [rotmg_call arg (host_ptr "hparams"); rotmg_call arg (device_ptr "dparams")]
    (rotmg_call arg (device_ptr "dparams")) /\
  (geam_valid E arg -> 0 < arg_batch_count arg ->
   routine_calls (fst (run (testing_geam_batched E arg))) =
   calls_expected arg
     [geam_call E arg (host_ptr "h_alpha" 0) (host_ptr "h_beta" 0);
      geam_call E arg (device_ptr "d_alpha" 0) (device_ptr "d_beta" 0)]
     (geam_call E arg (device_ptr "d_alpha" 0) (device_ptr "d_beta" 0))) /\
  (tpsv_valid arg ->
   routine_calls (fst (run (testing_tpsv_batched E arg))) =
   calls_expected arg [tpsv_call E arg] (tpsv_call E arg)).
Proof.
  intros Hs. split; [|split; [|split; [|split]]].
  - intros Hv. apply (axpy_steps E Hs arg Hv).
  - intros Hv. apply (copy_steps E Hs arg Hv).
  - apply (rotmg_steps E Hs arg).
  - intros Hv Hbc. apply (geam_steps E Hs arg Hv Hbc).
  - intros Hv. apply (tpsv_steps E Hs arg Hv).
Qed.

Lemma timed_call_is_the_checked_call_witness :
  routine_calls (fst (run (testing_rotmg all_ok arg0))) =
  [rotmg_call arg0 (host_ptr "hparams"); rotmg_call arg0 (device_ptr "dparams");
   rotmg_call arg0 (device_ptr "dparams"); rotmg_call arg0 (device_ptr "dparams");
   rotmg_call arg0 (device_ptr "dparams")].
Proof.
  destruct (timed_call_is_the_checked_call all_ok arg0 all_ok_succeeds)
    as (_ & _ & H & _).
  exact H.
Defined.

(** X10: when no call fails and the arguments pass the initial checks,
    the CPU reference routine runs once for each batch entry, in
    increasing order, and only when a check is asked for
    ([testing_rotmg] has a single entry); [testing_tpsv_batched] runs
    gemm, potrf and trmv, in this order, for each batch entry in turn,
    whether a check is asked for or not. *)
Theorem reference_runs_once_per_batch_entry E arg :
  calls_succeed E ->
  (sizes_positive arg ->
   reference_calls (fst (run (testing_axpy_batched E arg))) =
   references_expected arg "cblas_axpy" ["hx_cpu"; "hy_cpu"]) /\
  (sizes_positive arg ->
   reference_calls (fst (run (testing_copy_strided_batched E arg))) =
   references_expected arg "cblas_copy" ["hx_cpu"; "hy_cpu"]) /\
  reference_calls (fst (run (testing_rotmg E arg))) =
  (if checked arg then [Reference "cblas_rotmg" 0 ["cparams"]] else []) /\
  (geam_valid E arg -> 0 < arg_batch_count arg ->
   reference_calls (fst (run (testing_geam_batched E arg))) =
   references_expected arg "cblas_geam" ["hA"; "hB"; "hC_copy"]) /\
  (tpsv_valid arg ->
   reference_calls (fst (run (testing_tpsv_batched E arg))) =
   flat_map (fun b => [Reference "cblas_gemm" b ["hA"; "hA"; "AAT"];
                       Reference "cblas_potrf" b ["hA"];
                       Reference "cblas_trmv" b ["hA"; "hb"]])
     (Zseq (arg_batch_count arg))).
Proof.
  intros Hs. split; [|split; [|split; [|split]]].
  - intros Hv. apply (axpy_steps E Hs arg Hv).
  - intros Hv. apply (copy_steps E Hs arg Hv).
  - apply (rotmg_steps E Hs arg).
  - intros Hv Hbc. apply (geam_steps E Hs arg Hv Hbc).
  - intros Hv. apply (tpsv_steps E Hs arg Hv).
Qed.

Lemma reference_runs_once_per_batch_entry_witness :
  reference_calls (fst (run (testing_rotmg all_ok arg0))) =
  [Reference "cblas_rotmg" 0 ["cparams"]].
Proof.
  destruct (reference_runs_once_per_batch_entry all_ok arg0 all_ok_succeeds)
    as (_ & _ & H & _).
  exact H.
Defined.

(** X11: when no call fails and the arguments pass the initial checks,
    the comparisons are the unit checks, if asked for, followed by the
    norm checks, if asked for, never the other way round; within each
    kind the result of the host-mode call is compared before that of the
    device-mode call. *)
Theorem unit_checks_come_before_norm_checks E arg :
  calls_succeed E ->
  (sizes_positive arg ->
   checks (fst (run (testing_axpy_batched E arg))) =
   checks_expected arg
     [UnitCheck "hy_cpu" "hy_host"; UnitCheck "hy_cpu" "hy_device"]
     [NormCheck "hy_cpu" "hy_host"; NormCheck "hy_cpu" "hy_device"]) /\
  (sizes_positive arg ->
   checks (fst (run (testing_copy_strided_batched E arg))) =
   checks_expected arg [UnitCheck "hy_cpu" "hy"] [NormCheck "hy_cpu" "hy"]) /\
  checks (fst (run (testing_rotmg E arg))) =
  checks_expected arg
    [NearCheck "cparams" "hparams" 1000; NearCheck "cparams" "hparams_d" 1000]
    [NormCheck "cparams" "hparams"; NormCheck "cparams" "hparams_d"] /\
  (geam_valid E arg -> 0 < arg_batch_count arg ->
   checks (fst (run (testing_geam_batched E arg))) =
   checks_expected arg
     [UnitCheck "hC_copy" "hC1"; UnitCheck "hC_copy" "hC2"]
     [NormCheck "hC_copy" "hC1"; NormCheck "hC_copy" "hC2"]).
Proof.
  intros Hs. split; [|split; [|split]].
  - intros Hv. apply (axpy_steps E Hs arg Hv).
  - intros Hv. apply (copy_steps E Hs arg Hv).
  - apply (rotmg_steps E Hs arg).
  - intros Hv Hbc. apply (geam_steps E Hs arg Hv Hbc).
Qed.

Lemma unit_checks_come_before_norm_checks_witness :
  checks (fst (run (testing_rotmg all_ok arg0))) =
  [NearCheck "cparams" "hparams" 1000; NearCheck "cparams" "hparams_d" 1000;
   NormCheck "cparams" "hparams"; NormCheck "cparams" "hparams_d"].
Proof.
  destruct (unit_checks_come_before_norm_checks all_ok arg0 all_ok_succeeds)
    as (_ & _ & H & _).
  exact H.
Defined.

(** ** The errors [testing_tpsv_batched] measures *)

Lemma checks_last_norm_composes E arg :
  composes (fun h es _ => checks_last_norm E arg h es).
Proof.
  split.
  - intros h p err n q H. destruct p; discriminate H.
  - intros h es1 es2 o H1 H2 p err n q Heq.
    apply app_eq_app in Heq. destruct Heq as [l [[Hes1 Hl]|[Hp Hes2]]].
    + destruct l as [|e' l'].
      * cbn in Hl. rewrite app_nil_r in Hes1. subst p.
        destruct (H2 [] err n q (eq_sym Hl)) as (p' & b & Hp' & Herr & Hn).
        rewrite app_nil_r in Hp', Herr. exists p', b. auto.
      * injection Hl as <- _. apply (H1 p err n l'). exact Hes1.
    + subst p. destruct (H2 l err n q Hes2) as (p' & b & Hp' & Herr & Hn).
      rewrite <- app_assoc in Hp', Herr. exists p', b. auto.
Qed.

Lemma checks_last_norm_single E arg h e :
  is_unit_check_error e = false -> checks_last_norm E arg h [e].
Proof.
  intros He p err n q Heq. destruct p as [|x p].
  - injection Heq as -> _. discriminate He.
  - injection Heq as _ Heq. destruct p; discriminate Heq.
Qed.

Section LastNorm.

Variable E : externals.
Variable arg : Arguments.

Let P : run_property := fun h es _ => checks_last_norm E arg h es.

Lemma last_norm_emit e : is_unit_check_error e = false -> respects P (emit e).
Proof. intros He h. apply checks_last_norm_single, He. Qed.

Lemma last_norm_blas_call e : is_unit_check_error e = false -> respects P (blas_call E e).
Proof. intros He h. apply checks_last_norm_single, He. Qed.

Lemma last_norm_check_blas e :
  is_unit_check_error e = false -> respects P (CHECK_HIPBLAS_ERROR (blas_call E e)).
Proof.
  intros He h. unfold P, CHECK_HIPBLAS_ERROR, bind, blas_call.
  destruct (blas_status E (h ++ [e])); apply checks_last_norm_single, He.
Qed.

Lemma last_norm_check_hip e :
  is_unit_check_error e = false -> respects P (CHECK_HIP_ERROR (hip_call E e)).
Proof.
  intros He h. unfold P, CHECK_HIP_ERROR, bind, hip_call.
  destruct (hip_status E (h ++ [e])); apply checks_last_norm_single, He.
Qed.

Lemma last_norm_double_call e :
  is_unit_check_error e = false -> respects P (double_call E e).
Proof. intros He h. apply checks_last_norm_single, He. Qed.

Lemma last_norm_check_batch b acc : respects P (tpsv_check_batch E arg b acc).
Proof.
  intros h. unfold P, tpsv_check_batch. cbv zeta. unfold_calls.
  unfold bind, double_call, emit, ret. destruct (arg_unit_check arg); cbn.
  - intros p err n q Heq. destruct p as [|x [|y p]].
    + discriminate Heq.
    + injection Heq as <- <- <- _. exists h, b. auto.
    + injection Heq as _ _ Heq. destruct p; discriminate Heq.
  - apply checks_last_norm_single. reflexivity.
Qed.

Lemma tpsv_last_norm : respects P (testing_tpsv_batched E arg).
Proof.
  unfold testing_tpsv_batched. cbv zeta.
  unfold timing_loop, timing_iteration, host_vector_copy.
  unfold hipblasLocalHandle, hipblasSetPointerMode, hipblasGetStream, get_time_us_sync,
    host_vector, device_vector, host_batch_vector, device_batch_vector, memcheck,
    transfer_from, hipMemcpy, hipblas_init_vector, copy_from, log_args,
    EXPECT_HIPBLAS_STATUS, hipblasTpsvBatched, cblas_gemm, cblas_potrf, cblas_trmv,
    regular_to_packed.
  respects_walk (checks_last_norm_composes E arg)
    ltac:(first [ apply last_norm_check_batch
                | apply last_norm_emit; reflexivity
                | apply last_norm_double_call; reflexivity
                | apply last_norm_check_blas; reflexivity
                | apply last_norm_check_hip; reflexivity
                | apply last_norm_blas_call; reflexivity ]).
Qed.

End LastNorm.

(** X12: in every run of [testing_tpsv_batched], whatever the libraries
    answer, each [unit_check_error] directly follows a [vector_norm_1] on
    [hx] and [hx_or_b_1], is given the absolute value of the norm that
    call returned, and has its tolerance made from [N]. *)
Theorem tpsv_checks_each_norm E arg :
  checks_last_norm E arg [] (fst (run (testing_tpsv_batched E arg))).
Proof. apply (tpsv_last_norm E arg []). Qed.

Lemma norms_measured_app E h l1 l2 :
  norms_measured E h (l1 ++ l2) = norms_measured E h l1 ++ norms_measured E (h ++ l1) l2.
Proof.
  revert h. induction l1 as [|e l1 IH]; intros h; cbn [app norms_measured].
  - rewrite app_nil_r. reflexivity.
  - rewrite IH, <- !app_assoc. reflexivity.
Qed.

Lemma norms_measured_none E h l :
  Forall (fun e => is_vector_norm e = false) l -> norms_measured E h l = [].
Proof.
  intros H. revert h. induction H as [|e l He _ IH]; intros h; cbn [norms_measured].
  - reflexivity.
  - rewrite IH. destruct e; try discriminate He; reflexivity.
Qed.

(** The check loop returns the sum it was given, plus the absolute values
    of the norms it measured. *)
Lemma tpsv_check_loop_sum E arg count :
  forall lo acc h,
    snd (for_range lo count (tpsv_check_batch E arg) acc h) =
    Ok (fold_left (fun a nrm => dadd a (dabs nrm))
          (norms_measured E h (fst (for_range lo count (tpsv_check_batch E arg) acc h)))
          acc).
Proof.
  induction count as [|c IH]; intros lo acc h; cbn [for_range].
  - reflexivity.
  - assert (Hb : runs_to (tpsv_check_batch E arg lo acc) h
                   (VectorNorm lo "hx" "hx_or_b_1"
                    :: (if arg_unit_check arg
                        then [UnitCheckError
                                (dabs (measured E (h ++ [VectorNorm lo "hx" "hx_or_b_1"])))
                                (arg_N arg)]
                        else []))
                   (dadd acc (dabs (measured E (h ++ [VectorNorm lo "hx" "hx_or_b_1"]))))).
    { unfold runs_to, tpsv_check_batch. cbv zeta. unfold_calls.
      unfold bind, double_call, emit, ret. destruct (arg_unit_check arg); reflexivity. }
    rewrite (bind_runs _ _ _ _ _ Hb). cbn [fst snd].
    rewrite IH. f_equal.
    change (VectorNorm lo "hx" "hx_or_b_1" :: ?l) with ([VectorNorm lo "hx" "hx_or_b_1"] ++ l).
    rewrite <- app_assoc. rewrite (norms_measured_app E h [VectorNorm lo "hx" "hx_or_b_1"]).
    cbn [norms_measured app fold_left].
    rewrite norms_measured_app, fold_left_app.
    rewrite (norms_measured_none E _ (if arg_unit_check arg then _ else _))
      by (destruct (arg_unit_check arg); repeat constructor).
    cbn [app fold_left]. rewrite <- !app_assoc. reflexivity.
Qed.

Ltac before_loop t :=
  lazymatch t with
  | fst (for_int_fold _ _ _ _) ++ _ => constr:(@nil event)
  | ?x :: ?r => let p := before_loop r in constr:(x :: p)
  | ?l ++ ?r => let p := before_loop r in constr:(l ++ p)
  end.

Ltac after_loop t :=
  lazymatch t with
  | fst (for_int_fold _ _ _ _) ++ ?r => r
  | _ :: ?r => after_loop r
  | _ ++ ?r => after_loop r
  end.

Ltac all_but_last t :=
  lazymatch t with
  | [_] => constr:(@nil event)
  | ?x :: ?r => let p := all_but_last r in constr:(x :: p)
  | ?l ++ ?r => let p := all_but_last r in constr:(l ++ p)
  end.

Ltac not_a_norm :=
  let e := fresh "e" in
  let He := fresh "He" in
  intros e He; destruct e; try discriminate He; reflexivity.

Section Cumulative.

Variable E : externals.
Hypothesis Hs : calls_succeed E.
Variable arg : Arguments.
Hypothesis Hv : tpsv_valid arg.
Hypothesis Ht : arg_timing arg = true.

Lemma tpsv_logs_sum :
  let tr := fst (run (testing_tpsv_batched E arg)) in
  exists pre t, tr = pre ++ [LogArgs t [Some (cumulative_error E tr)]].
Proof.
  cbv zeta. unfold run, testing_tpsv_batched. cbv zeta.
  rewrite (tpsv_condition_false arg Hv), Ht.
  unfold_calls; fold (timing_loop E); fold (tpsv_check_batch E arg).
  destruct (arg_unit_check arg || arg_norm_check arg).
  - synthesize_tidy E Hs
      ltac:(first [apply (timing_loop_total E Hs) | apply tpsv_check_total]).
    repeat (progress tidy).
    match goal with
    | |- context [for_int_fold ?bc (tpsv_check_batch E arg) ?s ?h] =>
        pose proof (tpsv_check_loop_sum E arg (Z.to_nat bc) 0 s h) as Hsum;
        fold (for_int_fold bc (tpsv_check_batch E arg) s) in Hsum;
        rewrite Hsum; cbn [value_or]; clear Hsum
    end.
    forget_timing_events.
    match goal with
    | |- exists pre t, ?tr = _ =>
        let PRE := before_loop tr in
        let POST := after_loop tr in
        let INIT := all_but_last tr in
        lazymatch tr with
        | context [fst ?loop ++ _] =>
            lazymatch tr with
            | context [LogArgs ?t0 _] =>
                assert (Hc : norms_measured E [] tr = norms_measured E PRE (fst loop));
                [ replace tr with (PRE ++ fst loop ++ POST)
                    by (repeat (progress tidy); reflexivity);
                  rewrite !norms_measured_app;
                  rewrite (norms_measured_none E [] PRE) by (trace_forall_if not_a_norm);
                  rewrite (norms_measured_none E _ POST) by (trace_forall_if not_a_norm);
                  cbn [app]; apply app_nil_r
                | exists INIT, t0; unfold cumulative_error; rewrite Hc;
                  repeat (progress tidy); reflexivity ]
            end
        end
    end.
  - synthesize_tidy E Hs ltac:(apply (timing_loop_total E Hs)).
    repeat (progress tidy). forget_timing_events.
    match goal with
    | |- exists pre t, ?tr = _ =>
        let INIT := all_but_last tr in
        lazymatch tr with
        | context [LogArgs ?t0 _] =>
            assert (Hc : norms_measured E [] tr = [])
              by (apply norms_measured_none; trace_forall_if not_a_norm);
            exists INIT, t0; unfold cumulative_error; rewrite Hc;
            repeat (progress tidy); reflexivity
        end
    end.
Qed.

End Cumulative.

(** X13: when no call fails, the arguments pass the initial checks and
    timing is on, the one error [testing_tpsv_batched] logs is the sum,
    added up from zero in batch order, of the absolute values of the
    norms [vector_norm_1] returned in the run: zero when no check was
    asked for. *)
Theorem tpsv_logs_the_cumulative_error E arg :
  calls_succeed E -> tpsv_valid arg -> arg_timing arg = true ->
  logs_last (fst (run (testing_tpsv_batched E arg)))
    [Some (cumulative_error E (fst (run (testing_tpsv_batched E arg))))].
Proof. intros Hs Hv Ht. apply (tpsv_logs_sum E Hs arg Hv Ht). Qed.

Lemma tpsv_logs_the_cumulative_error_witness :
  logs_last (fst (run (testing_tpsv_batched all_ok arg0)))
    [Some (cumulative_error all_ok (fst (run (testing_tpsv_batched all_ok arg0))))].
Proof.
  apply (tpsv_logs_the_cumulative_error all_ok arg0 all_ok_succeeds); [|reflexivity].
  unfold tpsv_valid. cbn. lia.
Defined.

(** ** The errors the other test functions log *)

Lemma norm_results_app E h l1 l2 :
  norm_results E h (l1 ++ l2) = norm_results E h l1 ++ norm_results E (h ++ l1) l2.
Proof.
  revert h. induction l1 as [|e l1 IH]; intros h; cbn [app norm_results].
  - rewrite app_nil_r. reflexivity.
  - rewrite IH, <- !app_assoc. reflexivity.
Qed.

Lemma norm_results_none E h l :
  Forall (fun e => is_norm_check e = false) l -> norm_results E h l = [].
Proof.
  intros H. revert h. induction H as [|e l He _ IH]; intros h; cbn [norm_results].
  - reflexivity.
  - rewrite IH. destruct e; try discriminate He; reflexivity.
Qed.

(** Forget what the timing loop did, but for the kind of events it made;
    keep what was measured. *)
Ltac forget_timing_loop :=
  repeat match goal with
         | |- context [timing_loop ?a ?b (blas_call ?a ?c) ?d ?h] =>
             let x := fresh "loop" in
             let Hx := fresh "Hloop" in
             pose proof (timing_loop_events a b c d h eq_refl) as Hx;
             set (x := timing_loop a b (blas_call a c) d h) in *; clearbody x
         end.

Ltac before_norm t :=
  lazymatch t with
  | NormCheck _ _ :: _ => constr:(@nil event)
  | ?x :: ?r => let p := before_norm r in constr:(x :: p)
  | ?l ++ ?r => let p := before_norm r in constr:(l ++ p)
  end.

Ltac from_norm t :=
  lazymatch t with
  | NormCheck _ _ :: _ => t
  | _ :: ?r => from_norm r
  | _ ++ ?r => from_norm r
  end.

Ltac norm_checks_of t :=
  lazymatch t with
  | NormCheck ?a ?b :: ?r => let p := norm_checks_of r in constr:(NormCheck a b :: p)
  | _ => constr:(@nil event)
  end.

Ltac after_norms t :=
  lazymatch t with
  | NormCheck _ _ :: ?r => after_norms r
  | _ => t
  end.

(** The trace ends in a log of the norm check results. *)
Ltac logs_norms E :=
  unfold logs_last;
  lazymatch goal with
  | |- exists pre t, ?tr = _ =>
      let PRE := before_norm tr in
      let REST := from_norm tr in
      let NORMS := norm_checks_of REST in
      let POST := after_norms REST in
      let INIT := all_but_last tr in
      lazymatch tr with
      | context [LogArgs ?t0 ?errs] =>
          assert (Hc : norm_results E [] tr = errs);
          [ replace tr with (PRE ++ NORMS ++ POST) by (repeat (progress tidy); reflexivity);
            rewrite !norm_results_app;
            rewrite (norm_results_none E [] PRE) by (trace_forall_if not_a_norm);
            rewrite (norm_results_none E _ POST) by (trace_forall_if not_a_norm);
            cbn [app norm_results]; repeat (progress tidy); reflexivity
          | exists INIT, t0; rewrite Hc; repeat (progress tidy); reflexivity ]
      end
  end.

(** The trace ends in a log of errors that are written out. *)
Ltac logs_given :=
  unfold logs_last;
  lazymatch goal with
  | |- exists pre t, ?tr = _ =>
      let INIT := all_but_last tr in
      lazymatch tr with
      | context [LogArgs ?t0 _] =>
          exists INIT, t0; repeat (progress tidy); reflexivity
      end
  end.

Section Logged.

Variable E : externals.
Hypothesis Hs : calls_succeed E.
Variable arg : Arguments.
Hypothesis Ht : arg_timing arg = true.

Lemma axpy_logs :
  sizes_positive arg ->
  let tr := fst (run (testing_axpy_batched E arg)) in
  logs_last tr (if arg_norm_check arg then norm_results E [] tr else [None; None]).
Proof.
  intros Hv. cbv zeta. unfold run, testing_axpy_batched. cbv zeta.
  rewrite (sizes_condition_false arg Hv), Ht.
  destruct (arg_unit_check arg), (arg_norm_check arg);
    cbn [orb]; unfold_calls; fold (timing_loop E);
    synthesize_tidy E Hs ltac:(apply (timing_loop_total E Hs));
    repeat (progress tidy); forget_timing_loop; cbn [fst snd].
  - logs_norms E.
  - logs_given.
  - logs_norms E.
  - logs_given.
Qed.

Lemma copy_logs :
  sizes_positive arg ->
  let tr := fst (run (testing_copy_strided_batched E arg)) in
  logs_last tr (if arg_norm_check arg then norm_results E [] tr else [Some dzero]).
Proof.
  intros Hv. cbv zeta. unfold run, testing_copy_strided_batched. cbv zeta.
  rewrite (sizes_condition_false arg Hv), Ht.
  destruct (arg_unit_check arg), (arg_norm_check arg);
    cbn [orb]; unfold_calls; fold (timing_loop E);
    synthesize_tidy E Hs ltac:(apply (timing_loop_total E Hs));
    repeat (progress tidy); forget_timing_loop; cbn [fst snd].
  - logs_norms E.
  - logs_given.
  - logs_norms E.
  - logs_given.
Qed.

Lemma rotmg_logs :
  let tr := fst (run (testing_rotmg E arg)) in
  logs_last tr (if arg_norm_check arg then norm_results E [] tr else [None; None]).
Proof.
  cbv zeta. unfold run, testing_rotmg. cbv zeta. rewrite Ht.
  destruct (arg_unit_check arg), (arg_norm_check arg);
    cbn [orb]; unfold_calls; fold (timing_loop E);
    synthesize_tidy E Hs ltac:(apply (timing_loop_total E Hs));
    repeat (progress tidy); forget_timing_loop; cbn [fst snd].
  - logs_norms E.
  - logs_given.
  - logs_norms E.
  - logs_given.
Qed.

Lemma geam_logs :
  geam_valid E arg -> 0 < arg_batch_count arg ->
  let tr := fst (run (testing_geam_batched E arg)) in
  logs_last tr (if arg_norm_check arg then norm_results E [] tr else [None; None]).
Proof.
  intros Hv Hbc. cbv zeta. unfold run, testing_geam_batched. cbv zeta.
  fold (geam_A_row E arg) (geam_B_row E arg).
  rewrite (geam_condition_false E arg Hv), Ht.
  replace (arg_batch_count arg =? 0) with false by (symmetry; apply Z.eqb_neq; lia).
  destruct (arg_unit_check arg), (arg_norm_check arg);
    cbn [orb]; unfold_calls; fold (timing_loop E);
    synthesize_tidy E Hs ltac:(apply (timing_loop_total E Hs));
    repeat (progress tidy); forget_timing_loop; cbn [fst snd].
  - logs_norms E.
  - logs_given.
  - logs_norms E.
  - logs_given.
Qed.

End Logged.

(** X14: when no call fails, the arguments pass the initial checks and
    timing is on, the errors logged are what the norm checks returned,
    that of the host-mode result first, if [norm_check] is on; if it is
    off, [testing_axpy_batched], [testing_geam_batched] and
    [testing_rotmg] log two variables that were never assigned, and
    [testing_copy_strided_batched] logs the zero its variable was
    initialised with. *)
Theorem logged_errors_are_the_norm_check_results E arg :
  calls_succeed E -> arg_timing arg = true ->
  (sizes_positive arg ->
   let tr := fst (run (testing_axpy_batched E arg)) in
   logs_last tr (if arg_norm_check arg then norm_results E [] tr else [None; None])) /\
  (sizes_positive arg ->
   let tr := fst (run (testing_copy_strided_batched E arg)) in
   logs_last tr (if arg_norm_check arg then norm_results E [] tr else [Some dzero])) /\
  (let tr := fst (run (testing_rotmg E arg)) in
   logs_last tr (if arg_norm_check arg then norm_results E [] tr else [None; None])) /\
  (geam_valid E arg -> 0 < arg_batch_count arg ->
   let tr := fst (run (testing_geam_batched E arg)) in
   logs_last tr (if arg_norm_check arg then norm_results E [] tr else [None; None])).
Proof.
  intros Hs Ht. split; [|split; [|split]].
  - intros Hv. apply (axpy_logs E Hs arg Ht Hv).
  - intros Hv. apply (copy_logs E Hs arg Ht Hv).
  - apply (rotmg_logs E Hs arg Ht).
  - intros Hv Hbc. apply (geam_logs E Hs arg Ht Hv Hbc).
Qed.

Lemma logged_errors_are_the_norm_check_results_witness :
  logs_last (fst (run (testing_rotmg all_ok arg0)))
    (norm_results all_ok [] (fst (run (testing_rotmg all_ok arg0)))).
Proof.
  destruct (logged_errors_are_the_norm_check_results all_ok arg0 all_ok_succeeds eq_refl)
    as (_ & _ & H & _).
  exact H.
Defined.

(** ** What the buffers hold *)

Lemma without_without name l : without name (without name l) = without name l.
Proof.
  induction l as [|[n c] l IH]; cbn [without]; [reflexivity|].
  destruct (String.eqb n name) eqn:Hn; [exact IH|].
  cbn [without]. rewrite Hn, IH. reflexivity.
Qed.

Lemma comparisons_made_app s l1 l2 :
  comparisons_made s (l1 ++ l2) =
  comparisons_made s l1 ++ comparisons_made (fold_left flow_next l1 s) l2.
Proof.
  revert s. induction l1 as [|e l1 IH]; intros s; cbn [app comparisons_made fold_left].
  - reflexivity.
  - rewrite IH, app_assoc. reflexivity.
Qed.

(** Events that compare nothing. *)
Lemma comparisons_made_none s l :
  Forall (fun e => is_comparison e = false) l -> comparisons_made s l = [].
Proof.
  intros H. revert s. induction H as [|e l He _ IH]; intros s; cbn [comparisons_made].
  - reflexivity.
  - rewrite IH. destruct e; try discriminate He; reflexivity.
Qed.

(** A loop whose turns all leave the buffers as the first turn did. *)
Lemma flow_loop (f : Z -> list event) L s s1 :
  L <> [] ->
  (forall b, fold_left flow_next (f b) s = s1) ->
  (forall b, fold_left flow_next (f b) s1 = s1) ->
  fold_left flow_next (flat_map f L) s = s1.
Proof.
  intros HL H1 H2. destruct L as [|b L]; [congruence|]. clear HL.
  cbn [flat_map]. rewrite fold_left_app, H1.
  induction L as [|b' L IH]; cbn [flat_map fold_left]; [reflexivity|].
  rewrite fold_left_app, H2. exact IH.
Qed.

Lemma Zseq_not_nil n k : Z.to_nat n = S k -> Zseq n <> [].
Proof. intros H. unfold Zseq. rewrite H. discriminate. Qed.

(** The check loop of [testing_tpsv_batched] compares [hx_or_b_1] with
    [hx] and writes nothing. *)
Lemma comparisons_made_check_loop s l :
  Forall (fun e => is_compare e = true) l ->
  comparisons_made s l =
  map (fun e => {| check := e; reference_holds := holds s "hx";
                   result_holds := holds s "hx_or_b_1" |})
    (List.filter is_vector_norm l) /\
  fold_left flow_next l s = s.
Proof.
  intros H. induction H as [|e l He _ [IH1 IH2]];
    cbn [comparisons_made fold_left List.filter map].
  - split; reflexivity.
  - assert (Hn : flow_next s e = s) by (destruct e; try discriminate He; reflexivity).
    rewrite Hn, IH1, IH2. split; [|reflexivity].
    destruct e; try discriminate He; [|reflexivity].
    cbn in He. apply andb_prop in He. destruct He as [He1 He2].
    apply String.eqb_eq in He1. apply String.eqb_eq in He2. subst. reflexivity.
Qed.

(** The norms the check loop computes: one for each batch entry, in
    order. *)
Lemma tpsv_check_range_norms E arg count :
  forall lo acc h,
    List.filter is_vector_norm (fst (for_range lo count (tpsv_check_batch E arg) acc h)) =
    map (fun b => VectorNorm b "hx" "hx_or_b_1")
      (map (fun k => lo + Z.of_nat k) (seq 0 count)).
Proof.
  induction count as [|c IH]; intros lo acc h; cbn [for_range].
  - reflexivity.
  - assert (Hb : runs_to (tpsv_check_batch E arg lo acc) h
                   (VectorNorm lo "hx" "hx_or_b_1"
                    :: (if arg_unit_check arg
                        then [UnitCheckError
                                (dabs (measured E (h ++ [VectorNorm lo "hx" "hx_or_b_1"])))
                                (arg_N arg)]
                        else []))
                   (dadd acc (dabs (measured E (h ++ [VectorNorm lo "hx" "hx_or_b_1"]))))).
    { unfold runs_to, tpsv_check_batch. cbv zeta. unfold_calls.
      unfold bind, double_call, emit, ret. destruct (arg_unit_check arg); reflexivity. }
    rewrite (bind_runs _ _ _ _ _ Hb). cbn [fst snd].
    cbn [app List.filter is_vector_norm seq map]. rewrite List.filter_app, IH.
    rewrite Z.add_0_r. f_equal.
    replace (List.filter is_vector_norm (if arg_unit_check arg then _ else _)) with (@nil event)
      by (destruct (arg_unit_check arg); reflexivity).
    cbn [app]. rewrite <- seq_shift, !map_map. apply map_ext. intros k. f_equal. lia.
Qed.

Lemma tpsv_check_norms E arg acc h :
  List.filter is_vector_norm
    (fst (for_int_fold (arg_batch_count arg) (tpsv_check_batch E arg) acc h)) =
  map (fun b => VectorNorm b "hx" "hx_or_b_1") (Zseq (arg_batch_count arg)).
Proof.
  unfold for_int_fold, Zseq. rewrite tpsv_check_range_norms. reflexivity.
Qed.

Lemma timing_events_no_comparison l :
  Forall (fun e => is_timing_event e = true) l -> Forall (fun e => is_comparison e = false) l.
Proof.
  intros H. eapply Forall_weaken; [|exact H].
  intros e He. destruct e; try discriminate He; reflexivity.
Qed.

Ltac no_comparison :=
  repeat match goal with
         | |- Forall _ [] => apply List.Forall_nil
         | |- Forall _ (_ :: _) => apply List.Forall_cons; [reflexivity|]
         | |- Forall _ (flat_map _ _) => apply Forall_flat_map_intro; intro; cbv beta
         | |- Forall _ (_ ++ _) => apply Forall_app; split
         | H : Forall (fun e => is_timing_event e = true) ?l |- Forall _ ?l =>
             apply timing_events_no_comparison; exact H
         end.

Ltac flow_cbn :=
  cbn [comparisons_made compared flow_next write holds content_of without written_operand
       written_buffer pointer_name last mode_in_force contents flow_start app fold_left
       String.eqb Ascii.eqb Bool.eqb].

Ltac flow_step Hb :=
  first
    [ progress flow_cbn
    | match goal with
      | |- context [comparisons_made ?s (flat_map ?f ?L ++ ?rest)] =>
          rewrite (comparisons_made_app s (flat_map f L) rest);
          rewrite (comparisons_made_none s (flat_map f L)) by no_comparison;
          erewrite (flow_loop f L s _ (Zseq_not_nil _ _ Hb));
          [ | intros ?; flow_cbn; reflexivity | intros ?; reflexivity ];
          cbn [app]
      | H : Forall (fun e => is_compare e = true) (fst ?l)
        |- context [comparisons_made ?s (fst ?l ++ ?rest)] =>
          let H1 := fresh in
          let H2 := fresh in
          rewrite (comparisons_made_app s (fst l) rest);
          destruct (comparisons_made_check_loop s (fst l) H) as [H1 H2];
          rewrite H1, H2; clear H1 H2
      | |- context [comparisons_made ?s ?l] =>
          rewrite (comparisons_made_none s l) by no_comparison
      end ].

Section Compared.

Variable E : externals.
Hypothesis Hs : calls_succeed E.
Variable arg : Arguments.

Lemma axpy_compared :
  sizes_positive arg ->
  comparisons_made flow_start (fst (run (testing_axpy_batched E arg))) =
  let reference := reference_output "cblas_axpy" in
  let results :=
    [("hy_host", routine_output "hipblasAxpyBatched" (Some HIPBLAS_POINTER_MODE_HOST));
     ("hy_device", routine_output "hipblasAxpyBatched" (Some HIPBLAS_POINTER_MODE_DEVICE))] in
  when_asked arg (checked_against UnitCheck "hy_cpu" reference results)
    (checked_against NormCheck "hy_cpu" reference results).
Proof.
  intros Hv. cbv zeta. unfold when_asked, checked_against, run, testing_axpy_batched.
  cbv zeta. rewrite (sizes_condition_false arg Hv).
  destruct (positive_to_nat _ (proj2 Hv)) as [n Hb].
  destruct (arg_unit_check arg), (arg_norm_check arg), (arg_timing arg);
    cbn [orb]; unfold_calls; fold (timing_loop E);
    synthesize E Hs ltac:(apply (timing_loop_total E Hs)); forget_timing_events; tidy.
  all: repeat flow_step Hb; reflexivity.
Qed.

Lemma copy_compared :
  sizes_positive arg ->
  comparisons_made flow_start (fst (run (testing_copy_strided_batched E arg))) =
  let reference := reference_output "cblas_copy" in
  let results := [("hy", routine_output "hipblasCopyStridedBatched" None)] in
  when_asked arg (checked_against UnitCheck "hy_cpu" reference results)
    (checked_against NormCheck "hy_cpu" reference results).
Proof.
  intros Hv. cbv zeta. unfold when_asked, checked_against, run, testing_copy_strided_batched.
  cbv zeta. rewrite (sizes_condition_false arg Hv).
  destruct (positive_to_nat _ (proj2 Hv)) as [n Hb].
  destruct (arg_unit_check arg), (arg_norm_check arg), (arg_timing arg);
    cbn [orb]; unfold_calls; fold (timing_loop E);
    synthesize E Hs ltac:(apply (timing_loop_total E Hs)); forget_timing_events; tidy.
  all: repeat flow_step Hb; reflexivity.
Qed.

Lemma rotmg_compared :
  comparisons_made flow_start (fst (run (testing_rotmg E arg))) =
  let reference := reference_output "cblas_rotmg" in
  let results :=
    [("hparams", routine_output "hipblasRotmg" (Some HIPBLAS_POINTER_MODE_HOST));
     ("hparams_d", routine_output "hipblasRotmg" (Some HIPBLAS_POINTER_MODE_DEVICE))] in
  when_asked arg (checked_against (near_check 1000) "cparams" reference results)
    (checked_against NormCheck "cparams" reference results).
Proof.
  cbv zeta. unfold when_asked, checked_against, near_check, run, testing_rotmg. cbv zeta.
  assert (Hb : Z.to_nat 1 = 1%nat) by reflexivity.
  destruct (arg_unit_check arg), (arg_norm_check arg), (arg_timing arg);
    cbn [orb]; unfold_calls; fold (timing_loop E);
    synthesize E Hs ltac:(apply (timing_loop_total E Hs)); forget_timing_events; tidy.
  all: repeat flow_step Hb; reflexivity.
Qed.

Lemma geam_compared :
  geam_valid E arg -> 0 < arg_batch_count arg ->
  comparisons_made flow_start (fst (run (testing_geam_batched E arg))) =
  let reference := reference_output "cblas_geam" in
  let results :=
    [("hC1", routine_output "hipblasGeamBatched" (Some HIPBLAS_POINTER_MODE_HOST));
     ("hC2", routine_output "hipblasGeamBatched" (Some HIPBLAS_POINTER_MODE_DEVICE))] in
  when_asked arg (checked_against UnitCheck "hC_copy" reference results)
    (checked_against NormCheck "hC_copy" reference results).
Proof.
  intros Hv Hbc. cbv zeta. unfold when_asked, checked_against, run, testing_geam_batched.
  cbv zeta. fold (geam_A_row E arg) (geam_B_row E arg).
  rewrite (geam_condition_false E arg Hv).
  replace (arg_batch_count arg =? 0) with false by (symmetry; apply Z.eqb_neq; lia).
  destruct (positive_to_nat _ Hbc) as [n Hb].
  destruct (arg_unit_check arg), (arg_norm_check arg), (arg_timing arg);
    cbn [orb]; unfold_calls; fold (timing_loop E);
    synthesize E Hs ltac:(apply (timing_loop_total E Hs)); forget_timing_events; tidy.
  all: repeat flow_step Hb; reflexivity.
Qed.

Lemma tpsv_compared :
  tpsv_valid arg ->
  comparisons_made flow_start (fst (run (testing_tpsv_batched E arg))) =
  if checked arg
  then map (fun b => {| check := VectorNorm b "hx" "hx_or_b_1";
                        reference_holds := Some prepared;
                        result_holds := Some (routine_output "hipblasTpsvBatched" None) |})
         (Zseq (arg_batch_count arg))
  else [].
Proof.
  intros Hv. unfold checked, run, testing_tpsv_batched. cbv zeta.
  rewrite (tpsv_condition_false arg Hv).
  destruct (positive_to_nat _ (proj2 (proj2 Hv))) as [n Hb].
  unfold_calls; fold (timing_loop E); fold (tpsv_check_batch E arg).
  destruct (arg_unit_check arg || arg_norm_check arg), (arg_timing arg);
    synthesize E Hs ltac:(first [apply (timing_loop_total E Hs) | apply tpsv_check_total]);
    forget_timing_events;
    repeat match goal with
           | |- context [for_int_fold ?bc (tpsv_check_batch ?E0 ?a) ?s ?h] =>
               let x := fresh "loop" in
               let Hx := fresh "Hcheck" in
               let Hy := fresh "Hnorms" in
               pose proof (respects_for_int_fold _ (tpsv_check_batch E0 a) bc s
                             (all_events_composes _) (tpsv_check_respects E0 a) h) as Hx;
               unfold all_events in Hx;
               pose proof (tpsv_check_norms E0 a s h) as Hy;
               set (x := for_int_fold bc (tpsv_check_batch E0 a) s h) in *; clearbody x
           end;
    tidy.
  all: repeat flow_step Hb; rewrite ?app_nil_r; try reflexivity.
  all: rewrite Hnorms, map_map; reflexivity.
Qed.

End Compared.

Section Modes.

Variable E : externals.
Hypothesis Hs : calls_succeed E.
Variable arg : Arguments.
Hypothesis Hf : arg_unit_check arg || arg_norm_check arg = true.

Lemma axpy_modes :
  sizes_positive arg ->
  device_calls (fst (run (testing_axpy_batched E arg))) =
  [DeviceCall (Some HIPBLAS_POINTER_MODE_DEVICE); DeviceCall (Some HIPBLAS_POINTER_MODE_HOST)].
Proof.
  intros Hv. unfold device_calls, run, testing_axpy_batched. cbv zeta.
  rewrite (sizes_condition_false arg Hv).
  destruct (positive_to_nat _ (proj2 Hv)) as [n Hb].
  destruct (arg_unit_check arg), (arg_norm_check arg), (arg_timing arg);
    try discriminate Hf; cbn [orb]; unfold_calls; fold (timing_loop E);
    synthesize E Hs ltac:(apply (timing_loop_total E Hs)); forget_timing_events; tidy.
  all: order_tac; filter_tac; reflexivity.
Qed.

Lemma copy_modes :
  sizes_positive arg ->
  device_calls (fst (run (testing_copy_strided_batched E arg))) = [DeviceCall None].
Proof.
  intros Hv. unfold device_calls, run, testing_copy_strided_batched. cbv zeta.
  rewrite (sizes_condition_false arg Hv).
  destruct (positive_to_nat _ (proj2 Hv)) as [n Hb].
  destruct (arg_unit_check arg), (arg_norm_check arg), (arg_timing arg);
    try discriminate Hf; cbn [orb]; unfold_calls; fold (timing_loop E);
    synthesize E Hs ltac:(apply (timing_loop_total E Hs)); forget_timing_events; tidy.
  all: order_tac; filter_tac; reflexivity.
Qed.

Lemma rotmg_modes :
  device_calls (fst (run (testing_rotmg E arg))) =
  [DeviceCall (Some HIPBLAS_POINTER_MODE_HOST); DeviceCall (Some HIPBLAS_POINTER_MODE_DEVICE)].
Proof.
  unfold device_calls, run, testing_rotmg. cbv zeta.
  destruct (arg_unit_check arg), (arg_norm_check arg), (arg_timing arg);
    try discriminate Hf; cbn [orb]; unfold_calls; fold (timing_loop E);
    synthesize E Hs ltac:(apply (timing_loop_total E Hs)); forget_timing_events; tidy.
  all: order_tac; filter_tac; reflexivity.
Qed.

Lemma geam_modes :
  geam_valid E arg -> 0 < arg_batch_count arg ->
  device_calls (fst (run (testing_geam_batched E arg))) =
  [DeviceCall (Some HIPBLAS_POINTER_MODE_HOST); DeviceCall (Some HIPBLAS_POINTER_MODE_DEVICE)].
Proof.
  intros Hv Hbc. unfold device_calls, run, testing_geam_batched. cbv zeta.
  fold (geam_A_row E arg) (geam_B_row E arg).
  rewrite (geam_condition_false E arg Hv).
  replace (arg_batch_count arg =? 0) with false by (symmetry; apply Z.eqb_neq; lia).
  destruct (positive_to_nat _ Hbc) as [n Hb].
  destruct (arg_unit_check arg), (arg_norm_check arg), (arg_timing arg);
    try discriminate Hf; cbn [orb]; unfold_calls; fold (timing_loop E);
    synthesize E Hs ltac:(apply (timing_loop_total E Hs)); forget_timing_events; tidy.
  all: order_tac; filter_tac; reflexivity.
Qed.

Lemma tpsv_modes :
  tpsv_valid arg ->
  device_calls (fst (run (testing_tpsv_batched E arg))) = [DeviceCall None].
Proof.
  intros Hv. unfold device_calls, run, testing_tpsv_batched. cbv zeta.
  rewrite (tpsv_condition_false arg Hv).
  destruct (positive_to_nat _ (proj2 (proj2 Hv))) as [n Hb].
  rewrite Hf. unfold_calls; fold (timing_loop E); fold (tpsv_check_batch E arg).
  destruct (arg_timing arg);
    synthesize E Hs ltac:(first [apply (timing_loop_total E Hs) | apply tpsv_check_total]);
    forget_timing_events; open_check_loop E Hb; tidy.
  all: order_tac; filter_tac; reflexivity.
Qed.

End Modes.

Section NoUnitCheck.

Variable E : externals.
Variable arg : Arguments.
Hypothesis Hu : arg_unit_check arg = false.

Lemma axpy_asserts_nothing :
  respects (all_events (fun e => asserts e = false)) (testing_axpy_batched E arg).
Proof.
  unfold testing_axpy_batched. cbv zeta. rewrite Hu. cbn [orb]. cbv iota.
  events_walk E ltac:(reflexivity).
Qed.

Lemma copy_asserts_nothing :
  respects (all_events (fun e => asserts e = false)) (testing_copy_strided_batched E arg).
Proof.
  unfold testing_copy_strided_batched. cbv zeta. rewrite Hu. cbn [orb]. cbv iota.
  events_walk E ltac:(reflexivity).
Qed.

Lemma rotmg_asserts_nothing :
  respects (all_events (fun e => asserts e = false)) (testing_rotmg E arg).
Proof.
  unfold testing_rotmg. cbv zeta. rewrite Hu. cbn [orb]. cbv iota.
  events_walk E ltac:(reflexivity).
Qed.

Lemma geam_asserts_nothing :
  respects (all_events (fun e => asserts e = false)) (testing_geam_batched E arg).
Proof.
  unfold testing_geam_batched. cbv zeta. rewrite Hu. cbn [orb]. cbv iota.
  events_walk E ltac:(reflexivity).
Qed.

Lemma tpsv_asserts_nothing :
  respects (all_events (fun e => asserts e = false)) (testing_tpsv_batched E arg).
Proof.
  unfold testing_tpsv_batched, tpsv_check_batch. cbv zeta. rewrite Hu. cbn [orb]. cbv iota.
  events_walk E ltac:(reflexivity).
Qed.

End NoUnitCheck.

Lemma tolerances_app l1 l2 : tolerances (l1 ++ l2) = tolerances l1 ++ tolerances l2.
Proof.
  induction l1 as [|e l1 IH]; [reflexivity|].
  destruct e; cbn [app tolerances]; rewrite ?IH; reflexivity.
Qed.

Lemma tolerances_none l :
  Forall (fun e => is_unit_check_error e = false) l -> tolerances l = [].
Proof.
  induction 1 as [|e l He _ IH]; [reflexivity|].
  destruct e; try discriminate He; exact IH.
Qed.

Lemma timing_events_no_tolerance l :
  Forall (fun e => is_timing_event e = true) l ->
  Forall (fun e => is_unit_check_error e = false) l.
Proof.
  intros H. eapply Forall_weaken; [|exact H].
  intros e He. destruct e; try discriminate He; reflexivity.
Qed.

Lemma tpsv_check_range_tolerances E arg count :
  forall lo acc h,
    tolerances (fst (for_range lo count (tpsv_check_batch E arg) acc h)) =
    if arg_unit_check arg then repeat (arg_N arg) count else [].
Proof.
  induction count as [|c IH]; intros lo acc h; cbn [for_range].
  - destruct (arg_unit_check arg); reflexivity.
  - assert (Hb : runs_to (tpsv_check_batch E arg lo acc) h
                   (VectorNorm lo "hx" "hx_or_b_1"
                    :: (if arg_unit_check arg
                        then [UnitCheckError
                                (dabs (measured E (h ++ [VectorNorm lo "hx" "hx_or_b_1"])))
                                (arg_N arg)]
                        else []))
                   (dadd acc (dabs (measured E (h ++ [VectorNorm lo "hx" "hx_or_b_1"]))))).
    { unfold runs_to, tpsv_check_batch. cbv zeta. unfold_calls.
      unfold bind, double_call, emit, ret. destruct (arg_unit_check arg); reflexivity. }
    rewrite (bind_runs _ _ _ _ _ Hb). cbn [fst snd].
    rewrite tolerances_app, IH.
    destruct (arg_unit_check arg); reflexivity.
Qed.

Lemma tpsv_check_tolerances E arg acc h :
  tolerances (fst (for_int_fold (arg_batch_count arg) (tpsv_check_batch E arg) acc h)) =
  if arg_unit_check arg then repeat (arg_N arg) (Z.to_nat (arg_batch_count arg)) else [].
Proof. unfold for_int_fold. apply tpsv_check_range_tolerances. Qed.

Ltac no_tolerance :=
  repeat match goal with
         | |- Forall _ [] => apply List.Forall_nil
         | |- Forall _ (_ :: _) => apply List.Forall_cons; [reflexivity|]
         | |- Forall _ (flat_map _ _) => apply Forall_flat_map_intro; intro; cbv beta
         | |- Forall _ (_ ++ _) => apply Forall_app; split
         | H : Forall (fun e => is_timing_event e = true) ?l |- Forall _ ?l =>
             apply timing_events_no_tolerance; exact H
         end.

Section Tolerances.

Variable E : externals.
Hypothesis Hs : calls_succeed E.
Variable arg : Arguments.
Hypothesis Hf : arg_unit_check arg || arg_norm_check arg = true.

Lemma tpsv_tolerances :
  tpsv_valid arg ->
  tolerances (fst (run (testing_tpsv_batched E arg))) =
  if arg_unit_check arg then repeat (arg_N arg) (Z.to_nat (arg_batch_count arg)) else [].
Proof.
  intros Hv. unfold run, testing_tpsv_batched. cbv zeta.
  rewrite (tpsv_condition_false arg Hv).
  rewrite Hf. unfold_calls; fold (timing_loop E); fold (tpsv_check_batch E arg).
  destruct (arg_timing arg);
    synthesize E Hs ltac:(first [apply (timing_loop_total E Hs) | apply tpsv_check_total]);
    forget_timing_events;
    repeat match goal with
           | |- context [for_int_fold ?bc (tpsv_check_batch ?E0 ?a) ?s ?h] =>
               let x := fresh "loop" in
               let Hy := fresh "Htol" in
               pose proof (tpsv_check_tolerances E0 a s h) as Hy;
               set (x := for_int_fold bc (tpsv_check_batch E0 a) s h) in *; clearbody x
           end;
    tidy.
  all: repeat first
         [ progress cbn [tolerances app]
         | match goal with
           | Htol : tolerances (fst ?l) = _ |- context [tolerances (fst ?l ++ ?rest)] =>
               rewrite (tolerances_app (fst l) rest), Htol
           | |- context [tolerances (?l ++ ?rest)] =>
               rewrite (tolerances_app l rest);
               rewrite (tolerances_none l) by no_tolerance
           | |- context [tolerances ?l] =>
               rewrite (tolerances_none l) by no_tolerance
           end ].
  all: rewrite ?app_nil_r; reflexivity.
Qed.

End Tolerances.

(** C1, as stated, fails.  [testing_copy_strided_batched] calls the
    routine once and sets no pointer mode.  And with norm checking alone
    [testing_axpy_batched] runs [norm_check_general] on the two results and
    nothing else: the two errors it returns are kept for the log line, and
    nothing accepts or rejects them. *)
Lemma one_call_or_no_tolerance :
  calls_succeed all_ok /\ sizes_positive arg0 /\
  arg_unit_check arg0 = true /\
  device_calls (fst (run (testing_copy_strided_batched all_ok arg0))) = [DeviceCall None] /\
  ~ both_conventions_checked (fst (run (testing_copy_strided_batched all_ok arg0))) /\
  arg_norm_check norm_only = true /\
  map check (comparisons_made flow_start (fst (run (testing_axpy_batched all_ok norm_only)))) =
  [NormCheck "hy_cpu" "hy_host"; NormCheck "hy_cpu" "hy_device"] /\
  ~ both_conventions_checked (fst (run (testing_axpy_batched all_ok norm_only))).
Proof.
  split; [split; reflexivity|]. split; [unfold sizes_positive; cbn; lia|].
  split; [reflexivity|]. split; [vm_compute; reflexivity|]. split.
  { intros [(c & r & Hin & _ & _ & Hr) _]. vm_compute in Hin.
    repeat (destruct Hin as [<-|Hin]; [discriminate Hr|]). exact Hin. }
  split; [reflexivity|]. split; [vm_compute; reflexivity|].
  intros [(c & r & Hin & Ha & _) _]. vm_compute in Hin.
  repeat (destruct Hin as [<-|Hin]; [discriminate Ha|]). exact Hin.
Qed.

Lemma both_checked arg routine reference unit_check results_host results_device :
  arg_unit_check arg = true ->
  (forall c r, asserts (unit_check c r) = true) ->
  forall tr c norm_checks,
    comparisons_made flow_start tr =
    when_asked arg
      (checked_against unit_check c (reference_output reference)
         [(results_host, routine_output routine (Some HIPBLAS_POINTER_MODE_HOST));
          (results_device, routine_output routine (Some HIPBLAS_POINTER_MODE_DEVICE))])
      norm_checks ->
    both_conventions_checked tr.
Proof.
  intros Hu Ha tr c norm_checks Hc. unfold both_conventions_checked, checked_in_mode.
  rewrite Hc. unfold when_asked, checked_against. rewrite Hu. cbn [map fst snd app].
  split; eexists; exists routine.
  - split; [left; reflexivity|]. cbn. auto.
  - split; [right; left; reflexivity|]. cbn. auto.
Qed.

(** C1, amended: with unit or norm checking on, arguments that pass the
    initial checks and every library call succeeding.
    [testing_axpy_batched], [testing_geam_batched] and [testing_rotmg] call
    the routine once with device pointer mode set and once with host
    pointer mode set; each comparison reads the output of the CPU
    reference routine and the output of one of the two calls, that of the
    host-mode call first.  [testing_copy_strided_batched] calls the routine
    once, sets no pointer mode, and compares the output of that call with
    the output of [cblas_copy].  [testing_tpsv_batched] calls the routine
    once, sets no pointer mode, and measures for each batch entry the
    distance of the output from [hx], data the test prepared and no output
    of a reference routine; with unit checking on each of these errors is
    handed to [unit_check_error] with a tolerance of [epsilon * 40 * N].
    With unit checking on the comparisons are made by
    [unit_check_general], in [testing_rotmg] by [near_check_general] with a
    relative tolerance of 1000 epsilon, and the first three tests check
    the results of both conventions; with norm checking on they are made
    by [norm_check_general], which returns an error; with unit checking
    off no call of the run accepts or rejects anything. *)
Theorem conventions_checked E arg :
  calls_succeed E ->
  arg_unit_check arg || arg_norm_check arg = true ->
  (sizes_positive arg ->
   let tr := fst (run (testing_axpy_batched E arg)) in
   let reference := reference_output "cblas_axpy" in
   let results :=
     [("hy_host", routine_output "hipblasAxpyBatched" (Some HIPBLAS_POINTER_MODE_HOST));
      ("hy_device", routine_output "hipblasAxpyBatched" (Some HIPBLAS_POINTER_MODE_DEVICE))] in
   checks_results arg tr
     [DeviceCall (Some HIPBLAS_POINTER_MODE_DEVICE); DeviceCall (Some HIPBLAS_POINTER_MODE_HOST)]
     (when_asked arg (checked_against UnitCheck "hy_cpu" reference results)
        (checked_against NormCheck "hy_cpu" reference results)) /\
   (arg_unit_check arg = true -> both_conventions_checked tr)) /\
  (geam_valid E arg -> 0 < arg_batch_count arg ->
   let tr := fst (run (testing_geam_batched E arg)) in
   let reference := reference_output "cblas_geam" in
   let results :=
     [("hC1", routine_output "hipblasGeamBatched" (Some HIPBLAS_POINTER_MODE_HOST));
      ("hC2", routine_output "hipblasGeamBatched" (Some HIPBLAS_POINTER_MODE_DEVICE))] in
   checks_results arg tr
     [DeviceCall (Some HIPBLAS_POINTER_MODE_HOST); DeviceCall (Some HIPBLAS_POINTER_MODE_DEVICE)]
     (when_asked arg (checked_against UnitCheck "hC_copy" reference results)
        (checked_against NormCheck "hC_copy" reference results)) /\
   (arg_unit_check arg = true -> both_conventions_checked tr)) /\
  (let tr := fst (run (testing_rotmg E arg)) in
   let reference := reference_output "cblas_rotmg" in
   let results :=
     [("hparams", routine_output "hipblasRotmg" (Some HIPBLAS_POINTER_MODE_HOST));
      ("hparams_d", routine_output "hipblasRotmg" (Some HIPBLAS_POINTER_MODE_DEVICE))] in
   checks_results arg tr
     [DeviceCall (Some HIPBLAS_POINTER_MODE_HOST); DeviceCall (Some HIPBLAS_POINTER_MODE_DEVICE)]
     (when_asked arg (checked_against (near_check 1000) "cparams" reference results)
        (checked_against NormCheck "cparams" reference results)) /\
   (arg_unit_check arg = true -> both_conventions_checked tr)) /\
  (sizes_positive arg ->
   let tr := fst (run (testing_copy_strided_batched E arg)) in
   let reference := reference_output "cblas_copy" in
   let results := [("hy", routine_output "hipblasCopyStridedBatched" None)] in
   checks_results arg tr [DeviceCall None]
     (when_asked arg (checked_against UnitCheck "hy_cpu" reference results)
        (checked_against NormCheck "hy_cpu" reference results))) /\
  (tpsv_valid arg ->
   let tr := fst (run (testing_tpsv_batched E arg)) in
   checks_results arg tr [DeviceCall None]
     (map (fun b => {| check := VectorNorm b "hx" "hx_or_b_1";
                       reference_holds := Some prepared;
                       result_holds := Some (routine_output "hipblasTpsvBatched" None) |})
        (Zseq (arg_batch_count arg))) /\
   checks_last_norm E arg [] tr /\
   tolerances tr =
   if arg_unit_check arg then repeat (arg_N arg) (Z.to_nat (arg_batch_count arg)) else []).
Proof.
  intros Hs Hf. cbv zeta. unfold checks_results. split; [|split; [|split; [|split]]].
  - intros Hv. split; [split; [|split]|].
    + apply axpy_modes; assumption.
    + apply (axpy_compared E Hs arg Hv).
    + intros Hu. apply filter_none.
      apply (all_events_run _ _ (axpy_asserts_nothing E arg Hu)).
    + intros Hu. eapply (both_checked arg _ _ UnitCheck); [exact Hu | reflexivity |].
      apply (axpy_compared E Hs arg Hv).
  - intros Hv Hbc. split; [split; [|split]|].
    + apply geam_modes; assumption.
    + apply (geam_compared E Hs arg Hv Hbc).
    + intros Hu. apply filter_none.
      apply (all_events_run _ _ (geam_asserts_nothing E arg Hu)).
    + intros Hu. eapply (both_checked arg _ _ UnitCheck); [exact Hu | reflexivity |].
      apply (geam_compared E Hs arg Hv Hbc).
  - split; [split; [|split]|].
    + apply rotmg_modes; assumption.
    + apply (rotmg_compared E Hs arg).
    + intros Hu. apply filter_none.
      apply (all_events_run _ _ (rotmg_asserts_nothing E arg Hu)).
    + intros Hu. eapply (both_checked arg _ _ (near_check 1000)); [exact Hu | reflexivity |].
      apply (rotmg_compared E Hs arg).
  - intros Hv. split; [|split].
    + apply copy_modes; assumption.
    + apply (copy_compared E Hs arg Hv).
    + intros Hu. apply filter_none.
      apply (all_events_run _ _ (copy_asserts_nothing E arg Hu)).
  - intros Hv. split; [split; [|split]|split].
    + apply tpsv_modes; assumption.
    + rewrite (tpsv_compared E Hs arg Hv). unfold checked. rewrite Hf. reflexivity.
    + intros Hu. apply filter_none.
      apply (all_events_run _ _ (tpsv_asserts_nothing E arg Hu)).
    + apply (tpsv_last_norm E arg []).
    + apply (tpsv_tolerances E Hs arg Hf Hv).
Qed.

Lemma conventions_checked_witness :
  both_conventions_checked (fst (run (testing_axpy_batched all_ok arg0))) /\
  both_conventions_checked (fst (run (testing_geam_batched all_ok arg0))) /\
  both_conventions_checked (fst (run (testing_rotmg all_ok arg0))) /\
  device_calls (fst (run (testing_copy_strided_batched all_ok arg0))) = [DeviceCall None] /\
  map result_holds
    (comparisons_made flow_start (fst (run (testing_tpsv_batched all_ok arg0)))) =
  [Some (routine_output "hipblasTpsvBatched" None);
   Some (routine_output "hipblasTpsvBatched" None)] /\
  tolerances (fst (run (testing_tpsv_batched all_ok arg0))) = [arg_N arg0; arg_N arg0].
Proof.
  destruct (conventions_checked all_ok arg0 all_ok_succeeds eq_refl)
    as (H1 & H2 & H3 & H4 & H5).
  assert (Hs : sizes_positive arg0) by (unfold sizes_positive; cbn; lia).
  assert (Hg : geam_valid all_ok arg0) by (unfold geam_valid; cbn; lia).
  assert (Ht : tpsv_valid arg0) by (unfold tpsv_valid; cbn; lia).
  assert (Hb : 0 < arg_batch_count arg0) by (cbn; lia).
  split; [exact (proj2 (H1 Hs) eq_refl)|]. split; [exact (proj2 (H2 Hg Hb) eq_refl)|].
  split; [exact (proj2 H3 eq_refl)|].
  split; [exact (proj1 (H4 Hs))|].
  destruct (H5 Ht) as ((_ & H & _) & _ & Htol).
  split; [rewrite H; reflexivity|exact Htol].
Defined.

(** ** Every run compares outputs *)

Lemma calm_succeeds E : calls_succeed (calm E).
Proof. split; reflexivity. Qed.

Lemma comparisons_made_cut_short {A} (P : comparison -> Prop) (m m' : io A) :
  cut_short_of m m' ->
  Forall P (comparisons_made flow_start (fst (run m'))) ->
  Forall P (comparisons_made flow_start (fst (run m))).
Proof.
  intros H. destruct (cut_short_run m m' H) as [[rest Hrest] _].
  rewrite Hrest, comparisons_made_app. intros HP. apply Forall_app in HP. tauto.
Qed.

Lemma compares_nothing {A} (P : comparison -> Prop) (m : io A) :
  respects (all_events (fun e => is_comparison e = false)) m ->
  Forall P (comparisons_made flow_start (fst (run m))).
Proof.
  intros H. rewrite comparisons_made_none; [constructor|]. apply (H []).
Qed.

Lemma when_asked_forall {A} (P : A -> Prop) arg u n :
  Forall P u -> Forall P n -> Forall P (when_asked arg u n).
Proof.
  intros Hu Hn. unfold when_asked. apply Forall_app.
  split; [destruct (arg_unit_check arg) | destruct (arg_norm_check arg)];
    first [assumption | constructor].
Qed.

Section EveryComparison.

Variable E : externals.
Variable arg : Arguments.

Lemma axpy_every_comparison :
  Forall compares_outputs
    (comparisons_made flow_start (fst (run (testing_axpy_batched E arg)))).
Proof.
  destruct ((arg_N arg <=? 0) || (arg_batch_count arg <=? 0)) eqn:Hc.
  - apply compares_nothing. unfold testing_axpy_batched. cbv zeta. rewrite Hc.
    events_walk E ltac:(reflexivity).
  - apply (comparisons_made_cut_short _ _ _ (axpy_cut_short E arg)).
    rewrite axpy_compared.
    + cbv zeta. apply when_asked_forall; repeat constructor.
    + apply calm_succeeds.
    + apply orb_false_elim in Hc. destruct Hc as [HN Hb].
      apply Z.leb_gt in HN. apply Z.leb_gt in Hb. split; assumption.
Qed.

Lemma copy_every_comparison :
  Forall compares_outputs
    (comparisons_made flow_start (fst (run (testing_copy_strided_batched E arg)))).
Proof.
  destruct ((arg_N arg <=? 0) || (arg_batch_count arg <=? 0)) eqn:Hc.
  - apply compares_nothing. unfold testing_copy_strided_batched. cbv zeta. rewrite Hc.
    events_walk E ltac:(reflexivity).
  - apply (comparisons_made_cut_short _ _ _ (copy_cut_short E arg)).
    rewrite copy_compared.
    + cbv zeta. apply when_asked_forall; repeat constructor.
    + apply calm_succeeds.
    + apply orb_false_elim in Hc. destruct Hc as [HN Hb].
      apply Z.leb_gt in HN. apply Z.leb_gt in Hb. split; assumption.
Qed.

Lemma rotmg_every_comparison :
  Forall compares_outputs (comparisons_made flow_start (fst (run (testing_rotmg E arg)))).
Proof.
  apply (comparisons_made_cut_short _ _ _ (rotmg_cut_short E arg)).
  rewrite rotmg_compared by apply calm_succeeds.
  cbv zeta. apply when_asked_forall; repeat constructor.
Qed.

Lemma geam_every_comparison :
  Forall compares_outputs
    (comparisons_made flow_start (fst (run (testing_geam_batched E arg)))).
Proof.
  destruct ((arg_M arg <=? 0) || (arg_N arg <=? 0) || (arg_lda arg <? geam_A_row E arg)
            || (arg_ldb arg <? geam_B_row E arg) || (arg_ldc arg <? arg_M arg)
            || (arg_batch_count arg <? 0)) eqn:Hc.
  - unfold run, testing_geam_batched. cbv zeta.
    fold (geam_A_row E arg) (geam_B_row E arg). rewrite Hc. constructor.
  - destruct (arg_batch_count arg =? 0) eqn:Hz.
    + unfold run, testing_geam_batched. cbv zeta.
      fold (geam_A_row E arg) (geam_B_row E arg). rewrite Hc, Hz. constructor.
    + apply (comparisons_made_cut_short _ _ _ (geam_cut_short E arg)).
      repeat (apply orb_false_elim in Hc; destruct Hc as [Hc ?]).
      assert (Hv : geam_valid E arg).
      { unfold geam_valid.
        repeat split; first [apply Z.leb_gt; assumption | apply Z.ltb_ge; assumption]. }
      rewrite geam_compared.
      * cbv zeta. apply when_asked_forall; repeat constructor.
      * apply calm_succeeds.
      * exact Hv.
      * apply Z.eqb_neq in Hz. destruct Hv as (_ & _ & _ & _ & _ & Hb). lia.
Qed.

Lemma tpsv_every_comparison :
  Forall (fun c => reads_routine_output c = true /\ reads_prepared_data c = true)
    (comparisons_made flow_start (fst (run (testing_tpsv_batched E arg)))).
Proof.
  destruct (tpsv_valid_dec arg) as [Hv|Hv].
  - apply (comparisons_made_cut_short _ _ _ (tpsv_cut_short E arg Hv)).
    rewrite tpsv_compared; [|apply calm_succeeds | exact Hv].
    destruct (checked arg); [|constructor].
    apply Forall_forall. intros c Hc. apply list_elem_of_In, in_map_iff in Hc.
    destruct Hc as (b & <- & _). split; reflexivity.
  - rewrite (tpsv_quick_run E arg (tpsv_condition_true arg Hv)). constructor.
Qed.

End EveryComparison.

(** X18: in every run, whatever the libraries answer, every comparison
    reads, as the result, a buffer that holds the output of the routine
    under test: the buffer the routine wrote, or a buffer that was copied
    to from it afterwards, nothing else having been written to either in
    between.  As the reference it reads the output of the CPU reference
    routine; in [testing_tpsv_batched], data the test prepared. *)
Theorem compared_results_come_from_the_routine E arg :
  Forall compares_outputs
    (comparisons_made flow_start (fst (run (testing_axpy_batched E arg)))) /\
  Forall compares_outputs
    (comparisons_made flow_start (fst (run (testing_copy_strided_batched E arg)))) /\
  Forall compares_outputs (comparisons_made flow_start (fst (run (testing_rotmg E arg)))) /\
  Forall compares_outputs
    (comparisons_made flow_start (fst (run (testing_geam_batched E arg)))) /\
  Forall (fun c => reads_routine_output c = true /\ reads_prepared_data c = true)
    (comparisons_made flow_start (fst (run (testing_tpsv_batched E arg)))).
Proof.
  split; [|split; [|split; [|split]]].
  - apply axpy_every_comparison.
  - apply copy_every_comparison.
  - apply rotmg_every_comparison.
  - apply geam_every_comparison.
  - apply tpsv_every_comparison.
Qed.

(** ** What the routine under test runs on *)

Lemma fills_before_calls_app s l1 l2 :
  fills_before_calls s (l1 ++ l2) =
  fills_before_calls s l1 && fills_before_calls (fold_left filled_next l1 s) l2.
Proof.
  revert s. induction l1 as [|e l1 IH]; intros s; cbn [app fills_before_calls fold_left].
  - reflexivity.
  - rewrite IH, andb_assoc. reflexivity.
Qed.

Lemma fills_before_calls_prefix s l rest :
  fills_before_calls s (l ++ rest) = true -> fills_before_calls s l = true.
Proof. rewrite fills_before_calls_app. intros H. apply andb_prop in H. tauto. Qed.

(** Events that neither call the routine nor copy anything change
    nothing. *)
Lemma fills_before_calls_inert s l :
  Forall (fun e => is_inert e = true) l ->
  fills_before_calls s l = true /\ fold_left filled_next l s = s.
Proof.
  intros H. induction H as [|e l He _ IH]; cbn [fills_before_calls fold_left].
  - split; reflexivity.
  - assert (Hn : filled_next s e = s) by (destruct e; try discriminate He; reflexivity).
    assert (Hr : runs_on_filled s e = true) by (destruct e; try discriminate He; reflexivity).
    rewrite Hn, Hr. exact IH.
Qed.

(** A timing loop that repeats a call that runs on filled buffers. *)
Lemma fills_before_calls_timing s l call n :
  Forall (fun e => is_timing_event e = true) l ->
  List.filter is_blas_call l = repeat call n ->
  runs_on_filled s call = true ->
  fills_before_calls s l = true /\ fold_left filled_next l s = s.
Proof.
  intros Hl Hf Hc.
  assert (Hall : Forall (fun e => runs_on_filled s e = true /\ filled_next s e = s) l).
  { apply Forall_forall. intros e He.
    pose proof (proj1 (Forall_forall _ _) Hl e He) as Ht.
    destruct e; try discriminate Ht; [|split; reflexivity].
    split; [|reflexivity].
    assert (Hin : In (BlasCall routine fortran args) (List.filter is_blas_call l)).
    { apply filter_In. split; [apply list_elem_of_In; exact He | reflexivity]. }
    rewrite Hf in Hin. apply repeat_spec in Hin. rewrite Hin. exact Hc. }
  clear Hl Hf. induction Hall as [|e l [He1 He2] _ IH]; cbn [fills_before_calls fold_left].
  - split; reflexivity.
  - rewrite He1, He2. exact IH.
Qed.

Lemma compare_events_inert l :
  Forall (fun e => is_compare e = true) l -> Forall (fun e => is_inert e = true) l.
Proof.
  intros H. eapply Forall_weaken; [|exact H].
  intros e He. destruct e; try discriminate He; reflexivity.
Qed.

Ltac inert_events :=
  repeat match goal with
         | |- Forall _ [] => apply List.Forall_nil
         | |- Forall _ (_ :: _) => apply List.Forall_cons; [reflexivity|]
         | |- Forall _ (flat_map _ _) => apply Forall_flat_map_intro; intro; cbv beta
         | |- Forall _ (_ ++ _) => apply Forall_app; split
         | H : Forall (fun e => is_compare e = true) ?l |- Forall _ ?l =>
             apply compare_events_inert; exact H
         end.

Ltac fills_step :=
  first
    [ progress cbn [fills_before_calls runs_on_filled filled_next device_names call_args
                    forallb flat_map app andb named existsb orb String.eqb Ascii.eqb
                    Bool.eqb]
    | reflexivity
    | match goal with
      | Hl : Forall (fun e => is_timing_event e = true) (fst ?l),
        Hf : List.filter is_blas_call (fst ?l) = repeat ?c ?n
        |- fills_before_calls ?s (fst ?l ++ ?rest) = true =>
          let H1 := fresh in
          let H2 := fresh in
          rewrite (fills_before_calls_app s (fst l) rest);
          destruct (fills_before_calls_timing s (fst l) c n Hl Hf eq_refl) as [H1 H2];
          rewrite H1, H2
      | |- fills_before_calls ?s (?chunk ++ ?rest) = true =>
          let H1 := fresh in
          let H2 := fresh in
          rewrite (fills_before_calls_app s chunk rest);
          destruct (fills_before_calls_inert s chunk ltac:(inert_events)) as [H1 H2];
          rewrite H1, H2
      end ].

Section Filled.

Variable E : externals.
Hypothesis Hs : calls_succeed E.
Variable arg : Arguments.

Lemma axpy_filled :
  sizes_positive arg ->
  fills_before_calls [] (fst (run (testing_axpy_batched E arg))) = true.
Proof.
  intros Hv. unfold run, testing_axpy_batched. cbv zeta.
  rewrite (sizes_condition_false arg Hv).
  destruct (arg_unit_check arg), (arg_norm_check arg), (arg_timing arg);
    cbn [orb]; unfold_calls; fold (timing_loop E);
    synthesize E Hs ltac:(apply (timing_loop_total E Hs)); forget_timing_calls Hs; tidy.
  all: repeat fills_step.
Qed.

Lemma copy_filled :
  sizes_positive arg ->
  fills_before_calls [] (fst (run (testing_copy_strided_batched E arg))) = true.
Proof.
  intros Hv. unfold run, testing_copy_strided_batched. cbv zeta.
  rewrite (sizes_condition_false arg Hv).
  destruct (arg_unit_check arg), (arg_norm_check arg), (arg_timing arg);
    cbn [orb]; unfold_calls; fold (timing_loop E);
    synthesize E Hs ltac:(apply (timing_loop_total E Hs)); forget_timing_calls Hs; tidy.
  all: repeat fills_step.
Qed.

Lemma rotmg_filled :
  fills_before_calls [] (fst (run (testing_rotmg E arg))) = true.
Proof.
  unfold run, testing_rotmg. cbv zeta.
  destruct (arg_unit_check arg), (arg_norm_check arg), (arg_timing arg);
    cbn [orb]; unfold_calls; fold (timing_loop E);
    synthesize E Hs ltac:(apply (timing_loop_total E Hs)); forget_timing_calls Hs; tidy.
  all: repeat fills_step.
Qed.

Lemma geam_filled :
  geam_valid E arg -> 0 < arg_batch_count arg ->
  fills_before_calls [] (fst (run (testing_geam_batched E arg))) = true.
Proof.
  intros Hv Hbc. unfold run, testing_geam_batched. cbv zeta.
  fold (geam_A_row E arg) (geam_B_row E arg).
  rewrite (geam_condition_false E arg Hv).
  replace (arg_batch_count arg =? 0) with false by (symmetry; apply Z.eqb_neq; lia).
  destruct (arg_unit_check arg), (arg_norm_check arg), (arg_timing arg);
    cbn [orb]; unfold_calls; fold (timing_loop E);
    synthesize E Hs ltac:(apply (timing_loop_total E Hs)); forget_timing_calls Hs; tidy.
  all: repeat fills_step.
Qed.

Lemma tpsv_filled :
  tpsv_valid arg ->
  fills_before_calls [] (fst (run (testing_tpsv_batched E arg))) = true.
Proof.
  intros Hv. unfold run, testing_tpsv_batched. cbv zeta.
  rewrite (tpsv_condition_false arg Hv).
  unfold_calls; fold (timing_loop E); fold (tpsv_check_batch E arg).
  destruct (arg_unit_check arg || arg_norm_check arg), (arg_timing arg);
    synthesize E Hs ltac:(first [apply (timing_loop_total E Hs) | apply tpsv_check_total]);
    forget_timing_calls Hs; forget_check_loop; tidy.
  all: repeat fills_step.
Qed.

End Filled.

Lemma fills_before_calls_cut_short {A} (m m' : io A) :
  cut_short_of m m' ->
  fills_before_calls [] (fst (run m')) = true ->
  fills_before_calls [] (fst (run m)) = true.
Proof.
  intros H. destruct (cut_short_run m m' H) as [[rest Hrest] _].
  rewrite Hrest. apply fills_before_calls_prefix.
Qed.

(** Calls that are handed no device buffer. *)
Lemma fills_before_calls_null s l :
  Forall (fun e => device_names (call_args e) = []) l -> fills_before_calls s l = true.
Proof.
  intros H. revert s. induction H as [|e l He _ IH]; intros s; cbn [fills_before_calls].
  - reflexivity.
  - unfold runs_on_filled. rewrite He, IH. reflexivity.
Qed.

Lemma fills_nothing_run {A} (m : io A) :
  respects (all_events (fun e => device_names (call_args e) = [])) m ->
  fills_before_calls [] (fst (run m)) = true.
Proof. intros H. apply fills_before_calls_null. apply (H []). Qed.

Section EveryCall.

Variable E : externals.
Variable arg : Arguments.

Lemma axpy_every_call :
  fills_before_calls [] (fst (run (testing_axpy_batched E arg))) = true.
Proof.
  destruct ((arg_N arg <=? 0) || (arg_batch_count arg <=? 0)) eqn:Hc.
  - apply fills_nothing_run. unfold testing_axpy_batched. cbv zeta. rewrite Hc.
    events_walk E ltac:(reflexivity).
  - apply (fills_before_calls_cut_short _ _ (axpy_cut_short E arg)).
    apply axpy_filled; [apply calm_succeeds|].
    apply orb_false_elim in Hc. destruct Hc as [HN Hb].
    apply Z.leb_gt in HN. apply Z.leb_gt in Hb. split; assumption.
Qed.

Lemma copy_every_call :
  fills_before_calls [] (fst (run (testing_copy_strided_batched E arg))) = true.
Proof.
  destruct ((arg_N arg <=? 0) || (arg_batch_count arg <=? 0)) eqn:Hc.
  - apply fills_nothing_run. unfold testing_copy_strided_batched. cbv zeta. rewrite Hc.
    events_walk E ltac:(reflexivity).
  - apply (fills_before_calls_cut_short _ _ (copy_cut_short E arg)).
    apply copy_filled; [apply calm_succeeds|].
    apply orb_false_elim in Hc. destruct Hc as [HN Hb].
    apply Z.leb_gt in HN. apply Z.leb_gt in Hb. split; assumption.
Qed.

Lemma rotmg_every_call :
  fills_before_calls [] (fst (run (testing_rotmg E arg))) = true.
Proof.
  apply (fills_before_calls_cut_short _ _ (rotmg_cut_short E arg)).
  apply rotmg_filled, calm_succeeds.
Qed.

Lemma geam_every_call :
  fills_before_calls [] (fst (run (testing_geam_batched E arg))) = true.
Proof.
  destruct ((arg_M arg <=? 0) || (arg_N arg <=? 0) || (arg_lda arg <? geam_A_row E arg)
            || (arg_ldb arg <? geam_B_row E arg) || (arg_ldc arg <? arg_M arg)
            || (arg_batch_count arg <? 0)) eqn:Hc.
  - unfold run, testing_geam_batched. cbv zeta.
    fold (geam_A_row E arg) (geam_B_row E arg). rewrite Hc. reflexivity.
  - destruct (arg_batch_count arg =? 0) eqn:Hz.
    + unfold run, testing_geam_batched. cbv zeta.
      fold (geam_A_row E arg) (geam_B_row E arg). rewrite Hc, Hz. reflexivity.
    + apply (fills_before_calls_cut_short _ _ (geam_cut_short E arg)).
      repeat (apply orb_false_elim in Hc; destruct Hc as [Hc ?]).
      assert (Hv : geam_valid E arg).
      { unfold geam_valid.
        repeat split; first [apply Z.leb_gt; assumption | apply Z.ltb_ge; assumption]. }
      apply geam_filled; [apply calm_succeeds | exact Hv |].
      apply Z.eqb_neq in Hz. destruct Hv as (_ & _ & _ & _ & _ & Hb). lia.
Qed.

Lemma tpsv_every_call :
  fills_before_calls [] (fst (run (testing_tpsv_batched E arg))) = true.
Proof.
  destruct (tpsv_valid_dec arg) as [Hv|Hv].
  - apply (fills_before_calls_cut_short _ _ (tpsv_cut_short E arg Hv)).
    apply tpsv_filled; [apply calm_succeeds | exact Hv].
  - rewrite (tpsv_quick_run E arg (tpsv_condition_true arg Hv)). reflexivity.
Qed.

End EveryCall.

(** X19: in every run, whatever the libraries answer, every device buffer
    the routine under test is handed has been copied to before, by
    [transfer_from] or by a host-to-device [hipMemcpy]: the routine
    never runs on device memory the test has not filled (the early
    returns hand it null pointers only). *)
Theorem routine_runs_on_filled_buffers E arg :
  fills_before_calls [] (fst (run (testing_axpy_batched E arg))) = true /\
  fills_before_calls [] (fst (run (testing_copy_strided_batched E arg))) = true /\
  fills_before_calls [] (fst (run (testing_rotmg E arg))) = true /\
  fills_before_calls [] (fst (run (testing_geam_batched E arg))) = true /\
  fills_before_calls [] (fst (run (testing_tpsv_batched E arg))) = true.
Proof.
  split; [|split; [|split; [|split]]].
  - apply axpy_every_call.
  - apply copy_every_call.
  - apply rotmg_every_call.
  - apply geam_every_call.
  - apply tpsv_every_call.
Qed.

(** ** More on the triangular factor *)

(** Every index of an [N] by [N] array is the index of one entry. *)
Lemma idx_covers N k :
  0 <= N -> 0 <= k < N * N -> N * N <= INT_MAX ->
  exists i j, 0 <= i < N /\ 0 <= j < N /\ idx i j N = k.
Proof.
  intros HN0 Hk HN. assert (0 < N) by nia.
  exists (k mod N), (k / N).
  pose proof (Z.mod_pos_bound k N ltac:(lia)).
  pose proof (Z.div_mod k N ltac:(lia)).
  assert (0 <= k / N) by (apply Z.div_pos; lia).
  assert (k / N < N) by (apply Z.div_lt_upper_bound; lia).
  split; [lia|]. split; [lia|].
  rewrite idx_in_range by lia. lia.
Qed.

(** Two arrays of [N * N] elements that agree on every entry are equal. *)
Lemma array_ext {T} (zero : T) N (a b : list T) :
  0 <= N -> N * N <= INT_MAX ->
  Z.of_nat (length a) = N * N -> Z.of_nat (length b) = N * N ->
  (forall i j, 0 <= i < N -> 0 <= j < N -> get zero a (idx i j N) = get zero b (idx i j N)) ->
  a = b.
Proof.
  intros HN0 HN Ha Hb H. apply list_eq. intros k.
  destruct (decide (Z.of_nat k < N * N)) as [Hk|Hk].
  - destruct (idx_covers N (Z.of_nat k) HN0 ltac:(lia) HN) as (i & j & Hi & Hj & Hidx).
    specialize (H i j Hi Hj). rewrite Hidx in H. unfold get in H.
    rewrite Nat2Z.id in H.
    destruct (nth_lookup_or_length a k zero) as [Hka|Hka]; [|lia].
    destruct (nth_lookup_or_length b k zero) as [Hkb|Hkb]; [|lia].
    rewrite Hka, Hkb, H. reflexivity.
  - rewrite !lookup_ge_None_2 by lia. reflexivity.
Qed.

(** X15: the loop of lines 114-123 overwrites every entry of [hA]: what it
    leaves depends on [AAT] alone, not on what [hA] held, and is a
    symmetric matrix when [AAT] is one. *)
Theorem make_dominant_overwrites {T : Type} (zero : T) (add : T -> T -> T) (abs : T -> T)
    (N : Z) (AAT hA hA' : list T) :
  0 <= N -> N * N <= INT_MAX ->
  Z.of_nat (length hA) = N * N -> Z.of_nat (length hA') = N * N ->
  make_dominant zero add abs N AAT hA = make_dominant zero add abs N AAT hA' /\
  ((forall i j, 0 <= i < N -> 0 <= j < N ->
      get zero AAT (idx i j N) = get zero AAT (idx j i N)) ->
   forall i j, 0 <= i < N -> 0 <= j < N ->
     get zero (make_dominant zero add abs N AAT hA) (idx i j N) =
     get zero (make_dominant zero add abs N AAT hA) (idx j i N)).
Proof.
  intros HN0 HN Hlen Hlen'.
  destruct (make_dominant_spec zero add abs N AAT hA HN0 HN ltac:(lia)) as (Hl & Hget).
  destruct (make_dominant_spec zero add abs N AAT hA' HN0 HN ltac:(lia)) as (Hl' & Hget').
  split.
  - apply (array_ext zero N); [exact HN0 | exact HN | lia | lia |].
    intros i j Hi Hj. rewrite Hget, Hget' by assumption. reflexivity.
  - intros Hsym i j Hi Hj. rewrite !Hget by assumption.
    destruct (Z.eqb_spec j i) as [->|Hne].
    + rewrite Z.eqb_refl. reflexivity.
    + destruct (Z.eqb_spec i j); [congruence|]. apply Hsym; assumption.
Qed.

Lemma make_dominant_overwrites_witness :
  make_dominant 0 Z.add Z.abs 2 [10; 14; 14; 20] [1; 2; 3; 4] =
  make_dominant 0 Z.add Z.abs 2 [10; 14; 14; 20] [0; 0; 0; 0].
Proof.
  apply (make_dominant_overwrites 0 Z.add Z.abs 2 [10; 14; 14; 20] [1; 2; 3; 4] [0; 0; 0; 0]);
    first [lia | reflexivity | vm_compute; discriminate].
Defined.

(** X16: with [diag] 'U' or 'u' and elements that are doubles, lines
    129-145 leave 1.0 at entry (i, i) of the factor when the entry potrf
    left there is finite and not zero, and NaN when it is zero, infinite
    or NaN. *)
Theorem unit_diagonal_made (arg : Arguments) (N : Z) (F : list double) (i : Z) :
  0 <= N -> N * N <= INT_MAX -> N * N <= Z.of_nat (length F) ->
  is_char (arg_diag arg) "U" "u" = true ->
  0 <= i < N ->
  get dzero (make_unit_diag dzero ddiv arg N F) (idx i i N) =
  match get dzero F (idx i i N) with
  | S754_finite _ _ _ => d_one
  | _ => S754_nan
  end.
Proof.
  intros HN0 HN Hlen Hu Hi. unfold make_unit_diag. rewrite Hu.
  assert (Hd : forall d : double,
            ddiv d d = match d with S754_finite _ _ _ => d_one | _ => S754_nan end).
  { intros [s|s| |s m e]; try reflexivity. apply ddiv_same. }
  destruct (Ascii.eqb "L" (arg_uplo arg) || Ascii.eqb "l" (arg_uplo arg)).
  - destruct (unit_diag_lower_spec dzero ddiv N F HN0 HN Hlen) as (_ & Hget).
    rewrite Hget by assumption. rewrite Z.leb_refl. apply Hd.
  - destruct (unit_diag_upper_spec dzero ddiv N F HN0 HN Hlen) as (_ & Hget).
    rewrite Hget by assumption. rewrite Z.leb_refl. apply Hd.
Qed.

(** A factor with the diagonal (2.0, 3.0), and one with a zero on it. *)
Lemma unit_diagonal_made_witness :
  get dzero (make_unit_diag dzero ddiv (with_diag "U" arg0) 2
               (map size_t_to_double [2; 6; 3; 3])) (idx 1 1 2) = d_one /\
  get dzero (make_unit_diag dzero ddiv (with_diag "U" arg0) 2
               (map size_t_to_double [2; 6; 3; 0])) (idx 1 1 2) = S754_nan.
Proof.
  split.
  - apply (unit_diagonal_made (with_diag "U" arg0) 2 (map size_t_to_double [2; 6; 3; 3]) 1);
      first [lia | reflexivity | vm_compute; discriminate].
  - apply (unit_diagonal_made (with_diag "U" arg0) 2 (map size_t_to_double [2; 6; 3; 0]) 1);
      first [lia | reflexivity | vm_compute; discriminate].
Defined.

(** X17: the loop over the batch is a map over the first [batch_count]
    entries of the buffers: entry [b] of the result comes from entry [b]
    alone, and the entries from [batch_count] on are left as they
    were. *)
Theorem tpsv_prepare_all_is_a_map {T : Type} (zero one : T) (add : T -> T -> T)
    (abs : T -> T) (div : T -> T -> T)
    (ref_gemm : hipblasOperation_t -> hipblasOperation_t -> Z -> Z -> Z -> T ->
                list T -> Z -> list T -> Z -> T -> list T -> Z -> list T)
    (ref_potrf : ascii -> Z -> list T -> Z -> list T)
    (ref_trmv : hipblasFillMode_t -> hipblasOperation_t -> hipblasDiagType_t -> Z ->
                list T -> Z -> list T -> Z -> list T)
    (ref_regular_to_packed : bool -> list T -> list T -> Z -> list T)
    (E : externals) (arg : Arguments) (bufs : list tpsv_buffers) :
  tpsv_prepare_all zero one add abs div ref_gemm ref_potrf ref_trmv ref_regular_to_packed
    E arg bufs =
  map (tpsv_prepare zero one add abs div ref_gemm ref_potrf ref_trmv ref_regular_to_packed
         E arg)
    (take (Z.to_nat (arg_batch_count arg)) bufs)
  ++ drop (Z.to_nat (arg_batch_count arg)) bufs.
Proof.
  apply list_eq. intros b. rewrite tpsv_prepare_all_lookup.
  set (f := tpsv_prepare _ _ _ _ _ _ _ _ _ _ _).
  set (n := Z.to_nat (arg_batch_count arg)).
  destruct (Z.ltb_spec (Z.of_nat b) (arg_batch_count arg)) as [Hb|Hb].
  - assert (Hbn : (b < n)%nat) by lia.
    destruct (decide (b < length bufs)%nat) as [Hl|Hl].
    + rewrite lookup_app_l by (rewrite length_map, length_take; lia).
      change (map f) with (fmap (M:=list) f). rewrite list_lookup_fmap.
      rewrite lookup_take_lt by exact Hbn. reflexivity.
    + rewrite (lookup_ge_None_2 bufs b) by lia. cbn.
      symmetry. apply lookup_ge_None_2.
      rewrite length_app, length_map, length_take, length_drop. lia.
  - assert (Hbn : (n <= b)%nat) by lia.
    destruct (decide (n <= length bufs)%nat) as [Hl|Hl].
    + rewrite lookup_app_r by (rewrite length_map, length_take; lia).
      rewrite length_map, length_take, lookup_drop.
      f_equal. lia.
    + rewrite (lookup_ge_None_2 bufs b) by lia.
      symmetry. apply lookup_ge_None_2.
      rewrite length_app, length_map, length_take, length_drop. lia.
Qed.
